(** * AIDebate: chat log, autonomous bots, moderator and voting

    A shallow embedding of the parts of [app/chat_log.py], [app/bot_client.py],
    [app/moderator.py] and [app/voting.py] that the specification talks about,
    together with the properties established for them.

    Conventions of the embedding.
    - Python [float]s that hold wall-clock readings ([time.time()]), cooldowns
      and probabilities are rationals ([Q]): every value the code computes
      from them is built with [+], [-], [*], [min] and [max] from small
      decimal constants, and the properties below are about the order of such
      values, not about rounding.  A quotient of two integers (a rate, an
      average) stands for the float nearest to it: the statements give
      single quotients and bounds on them, never the value of a sum of
      quotients.
    - Every [time.time()] call is an explicit argument of the function that
      makes it; every [random.random()] call likewise.
    - Python [str] is [string], a sequence of bytes: a text stands for its
      UTF-8 encoding.  On ASCII text [String.length], [String.substring],
      [PyStr.lower], [PyStr.is_space] and [PyStr.word_char] are [len()],
      slicing, [str.lower()], the whitespace of [str.strip()] and the class
      [\w] of the regular expressions; on other text they are not, and a
      statement that depends on one of them says that its text is ASCII
      ([ChatLogQueries.is_ascii]).
    - [dict]s keyed by strings are [gmap string _] unless their iteration
      order is observable, in which case they are association lists in
      insertion order.
    - An [asyncio.Queue] is an object on a heap, named by its address. *)

From Stdlib Require Import QArith Qminmax Qround Lqa Ascii.
From Stdlib Require String.
From stdpp Require Import gmap strings list sorting pretty.

Local Open Scope nat_scope.
Local Open Scope stdpp_scope.

(** Boolean comparisons on rationals, as Python evaluates [<] and [<=]. *)
Definition Qltb (x y : Q) : bool := negb (Qle_bool y x).
Definition Qleb (x y : Q) : bool := Qle_bool x y.

(** ** The chat log ([app/chat_log.py]) *)
Module ChatLog.

(** [Message] dataclass.  [metadata] is a dictionary of auxiliary values; it
    is carried along and never inspected by the code modelled here. *)
Record Message := mkMessage {
  sender : string;
  content : string;
  timestamp : Q;
  message_id : nat;
  message_type : string;
  metadata : list (string * string)
}.

(** An [asyncio.Queue()] created without a bound.  [items] is everything
    that was ever [put], in order; [taken] counts the [get]s that returned,
    so the pending content is [drop taken items].  [closed] is the
    [_closed] attribute that [_notify_subscribers] probes with [getattr]:
    absent (false) on a new queue. *)
Record Queue := mkQueue {
  items : list Message;
  taken : nat;
  closed : bool
}.

Definition pending (q : Queue) : list Message := drop (taken q) (items q).

Record Stats := mkStats {
  total_messages : nat;
  messages_by_sender : gmap string nat;
  bot_responses : nat;
  human_responses : nat;
  moderator_messages : nat;
  silence_breaks : nat
}.

Record t := mkChatLog {
  maxlen : nat;                      (* deque(maxlen=max_messages) *)
  messages : list Message;           (* the deque, oldest first *)
  message_counter : nat;
  subscribers : list nat;            (* addresses of the subscribed queues *)
  response_times : gmap string Q;
  stats : Stats;
  heap : gmap nat Queue;             (* the queue objects *)
  next_addr : nat                    (* next unused address *)
}.

Definition empty_stats : Stats :=
  mkStats 0 ∅ 0 0 0 0.

(** [ChatLog.__init__] *)
Definition init (max_messages : nat) : t :=
  {| maxlen := max_messages; messages := []; message_counter := 0;
     subscribers := []; response_times := ∅; stats := empty_stats;
     heap := ∅; next_addr := 0 |}.

(** [deque.append] on a deque with [maxlen]: the item is added on the right
    and, when that makes the deque longer than [maxlen], the leftmost item
    is dropped. *)
Definition deque_append (n : nat) (d : list Message) (m : Message)
  : list Message :=
  let d' := d ++ [m] in
  if n <? length d' then drop 1 d' else d'.

(** [ChatLog.get_response_time] *)
Definition get_response_time (who : string) (now : Q) (rt : gmap string Q)
  : option Q * gmap string Q :=
  match rt !! who with
  | Some t0 => (Some (now - t0)%Q, delete who rt)
  | None => (None, rt)
  end.

(** [ChatLog.start_response_timer] *)
Definition start_response_timer (who : string) (now : Q) (cl : t) : t :=
  {| maxlen := maxlen cl; messages := messages cl;
     message_counter := message_counter cl; subscribers := subscribers cl;
     response_times := <[who := now]> (response_times cl);
     stats := stats cl; heap := heap cl; next_addr := next_addr cl |}.

Definition bot_names : list string :=
  ["Socrates"; "Advocate"; "Skeptic"; "Mediator"].

Definition is_closed (h : gmap nat Queue) (a : nat) : bool :=
  match h !! a with
  | Some q => closed q
  | None => false
  end.

Definition put (m : Message) (h : gmap nat Queue) (a : nat)
  : gmap nat Queue :=
  match h !! a with
  | Some q => <[a := mkQueue (items q ++ [m]) (taken q) (closed q)]> h
  | None => h
  end.

(** [ChatLog._notify_subscribers]: drop the closed queues from the
    subscriber list, then [put] the message on each remaining one. *)
Definition notify_subscribers (m : Message) (subs : list nat)
  (h : gmap nat Queue) : list nat * gmap nat Queue :=
  let live := filter (fun a => is_closed h a = false) subs in
  (live, foldl (put m) h live).

(** The statistics update of [add_message].  [msgs] is the deque after the
    append. *)
Definition update_stats (who : string) (m : Message) (msgs : list Message)
  (s : Stats) : Stats :=
  let by_sender :=
    <[who := S (default 0 (messages_by_sender s !! who))]>
      (messages_by_sender s) in
  let total := S (total_messages s) in
  if bool_decide (who ∈ bot_names) then
    let breaks :=
      if 1 <? length msgs then
        match msgs !! (length msgs - 2) with
        | Some prev =>
            if Qltb (timestamp m - timestamp prev) 10
            then S (silence_breaks s) else silence_breaks s
        | None => silence_breaks s
        end
      else silence_breaks s in
    mkStats total by_sender (S (bot_responses s)) (human_responses s)
            (moderator_messages s) breaks
  else if bool_decide (who = "Moderator") then
    mkStats total by_sender (bot_responses s) (human_responses s)
            (S (moderator_messages s)) (silence_breaks s)
  else
    mkStats total by_sender (bot_responses s) (S (human_responses s))
            (moderator_messages s) (silence_breaks s).

(** [ChatLog.add_message].  [now_rt] is the clock reading made by
    [get_response_time] (used only when a timer is running for the sender)
    and [now] the one stored as the timestamp.  The broadcast to the web
    server happens after everything modelled here and swallows its own
    failures; it does not touch the chat log. *)
Definition add_message (who text mtype : string)
  (meta : list (string * string)) (now_rt now : Q) (cl : t) : t * Message :=
  let counter := S (message_counter cl) in
  let '(_, rt) := get_response_time who now_rt (response_times cl) in
  let m := mkMessage who text now counter mtype meta in
  let msgs := deque_append (maxlen cl) (messages cl) m in
  let st := update_stats who m msgs (stats cl) in
  let '(subs, h) := notify_subscribers m (subscribers cl) (heap cl) in
  ({| maxlen := maxlen cl; messages := msgs; message_counter := counter;
      subscribers := subs; response_times := rt; stats := st;
      heap := h; next_addr := next_addr cl |}, m).

(** [ChatLog.subscribe]: a new queue object, appended to the subscribers. *)
Definition subscribe (cl : t) : t * nat :=
  let a := next_addr cl in
  ({| maxlen := maxlen cl; messages := messages cl;
      message_counter := message_counter cl;
      subscribers := subscribers cl ++ [a];
      response_times := response_times cl; stats := stats cl;
      heap := <[a := mkQueue [] 0 false]> (heap cl);
      next_addr := S a |}, a).

(** [list.remove]: the first occurrence. *)
Fixpoint remove_first (a : nat) (l : list nat) : list nat :=
  match l with
  | [] => []
  | x :: l' => if bool_decide (x = a) then l' else x :: remove_first a l'
  end.

(** [ChatLog.unsubscribe] *)
Definition unsubscribe (a : nat) (cl : t) : t :=
  if bool_decide (a ∈ subscribers cl) then
    {| maxlen := maxlen cl; messages := messages cl;
       message_counter := message_counter cl;
       subscribers := remove_first a (subscribers cl);
       response_times := response_times cl; stats := stats cl;
       heap := heap cl; next_addr := next_addr cl |}
  else cl.

(** A consumer's [queue.get()] that finds an item. *)
Definition queue_get (a : nat) (cl : t) : t * option Message :=
  match heap cl !! a with
  | Some q =>
      match items q !! taken q with
      | Some m =>
          ({| maxlen := maxlen cl; messages := messages cl;
              message_counter := message_counter cl;
              subscribers := subscribers cl;
              response_times := response_times cl; stats := stats cl;
              heap := <[a := mkQueue (items q) (S (taken q)) (closed q)]>
                        (heap cl);
              next_addr := next_addr cl |}, Some m)
      | None => (cl, None)
      end
  | None => (cl, None)
  end.

(** [ChatLog.get_recent_messages] *)
Definition get_recent_messages (count : nat) (cl : t) : list Message :=
  drop (length (messages cl) - count) (messages cl).

(** The calls a session makes on one chat log, in the order the event loop
    runs them ([add_message] holds the lock from the counter increment to
    the end of the fan-out and does not suspend in between). *)
Inductive Op :=
| OpAdd (who text mtype : string) (meta : list (string * string))
        (now_rt now : Q)
| OpSubscribe
| OpUnsubscribe (a : nat)
| OpGet (a : nat)
| OpStartTimer (who : string) (now : Q).

(** One call; the second component is the message the call created. *)
Definition step (cl : t) (o : Op) : t * list Message :=
  match o with
  | OpAdd who text mtype meta now_rt now =>
      let '(cl', m) := add_message who text mtype meta now_rt now cl in
      (cl', [m])
  | OpSubscribe => (fst (subscribe cl), [])
  | OpUnsubscribe a => (unsubscribe a cl, [])
  | OpGet a => (fst (queue_get a cl), [])
  | OpStartTimer who now => (start_response_timer who now cl, [])
  end.

(** A sequence of calls; the second component lists the messages created,
    in order. *)
Fixpoint run (cl : t) (ops : list Op) : t * list Message :=
  match ops with
  | [] => (cl, [])
  | o :: ops' =>
      let '(cl1, ms1) := step cl o in
      let '(cl2, ms2) := run cl1 ops' in
      (cl2, ms1 ++ ms2)
  end.

Definition queue_items (a : nat) (cl : t) : list Message :=
  match heap cl !! a with
  | Some q => items q
  | None => []
  end.

Definition is_unsubscribe_of (a : nat) (o : Op) : bool :=
  match o with
  | OpUnsubscribe b => bool_decide (a = b)
  | _ => false
  end.

End ChatLog.


(** ** Python string operations used by the bots *)
Module PyStr.

Definition is_upper (c : ascii) : bool :=
  let n := nat_of_ascii c in (65 <=? n) && (n <=? 90).

Definition lower_ascii (c : ascii) : ascii :=
  if is_upper c then ascii_of_nat (nat_of_ascii c + 32) else c.

(** [s.lower()] *)
Fixpoint lower (s : string) : string :=
  match s with
  | EmptyString => EmptyString
  | String c s' => String (lower_ascii c) (lower s')
  end.

(** [needle in hay] *)
Fixpoint contains (needle hay : string) : bool :=
  String.prefix needle hay ||
  match hay with
  | EmptyString => false
  | String _ hay' => contains needle hay'
  end.

(** Whitespace as [str.strip()] and [str.split()] see it. *)
Definition is_space (c : ascii) : bool :=
  let n := nat_of_ascii c in
  ((9 <=? n) && (n <=? 13)) || ((28 <=? n) && (n <=? 32)).

(** Truth value of [s and s.strip()]: some character is not whitespace. *)
Fixpoint has_text (s : string) : bool :=
  match s with
  | EmptyString => false
  | String c s' => negb (is_space c) || has_text s'
  end.

(** [s.split()]: the maximal runs of non-whitespace characters.  [cur] is
    the run being read, reversed. *)
Fixpoint split_from (cur : list ascii) (s : string) : list string :=
  match s with
  | EmptyString =>
      match cur with
      | [] => []
      | _ => [String.string_of_list_ascii (rev cur)]
      end
  | String c s' =>
      if is_space c then
        match cur with
        | [] => split_from [] s'
        | _ => String.string_of_list_ascii (rev cur) :: split_from [] s'
        end
      else split_from (c :: cur) s'
  end.

Definition split (s : string) : list string := split_from [] s.

(** [s.rstrip(c)] for a single character [c]. *)
Fixpoint rstrip_char (c : ascii) (s : string) : string :=
  match s with
  | EmptyString => EmptyString
  | String a s' =>
      match rstrip_char c s' with
      | EmptyString => if Ascii.eqb a c then EmptyString
                       else String a EmptyString
      | r => String a r
      end
  end.

(** [s.replace(a, b)] for single characters. *)
Fixpoint replace_char (a b : ascii) (s : string) : string :=
  match s with
  | EmptyString => EmptyString
  | String c s' =>
      String (if Ascii.eqb c a then b else c) (replace_char a b s')
  end.

(** Word characters of the regular-expression class [\w]. *)
Definition word_char (c : ascii) : bool :=
  let n := nat_of_ascii c in
  ((48 <=? n) && (n <=? 57)) || ((65 <=? n) && (n <=? 90)) ||
  ((97 <=? n) && (n <=? 122)) || (n =? 95).

Definition head_word (s : string) : bool :=
  match s with
  | String c _ => word_char c
  | EmptyString => false
  end.

(** Read the literal [v] off the front of [s]; the result says whether the
    last character read ([last] when [v] is empty) is a word character, and
    what follows. *)
Fixpoint consume (last : bool) (v s : string) : option (bool * string) :=
  match v with
  | EmptyString => Some (last, s)
  | String a v' =>
      match s with
      | String b s' =>
          if Ascii.eqb a b then consume (word_char b) v' s' else None
      | EmptyString => None
      end
  end.

(** [\b v \b] matches at the front of [s], where [prev] says whether the
    character before [s] is a word character. *)
Definition match_at (prev : bool) (v s : string) : bool :=
  xorb prev (head_word s) &&
  match consume prev v s with
  | Some (last, rest) => xorb last (head_word rest)
  | None => false
  end.

Fixpoint search_word_from (prev : bool) (v s : string) : bool :=
  match_at prev v s ||
  match s with
  | EmptyString => false
  | String c s' => search_word_from (word_char c) v s'
  end.

(** [re.search(rf"\b{re.escape(v)}\b", s)] finds a match. *)
Definition search_word (v s : string) : bool := search_word_from false v s.

(** [l[:n]] *)
Definition first_n {A} (n : nat) (l : list A) : list A := take n l.

(** [l[-n:]] for [n > 0]. *)
Definition last_n {A} (n : nat) (l : list A) : list A :=
  drop (length l - n) l.

End PyStr.

(** ** The autonomous bot ([app/bot_client.py]) *)
Module Bot.

(** [BotConfig] dataclass. *)
Record BotConfig := mkBotConfig {
  name : string;
  model : string;
  provider : string;
  personality : string;
  stance : string;
  temperature : Q;
  max_tokens : Z;
  timeout : Z;
  check_interval : Z;
  min_cooldown : Z;
  max_cooldown : Z;
  silence_tolerance : Z
}.

(** The [stats] dictionary of a bot. *)
Record Stats := mkStats {
  responses_generated : nat;
  autonomous_responses : nat;
  average_response_time : Q;
  total_response_time : Q;
  errors : nat;
  triggers_detected : nat;
  passes_made : nat;
  silence_breaks : nat;
  conversation_starters : nat
}.

(** The fields of a [BotClient] that the monitoring loop reads and writes. *)
Record t := mkBot {
  config : BotConfig;
  conversation_history : list (string * string);   (* role, content *)
  response_count : nat;
  is_monitoring : bool;
  monitoring_task : bool;            (* a monitoring task has been created *)
  message_queue : option nat;        (* address of the subscribed queue *)
  has_chat_log : bool;               (* [self.chat_log] is set *)
  topic : string;
  last_response_time : Q;
  total_responses : nat;
  current_cooldown : Q;
  burning_questions : list string;
  conversation_energy : Q;
  last_silence_break : Q;
  response_urgency : Q;
  missed_opportunities : Z;
  stats : Stats
}.

Definition empty_stats : Stats := mkStats 0 0 0 0 0 0 0 0 0.

(** [BotClient.__init__].  [burning] is the outcome of the
    [random.sample] in [_generate_burning_questions].  The provider name
    must be one of the two supported ones, otherwise [ValueError]. *)
Definition init (name model provider personality stance : string)
  (temperature : Q) (max_tokens : Z) (burning : list string)
  : string + t :=
  let cfg := mkBotConfig name model provider personality stance
               temperature max_tokens 15 2 5 12 8 in
  if bool_decide (PyStr.lower provider = "openai") ||
     bool_decide (PyStr.lower provider = "anthropic")
  then inr {| config := cfg; conversation_history := []; response_count := 0;
              is_monitoring := false; monitoring_task := false;
              message_queue := None; has_chat_log := false; topic := "";
              last_response_time := 0; total_responses := 0;
              current_cooldown := inject_Z (min_cooldown cfg);
              burning_questions := burning;
              conversation_energy := 1; last_silence_break := 0;
              response_urgency := 0; missed_opportunities := 0;
              stats := empty_stats |}
  else inl ("Unsupported AI provider: " +:+ provider).

(** Field updates. *)
Definition with_stats (s : Stats) (b : t) : t :=
  mkBot (config b) (conversation_history b) (response_count b)
    (is_monitoring b) (monitoring_task b) (message_queue b) (has_chat_log b)
    (topic b) (last_response_time b) (total_responses b) (current_cooldown b)
    (burning_questions b) (conversation_energy b) (last_silence_break b)
    (response_urgency b) (missed_opportunities b) s.

Definition with_pressure (urgency : Q) (missed : Z) (b : t) : t :=
  mkBot (config b) (conversation_history b) (response_count b)
    (is_monitoring b) (monitoring_task b) (message_queue b) (has_chat_log b)
    (topic b) (last_response_time b) (total_responses b) (current_cooldown b)
    (burning_questions b) (conversation_energy b) (last_silence_break b)
    urgency missed (stats b).

Definition with_action (last : Q) (total : nat) (cooldown energy : Q)
  (b : t) : t :=
  mkBot (config b) (conversation_history b) (response_count b)
    (is_monitoring b) (monitoring_task b) (message_queue b) (has_chat_log b)
    (topic b) last total cooldown
    (burning_questions b) energy (last_silence_break b)
    (response_urgency b) (missed_opportunities b) (stats b).

Definition with_monitoring (on task : bool) (queue : option nat)
  (log : bool) (topic' : string) (b : t) : t :=
  mkBot (config b) (conversation_history b) (response_count b)
    on task queue log topic' (last_response_time b) (total_responses b)
    (current_cooldown b) (burning_questions b) (conversation_energy b)
    (last_silence_break b) (response_urgency b) (missed_opportunities b)
    (stats b).

Definition with_conversation (history : list (string * string))
  (count : nat) (b : t) : t :=
  mkBot (config b) history count
    (is_monitoring b) (monitoring_task b) (message_queue b) (has_chat_log b)
    (topic b) (last_response_time b) (total_responses b) (current_cooldown b)
    (burning_questions b) (conversation_energy b) (last_silence_break b)
    (response_urgency b) (missed_opportunities b) (stats b).

(** The seven trigger signals. *)
Record Triggers := mkTriggers {
  direct_mention : bool;
  stance_challenged : bool;
  question_in_domain : bool;
  topic_shift : bool;
  silence_too_long : bool;
  expertise_needed : bool;
  emotional_trigger : bool
}.

Definition trigger_values (tr : Triggers) : list bool :=
  [direct_mention tr; stance_challenged tr; question_in_domain tr;
   topic_shift tr; silence_too_long tr; expertise_needed tr;
   emotional_trigger tr].

(** The variants of the bot's name, and the broadcast words, that count as
    a direct mention. *)
Definition name_variants (b : t) : list string :=
  let n := PyStr.lower (name (config b)) in
  [n; PyStr.rstrip_char "s"%char n; n +:+ ":";
   PyStr.replace_char " "%char "_"%char n; PyStr.replace_char "_"%char " "%char n;
   "everyone"; "all"; "thoughts"; "anyone"].

Definition challenge_words : list string :=
  ["wrong"; "disagree"; "against"; "oppose"; "bad idea"; "fails"; "problem";
   "no"; "but"; "however"].

Definition support_words : list string :=
  ["agree"; "support"; "favor"; "good idea"; "beneficial"; "works";
   "success"; "yes"; "exactly"; "true"].

Definition question_indicators : list string :=
  ["?"; "what"; "how"; "why"; "when"; "where"; "clarify"; "explain";
   "think"; "opinion"].

Definition expertise_words : list (string * list string) :=
  [("philosophical", ["meaning"; "purpose"; "ethics"; "moral"; "should";
                      "ought"; "values"; "principle"]);
   ("analytical", ["data"; "evidence"; "study"; "research"; "statistics";
                   "proof"; "numbers"; "facts"]);
   ("practical", ["implement"; "real world"; "actually"; "practice"; "work";
                  "application"]);
   ("critical", ["assume"; "problem"; "issue"; "concern"; "risk"; "wrong";
                 "flaw"]);
   ("passionate", ["amazing"; "incredible"; "urgent"; "important";
                   "critical"; "essential"]);
   ("diplomatic", ["balance"; "compromise"; "middle"; "together";
                   "common"])].

Definition any_in (words : list string) (text : string) : bool :=
  existsb (fun w => PyStr.contains w text) words.

(** The loop over the expertise table: it goes through the domains in
    order and stops at the first domain that is named in the personality
    and has one of its words in the message. *)
Definition expertise_match (persona text : string) : bool :=
  existsb (fun dw => PyStr.contains (fst dw) persona && any_in (snd dw) text)
          expertise_words.

(** The direct-mention test of [_analyze_response_triggers]: one of the
    name variants occurs as a whole word, or else the message asks
    "what do you think" and the bot's stance is not neutral. *)
Definition mentions (b : t) (content_lower : string) : bool :=
  let mention_found :=
    existsb (fun v => PyStr.search_word v content_lower) (name_variants b) in
  if mention_found then true
  else PyStr.contains "what do you think" content_lower &&
       negb (bool_decide (stance (config b) = "neutral")).

(** [BotClient._analyze_response_triggers]; [now] is the [time.time()]
    of the silence check. *)
Definition analyze_response_triggers (b : t) (message : ChatLog.Message)
  (recent_text : string) (full_history : list ChatLog.Message) (now : Q)
  : Triggers :=
  let content_lower := PyStr.lower (ChatLog.content message) in
  let recent_lower := PyStr.lower recent_text in
  let st := stance (config b) in
  let mention := mentions b content_lower in
  let challenged :=
    if bool_decide (st = "pro") then any_in challenge_words recent_lower
    else if bool_decide (st = "con") then any_in support_words recent_lower
    else false in
  let question :=
    if bool_decide (st = "pro") then false
    else if bool_decide (st = "con") then false
    else if bool_decide (st = "neutral")
         then any_in question_indicators content_lower
    else false in
  let silence :=
    match last full_history with
    | Some m => Qltb 10 (now - ChatLog.timestamp m)
    | None => false
    end in
  let expertise :=
    expertise_match (PyStr.lower (personality (config b))) content_lower in
  mkTriggers mention challenged question false silence expertise false.

Definition contains_any (subs : list string) (text : string) : bool :=
  existsb (fun s => PyStr.contains s text) subs.

(** [BotClient._get_personality_multiplier] *)
Definition get_personality_multiplier (b : t) (tr : Triggers) : Q :=
  let p := PyStr.lower (personality (config b)) in
  (if contains_any ["aggressive"; "assertive"] p then 1.4
  else if contains_any ["passionate"; "excited"] p then 1.5
  else if contains_any ["thoughtful"; "philosophical"] p then
    if question_in_domain tr then 1.6 else 1.0
  else if contains_any ["analytical"; "data-driven"] p then
    if expertise_needed tr then 1.5 else 1.1
  else if contains_any ["critical"] p then
    if stance_challenged tr then 1.4 else 1.2
  else if contains_any ["balanced"; "diplomatic"] p then
    if stance_challenged tr then 1.3 else 1.1
  else 1.0)%Q.

Definition count_true (l : list bool) : nat :=
  length (filter (fun x => x = true) l).

Definition count_sender (who : string) (l : list ChatLog.Message) : nat :=
  length (filter (fun m => ChatLog.sender m = who) l).

(** The probability that [_should_respond_autonomously] compares the
    random draw with, when there is no direct mention. *)
Definition response_probability (b : t) (tr : Triggers)
  (content_lower : string) (recent_context : list ChatLog.Message) : Q :=
  (let p0 : Q := 0.80 in
  let p1 := if stance_challenged tr then p0 + 0.8 else p0 in
  let p2 := if question_in_domain tr then p1 + 0.7 else p1 in
  let p3 := if topic_shift tr then p2 + 0.5 else p2 in
  let p4 := if silence_too_long tr then p3 + 0.6 else p3 in
  let p5 := if expertise_needed tr then p4 + 0.6 else p4 in
  let burning :=
    existsb (fun question =>
               any_in (PyStr.first_n 3 (PyStr.split (PyStr.lower question)))
                      content_lower)
            (burning_questions b) in
  let p6 := if burning then p5 + 0.5 else p5 in
  let mine := count_sender (name (config b)) recent_context in
  let p7 := if (mine =? 0)%nat then p6 + 0.15
            else if (3 <=? mine)%nat then p6 * 0.7 else p6 in
  let p8 := p7 * get_personality_multiplier b tr in
  let p9 := p8 + conversation_energy b * 0.2 in
  let p10 := p9 + response_urgency b * 0.3 in
  let p11 := if (2 <? missed_opportunities b)%Z then p10 + 0.2 else p10 in
  Qmin p11 0.95)%Q.

Definition add_triggers (n : nat) (s : Stats) : Stats :=
  mkStats (responses_generated s) (autonomous_responses s)
    (average_response_time s) (total_response_time s) (errors s)
    (triggers_detected s + n) (passes_made s) (silence_breaks s)
    (conversation_starters s).

Definition add_pass (s : Stats) : Stats :=
  mkStats (responses_generated s) (autonomous_responses s)
    (average_response_time s) (total_response_time s) (errors s)
    (triggers_detected s) (S (passes_made s)) (silence_breaks s)
    (conversation_starters s).

Definition add_autonomous (s : Stats) : Stats :=
  mkStats (responses_generated s) (S (autonomous_responses s))
    (average_response_time s) (total_response_time s) (errors s)
    (triggers_detected s) (passes_made s) (silence_breaks s)
    (conversation_starters s).

Definition add_silence_break (s : Stats) : Stats :=
  mkStats (responses_generated s) (autonomous_responses s)
    (average_response_time s) (total_response_time s) (errors s)
    (triggers_detected s) (passes_made s) (S (silence_breaks s))
    (conversation_starters s).

Definition add_conversation_starter (s : Stats) : Stats :=
  mkStats (responses_generated s) (autonomous_responses s)
    (average_response_time s) (total_response_time s) (errors s)
    (triggers_detected s) (passes_made s) (silence_breaks s)
    (S (conversation_starters s)).

(** [BotClient._update_stats] *)
Definition update_stats (response_time : Q) (success : bool) (s : Stats)
  : Stats :=
  if success then
    let n := S (responses_generated s) in
    let total := (total_response_time s + response_time)%Q in
    mkStats n (autonomous_responses s)
      (total / inject_Z (Z.of_nat n))%Q total (errors s)
      (triggers_detected s) (passes_made s) (silence_breaks s)
      (conversation_starters s)
  else
    mkStats (responses_generated s) (autonomous_responses s)
      (average_response_time s) (total_response_time s) (S (errors s))
      (triggers_detected s) (passes_made s) (silence_breaks s)
      (conversation_starters s).

(** [BotClient._should_respond_autonomously]; [now] is the clock reading
    of the trigger analysis, [draw] the [random.random()] sample. *)
Definition should_respond_autonomously (new_message : ChatLog.Message)
  (full_history : list ChatLog.Message) (now draw : Q) (b : t) : bool * t :=
  let content_lower := PyStr.lower (ChatLog.content new_message) in
  let recent_context :=
    if (10 <=? length full_history)%nat then PyStr.last_n 10 full_history
    else full_history in
  let recent_text :=
    String.concat " " (map ChatLog.content (PyStr.last_n 5 recent_context)) in
  let tr :=
    analyze_response_triggers b new_message recent_text full_history now in
  let b1 := with_stats (add_triggers (count_true (trigger_values tr))
                                     (stats b)) b in
  if direct_mention tr then (true, b1)
  else
    let final_probability :=
      response_probability b1 tr content_lower recent_context in
    if Qltb draw final_probability then (true, b1)
    else (false,
          with_pressure (response_urgency b1) (missed_opportunities b1 + 1)
            (with_stats (add_pass (stats b1)) b1)).

(** What the provider call of one generation attempt does. *)
Inductive Generation :=
| Generated (text : string)
| GenerationError (err : string).

(** The clock readings of one [_generate_autonomous_response] call, in the
    order the code makes them: at entry, inside [add_message] (response
    timer, timestamp), for [last_response_time], and for the statistics
    (on either path). *)
Record GenClock := mkGenClock {
  t_start : Q;
  t_timer : Q;
  t_post : Q;
  t_acted : Q;
  t_stats : Q
}.

(** The cooldown recomputed after a successful action, as a function of
    the total number of actions. *)
Definition recompute_cooldown (cfg : BotConfig) (total : nat) : Q :=
  let lo := inject_Z (min_cooldown cfg) in
  Qmin (Qmax lo (lo + inject_Z (Z.of_nat total) * 0.5))
       (inject_Z (max_cooldown cfg)).

(** How a generation attempt ended. *)
Inductive Attempt :=
| Posted (m : ChatLog.Message)
| EmptyResponse
| Failed (err : string).

(** [BotClient._generate_autonomous_response].  The prompt passed to the
    provider is built from the history by string formatting only; the
    provider's answer is the argument [gen]. *)
Definition generate_autonomous_response (gen : Generation) (clk : GenClock)
  (b : t) (cl : ChatLog.t) : Attempt * t * ChatLog.t :=
  match gen with
  | Generated response =>
      if PyStr.has_text response then
        let '(cl', m) :=
          ChatLog.add_message (name (config b)) response "chat" []
            (t_timer clk) (t_post clk) cl in
        let total := S (total_responses b) in
        let b1 := with_stats (add_autonomous (stats b)) b in
        let b2 := with_pressure (Qmax 0 (response_urgency b1 - 0.3))
                    (Z.max 0 (missed_opportunities b1 - 1)) b1 in
        let b3 := with_action (t_acted clk) total
                    (recompute_cooldown (config b) total)
                    (Qmin 1.5 (conversation_energy b2 + 0.1)) b2 in
        let b4 := with_stats
                    (update_stats (t_stats clk - t_start clk) true (stats b3))
                    b3 in
        (Posted m, b4, cl')
      else
        (EmptyResponse, with_stats (add_pass (stats b)) b, cl)
  | GenerationError err =>
      (Failed err,
       with_stats (update_stats (t_stats clk - t_start clk) false (stats b)) b,
       cl)
  end.

(** The cooldown gate shared by the reactive and the proactive path. *)
Definition in_cooldown (now : Q) (b : t) : bool :=
  Qltb (now - last_response_time b) (current_cooldown b).

Definition miss_opportunity (b : t) : t :=
  with_pressure (response_urgency b + 0.1) (missed_opportunities b + 1) b.

(** Everything one monitoring cycle takes from its environment. *)
Record CycleEnv := mkCycleEnv {
  now_gate : Q;          (* clock at the cooldown gate *)
  now_scan : Q;          (* clock of the silence checks *)
  draw : Q;              (* random.random() of the decision *)
  threshold : Q;         (* random.uniform(7, 10) *)
  now_idle : Q;          (* clock of the conversation-starter check *)
  draw_starter : Q;      (* random.random() of the conversation starter *)
  gen : Generation;
  clk : GenClock
}.

(** What a monitoring cycle did. *)
Inductive Outcome :=
| NotMonitoring
| OwnMessage
| Gated
| Declined
| Quiet
| Attempted (a : Attempt).

(** [BotClient._process_new_message] *)
Definition process_new_message (message : ChatLog.Message) (e : CycleEnv)
  (b : t) (cl : ChatLog.t) : Outcome * t * ChatLog.t :=
  let full_history := ChatLog.messages cl in
  if in_cooldown (now_gate e) b then (Gated, miss_opportunity b, cl)
  else
    let '(go, b1) :=
      should_respond_autonomously message full_history (now_scan e) (draw e) b
    in
    if go then
      let '(a, b2, cl2) := generate_autonomous_response (gen e) (clk e) b1 cl in
      (Attempted a, b2, cl2)
    else (Declined, b1, cl).

(** [BotClient._check_spontaneous_contribution].  The first guard reads
    [self.chat_log] as set or not set.  Python takes the truth value of the
    chat log, which is false while it stores no message: on such a log the
    code returns at once, where this function can still count a missed
    opportunity; neither makes an attempt. *)
Definition check_spontaneous_contribution (e : CycleEnv) (b : t)
  (cl : ChatLog.t) : Outcome * t * ChatLog.t :=
  if negb (has_chat_log b) then (Quiet, b, cl)
  else if in_cooldown (now_gate e) b then (Gated, miss_opportunity b, cl)
  else
    let full_history := ChatLog.messages cl in
    match last full_history with
    | None => (Quiet, b, cl)
    | Some lastm =>
        let silence_duration := (now_scan e - ChatLog.timestamp lastm)%Q in
        if Qltb (threshold e) silence_duration then
          let recent_messages :=
            if (5 <=? length full_history)%nat
            then PyStr.last_n 5 full_history else full_history in
          if (count_sender (name (config b)) recent_messages =? 0)%nat then
            if Qltb (draw e) 0.85 then
              let '(a, b1, cl1) :=
                generate_autonomous_response (gen e) (clk e) b cl in
              (Attempted a,
               with_stats (add_silence_break (stats b1)) b1, cl1)
            else (Quiet, b, cl)
          else (Quiet, b, cl)
        else if (3 <? length full_history)%nat &&
                Qltb 15 (now_idle e - last_response_time b) &&
                Qltb (draw_starter e) 0.3 then
          let '(a, b1, cl1) :=
            generate_autonomous_response (gen e) (clk e) b cl in
          (Attempted a,
           with_stats (add_conversation_starter (stats b1)) b1, cl1)
        else (Quiet, b, cl)
    end.

(** One pass through the body of [BotClient._autonomous_monitor_loop]:
    the wait returns the next item of the bot's queue when there is one
    and times out otherwise.  Apart from the provider call, which
    [_generate_autonomous_response] guards itself, no operation of the body
    can fail, so the handler around the body is not entered.  The loop is
    a single task, so the passes of one bot follow one another; what the
    other participants write while a pass waits for the provider is taken
    as written between passes. *)
Definition monitor_cycle (e : CycleEnv) (b : t) (cl : ChatLog.t)
  : Outcome * t * ChatLog.t :=
  match message_queue b with
  | None => check_spontaneous_contribution e b cl
  | Some q =>
      match ChatLog.queue_get q cl with
      | (cl1, Some message) =>
          if bool_decide (ChatLog.sender message = name (config b))
          then (OwnMessage, b, cl1)
          else process_new_message message e b cl1
      | (cl1, None) => check_spontaneous_contribution e b cl1
      end
  end.

(** [BotClient._autonomous_monitor_loop] over the environments of its
    successive cycles: the loop runs a cycle while [is_monitoring] holds
    and leaves when it does not.  The result lists what each cycle did. *)
Fixpoint autonomous_monitor_loop (envs : list CycleEnv) (b : t)
  (cl : ChatLog.t) : list Outcome * t * ChatLog.t :=
  match envs with
  | [] => ([], b, cl)
  | e :: envs' =>
      if is_monitoring b then
        let '(o, b1, cl1) := monitor_cycle e b cl in
        let '(os, b2, cl2) := autonomous_monitor_loop envs' b1 cl1 in
        (o :: os, b2, cl2)
      else ([], b, cl)
  end.

(** [BotClient.start_autonomous_monitoring] *)
Definition start_autonomous_monitoring (topic' : string) (b : t)
  (cl : ChatLog.t) : t * ChatLog.t :=
  let '(cl', q) := ChatLog.subscribe cl in
  (with_monitoring true true (Some q) true topic' b, cl').

(** [BotClient.stop_monitoring]: the flag is cleared, the task cancelled
    and awaited, the queue unsubscribed.  The guard of the unsubscription
    reads [self.chat_log] as set or not set; [BotLifecycle.stop_monitoring]
    evaluates it as Python does, and differs on a chat log that stores no
    message. *)
Definition stop_monitoring (b : t) (cl : ChatLog.t) : t * ChatLog.t :=
  let b' := with_monitoring false (monitoring_task b) (message_queue b)
              (has_chat_log b) (topic b) b in
  match message_queue b, has_chat_log b with
  | Some q, true => (b', ChatLog.unsubscribe q cl)
  | _, _ => (b', cl)
  end.

(** [BotClient.reset_conversation] *)
Definition reset_conversation (b : t) : t :=
  let b1 := with_conversation [] 0 b in
  mkBot (config b1) (conversation_history b1) (response_count b1)
    (is_monitoring b1) (monitoring_task b1) (message_queue b1)
    (has_chat_log b1) (topic b1) (last_response_time b1)
    (total_responses b1) (current_cooldown b1) (burning_questions b1)
    1.0 (last_silence_break b1) 0.0 0 (stats b1).

(** [BotClient.update_personality]; [burning] is the new sample of
    burning questions. *)
Definition update_personality (persona : string) (stance' : option string)
  (burning : list string) (b : t) : t :=
  let c := config b in
  let st := match stance' with
            | Some s => if bool_decide (s = "") then stance c else s
            | None => stance c
            end in
  let c' := mkBotConfig (name c) (model c) (provider c) persona st
              (temperature c) (max_tokens c) (timeout c) (check_interval c)
              (min_cooldown c) (max_cooldown c) (silence_tolerance c) in
  mkBot c' (conversation_history b) (response_count b)
    (is_monitoring b) (monitoring_task b) (message_queue b) (has_chat_log b)
    (topic b) (last_response_time b) (total_responses b) (current_cooldown b)
    burning (conversation_energy b) (last_silence_break b)
    (response_urgency b) (missed_opportunities b) (stats b).

(** [BotClient.receive_message] *)
Definition receive_message (m : ChatLog.Message) (b : t) : t :=
  if bool_decide (ChatLog.sender m = name (config b)) then b
  else
    let h := conversation_history b ++
             [("user", (ChatLog.sender m +:+ ": " +:+ ChatLog.content m))] in
    let h' := if (20 <? length h)%nat then PyStr.last_n 15 h else h in
    with_conversation h' (response_count b) b.

(** [BotClient.get_response], the structured-turn path: the answer (the
    provider's text, or the fallback chosen by [random.choice] when the
    provider fails) is returned to the moderator, which posts it. *)
Definition get_response (gen : Generation) (fallback : string)
  (t0 t1 : Q) (b : t) : string * t :=
  match gen with
  | Generated response =>
      let b1 := with_stats (update_stats (t1 - t0) true (stats b)) b in
      (response,
       with_conversation (conversation_history b1 ++ [("assistant", response)])
         (S (response_count b1)) b1)
  | GenerationError _ =>
      (fallback, with_stats (update_stats (t1 - t0) false (stats b)) b)
  end.

(** Everything that happens to one bot and the chat log it shares with
    the other participants. *)
Inductive Event :=
| EvStart (topic' : string)
| EvCycle (e : CycleEnv)
| EvStop
| EvReset
| EvPersonality (persona : string) (stance' : option string)
                (burning : list string)
| EvReceive (m : ChatLog.Message)
| EvStructured (gen : Generation) (fallback : string) (t0 t1 : Q)
| EvLog (o : ChatLog.Op).

(** One event; the outcome is reported for monitoring cycles. *)
Definition step (b : t) (cl : ChatLog.t) (ev : Event)
  : option Outcome * t * ChatLog.t :=
  match ev with
  | EvStart topic' =>
      let '(b', cl') := start_autonomous_monitoring topic' b cl in
      (None, b', cl')
  | EvCycle e =>
      if is_monitoring b then
        let '(o, b', cl') := monitor_cycle e b cl in (Some o, b', cl')
      else (Some NotMonitoring, b, cl)
  | EvStop => let '(b', cl') := stop_monitoring b cl in (None, b', cl')
  | EvReset => (None, reset_conversation b, cl)
  | EvPersonality p s q => (None, update_personality p s q b, cl)
  | EvReceive m => (None, receive_message m b, cl)
  | EvStructured g f t0 t1 => (None, snd (get_response g f t0 t1 b), cl)
  | EvLog o => (None, b, fst (ChatLog.step cl o))
  end.

(** A post of the bot: the message, and the cooldown in force just before
    and just after the action. *)
Record Post := mkPost {
  post_message : ChatLog.Message;
  cooldown_before : Q;
  cooldown_after : Q
}.

Definition post_of (o : option Outcome) (b b' : t) : list Post :=
  match o with
  | Some (Attempted (Posted m)) =>
      [mkPost m (current_cooldown b) (current_cooldown b')]
  | _ => []
  end.

(** A sequence of events; the first component lists the bot's autonomous
    posts in order. *)
Fixpoint run (b : t) (cl : ChatLog.t) (evs : list Event)
  : list Post * t * ChatLog.t :=
  match evs with
  | [] => ([], b, cl)
  | ev :: evs' =>
      let '(o, b1, cl1) := step b cl ev in
      let '(ps, b2, cl2) := run b1 cl1 evs' in
      (post_of o b b1 ++ ps, b2, cl2)
  end.

(** The clock readings of a cycle, in program order. *)
Definition cycle_readings (e : CycleEnv) : list Q :=
  [now_gate e; now_scan e; now_idle e; t_start (clk e); t_timer (clk e);
   t_post (clk e); t_acted (clk e); t_stats (clk e)].

Definition event_readings (ev : Event) : list Q :=
  match ev with
  | EvCycle e => cycle_readings e
  | _ => []
  end.

(** A generation attempt fails when the provider raises or returns a text
    that is empty once stripped. *)
Definition generation_failed (g : Generation) : bool :=
  match g with
  | GenerationError _ => true
  | Generated text => negb (PyStr.has_text text)
  end.

(** The failure is counted: an error for an exception, a pass for an
    empty text. *)
Definition failure_recorded (g : Generation) (s s' : Stats) : Prop :=
  match g with
  | GenerationError _ =>
      errors s' = S (errors s) /\ passes_made s' = passes_made s
  | Generated _ =>
      passes_made s' = S (passes_made s) /\ errors s' = errors s
  end.

(** The cooldown state is what it was. *)
Definition cooldown_state_kept (b b' : t) : Prop :=
  last_response_time b' = last_response_time b /\
  current_cooldown b' = current_cooldown b /\
  response_urgency b' = response_urgency b /\
  missed_opportunities b' = missed_opportunities b /\
  total_responses b' = total_responses b /\
  conversation_energy b' = conversation_energy b.

Definition readings (evs : list Event) : list Q :=
  concat (map event_readings evs).


End Bot.

(** ** The voting system ([app/voting.py]) *)
Module Voting.

(** [Vote] dataclass. *)
Record Vote := mkVote {
  voter_id : string;
  candidate : string;
  justification : option string;
  timestamp : Q;
  anonymous : bool
}.

(** [VotingResults] dataclass.  The dictionaries are kept in insertion
    order, which is the order Python iterates them in. *)
Record VotingResults := mkVotingResults {
  winner : option string;
  vote_counts : list (string * nat);
  total_votes : nat;
  votes_by_voter : list (string * Vote);
  voting_duration : Q;
  participation_rate : Q
}.

Record t := mkVotingSystem {
  enabled : bool;
  default_duration : Q;
  allow_participant_voting : bool;
  require_justification : bool;
  anonymous_votes : bool;
  is_active : bool;
  candidates : list string;
  eligible_voters : list string;
  votes : list (string * Vote);                (* dict, insertion order *)
  start_time : option Q;
  end_time : option Q;
  vote_history : list (Q * list string * VotingResults)
}.

(** [VotingSystem.__init__] from the values the configuration gives. *)
Definition init (enabled : bool) (duration : Q)
  (allow_participant_voting require_justification anonymous_votes : bool)
  : t :=
  mkVotingSystem enabled duration allow_participant_voting
    require_justification anonymous_votes false [] [] [] None None [].

(** [d[k]] *)
Fixpoint dict_get {V} (k : string) (d : list (string * V)) : option V :=
  match d with
  | [] => None
  | (k', v) :: d' => if bool_decide (k' = k) then Some v else dict_get k d'
  end.

(** [d[k] = v]: an existing key keeps its place, a new one goes last. *)
Fixpoint dict_set {V} (k : string) (v : V) (d : list (string * V))
  : list (string * V) :=
  match d with
  | [] => [(k, v)]
  | (k', v') :: d' =>
      if bool_decide (k' = k) then (k, v) :: d'
      else (k', v') :: dict_set k v d'
  end.

(** [Counter(xs)]: the counts, keyed in order of first occurrence. *)
Definition counter_add (counts : list (string * nat)) (x : string)
  : list (string * nat) :=
  dict_set x (S (default 0 (dict_get x counts))) counts.

Definition counter (xs : list string) : list (string * nat) :=
  foldl counter_add [] xs.

(** [VotingSystem.start_voting]; [duration or self.voting_duration]. *)
Definition start_voting (cands : list string) (duration : option Q)
  (now : Q) (s : t) : string + t :=
  if negb (enabled s) then inl "Voting system is disabled"
  else if is_active s then inl "Voting session already active"
  else
    let d := match duration with
             | Some d => if Qeq_bool d 0 then default_duration s else d
             | None => default_duration s
             end in
    inr (mkVotingSystem (enabled s) (default_duration s)
           (allow_participant_voting s) (require_justification s)
           (anonymous_votes s) true cands
           (if allow_participant_voting s then cands else [])
           [] (Some now) (Some (now + d)%Q) (vote_history s)).

(** [VotingSystem._is_eligible_voter] *)
Definition is_eligible_voter (voter : string) (s : t) : bool :=
  match eligible_voters s with
  | [] => true
  | _ => bool_decide (voter ∈ eligible_voters s)
  end.

Definition is_empty_text (j : option string) : bool :=
  match j with
  | Some text => bool_decide (text = "")
  | None => true
  end.

(** [VotingSystem.cast_vote]; [now] is read for the deadline check, [stamp]
    for the vote's default timestamp.  A [ValueError] leaves the system as
    it was. *)
Definition cast_vote (voter cand : string) (why : option string)
  (now stamp : Q) (s : t) : string + t :=
  if negb (is_active s) then inl "No active voting session"
  else if match end_time s with
          | Some e => Qltb e now
          | None => false
          end
  then inl "Voting period has ended"
  else if negb (is_eligible_voter voter s)
  then inl ("Voter " +:+ voter +:+ " is not eligible to vote")
  else if negb (bool_decide (cand ∈ candidates s))
  then inl ("Invalid candidate: " +:+ cand)
  else if bool_decide (voter = cand) && negb (allow_participant_voting s)
  then inl "Self-voting is not allowed"
  else if require_justification s && is_empty_text why
  then inl "Vote justification is required"
  else
    let vote := mkVote voter cand why stamp (anonymous_votes s) in
    inr (mkVotingSystem (enabled s) (default_duration s)
           (allow_participant_voting s) (require_justification s)
           (anonymous_votes s) (is_active s) (candidates s)
           (eligible_voters s) (dict_set voter vote (votes s))
           (start_time s) (end_time s) (vote_history s)).

(** [max(vote_counts.values())] *)
Definition max_votes (counts : list (string * nat)) : nat :=
  foldr Nat.max 0 (map snd counts).

(** The candidates whose count is the maximum, in dictionary order. *)
Definition winners_of (counts : list (string * nat)) : list string :=
  map fst (filter (fun p => snd p = max_votes counts) counts).

(** The winner that [end_voting] determines from the counts. *)
Definition winner_of (counts : list (string * nat)) : option string :=
  match counts with
  | [] => None
  | _ =>
      match winners_of counts with
      | [w] => Some w
      | ws => Some ("TIE: " +:+ String.concat ", " ws)
      end
  end.

(** [VotingSystem.end_voting] *)
Definition end_voting (now : Q) (s : t) : string + (t * VotingResults) :=
  if negb (is_active s) then inl "No active voting session"
  else
    let counts := counter (map (fun kv => candidate (snd kv)) (votes s)) in
    let total := length (votes s) in
    let rate :=
      match eligible_voters s with
      | [] => 0%Q
      | _ => (inject_Z (Z.of_nat total) /
              inject_Z (Z.of_nat (length (eligible_voters s))))%Q
      end in
    let results :=
      mkVotingResults (winner_of counts) counts total (votes s)
        (now - default 0%Q (start_time s))%Q rate in
    inr (mkVotingSystem (enabled s) (default_duration s)
           (allow_participant_voting s) (require_justification s)
           (anonymous_votes s) false (candidates s) (eligible_voters s)
           (votes s) (start_time s) (end_time s)
           (vote_history s ++ [(now, candidates s, results)]),
         results).

(** One [cast_vote] call of a session. *)
Record Ballot := mkBallot {
  ballot_voter : string;
  ballot_candidate : string;
  ballot_why : option string;
  ballot_now : Q;
  ballot_stamp : Q
}.

(** A sequence of [cast_vote] calls; the calls that raise leave the system
    unchanged.  The second component lists the ballots that were
    recorded. *)
Fixpoint cast_all (s : t) (bs : list Ballot) : t * list Ballot :=
  match bs with
  | [] => (s, [])
  | b :: bs' =>
      match cast_vote (ballot_voter b) (ballot_candidate b) (ballot_why b)
              (ballot_now b) (ballot_stamp b) s with
      | inr s' => let '(s'', acc) := cast_all s' bs' in (s'', b :: acc)
      | inl _ => cast_all s bs'
      end
  end.

(** The candidate of a voter's most recent recorded ballot. *)
Definition latest_choice (voter : string) (recorded : list Ballot)
  : option string :=
  ballot_candidate <$>
    last (filter (fun b => ballot_voter b = voter) recorded).

(** The number of voters whose counted vote is for [c]. *)
Definition tally (c : string) (d : list (string * Vote)) : nat :=
  length (filter (fun kv => candidate (snd kv) = c) d).

End Voting.

(** ** The human participant ([app/human_client.py]) *)
Module Human.

(** The console interface gives up its wait for input when it is
    cancelled and returns the empty string; the websocket interface lets
    the cancellation through. *)
Inductive Mode := Cli | Web.

Record Stats := mkStats {
  responses_given : nat;
  timeouts : nat;
  total_response_time : Q;
  average_response_time : Q
}.

Record t := mkHuman {
  name : string;
  mode : Mode;
  max_message_length : Z;
  is_active : bool;
  conversation_history : list ChatLog.Message;
  stats : Stats
}.

Definition with_active (a : bool) (h : t) : t :=
  mkHuman (name h) (mode h) (max_message_length h) a
    (conversation_history h) (stats h).

Definition with_history (l : list ChatLog.Message) (h : t) : t :=
  mkHuman (name h) (mode h) (max_message_length h) (is_active h) l (stats h).

Definition with_stats (s : Stats) (h : t) : t :=
  mkHuman (name h) (mode h) (max_message_length h) (is_active h)
    (conversation_history h) s.

(** [HumanClient.receive_message]; the display has no effect on the
    state. *)
Definition receive_message (m : ChatLog.Message) (h : t) : t :=
  if bool_decide (ChatLog.sender m = name h) then h
  else
    let l := conversation_history h ++ [m] in
    with_history (if (30 <? length l)%nat then PyStr.last_n 30 l else l) h.

(** [s.strip()] *)
Fixpoint lstrip (s : string) : string :=
  match s with
  | EmptyString => EmptyString
  | String c s' => if PyStr.is_space c then lstrip s' else s
  end.

Fixpoint rstrip (s : string) : string :=
  match s with
  | EmptyString => EmptyString
  | String c s' =>
      match rstrip s' with
      | EmptyString => if PyStr.is_space c then EmptyString
                       else String c EmptyString
      | r => String c r
      end
  end.

Definition strip (s : string) : string := rstrip (lstrip s).

(** [s[:i]] for an index of either sign. *)
Definition slice_to (i : Z) (s : string) : string :=
  let n := Z.of_nat (String.length s) in
  let k := if (i <? 0)%Z then Z.max 0 (n + i) else Z.min i n in
  String.substring 0 (Z.to_nat k) s.

(** [HumanClient._validate_response] *)
Definition validate_response (response : string) (h : t) : string :=
  if negb (PyStr.has_text response) then ""
  else
    let r := strip response in
    let r1 := if (max_message_length h <? Z.of_nat (String.length r))%Z
              then slice_to (max_message_length h - 3) r +:+ "..."
              else r in
    if (String.length r1 <? 10)%nat
    then r1 +:+ " [Note: Very short response]" else r1.

(** The body of the loop of [autonomous_participation_loop], from the
    point where [get_input] has returned [line] (empty on a timeout, and
    on the console also when the wait was cancelled).  The boolean says
    whether the loop is left ([break]). *)
Definition participation_body (line : string) (now_rt now : Q) (h : t)
  (cl : ChatLog.t) : bool * t * ChatLog.t :=
  if bool_decide (line = "") then (false, h, cl)
  else
    let response := strip line in
    let low := PyStr.lower response in
    if bool_decide (low ∈ ["quit"; "exit"]) then (true, with_active false h, cl)
    else if bool_decide (low ∈ ["help"; "status"; "history"])
    then (false, h, cl)
    else if (String.length response <? 3)%nat then (false, h, cl)
    else
      let validated := validate_response response h in
      if bool_decide (validated = "") then (false, h, cl)
      else
        let '(cl', _) :=
          ChatLog.add_message (name h) validated "chat" [] now_rt now cl in
        let s := stats h in
        (false,
         with_stats (mkStats (S (responses_given s)) (timeouts s)
                       (total_response_time s) (average_response_time s)) h,
         cl').

(** Where the participation loop stands. *)
Inductive LoopState := Exited | AwaitingInput.

(** The loop of [autonomous_participation_loop] on the lines that
    [get_input] returns one after the other, with [queue] the queue it
    subscribed: it runs while [is_active] holds and unsubscribes when it is
    left; when the lines are used up it is waiting for the next one. *)
Fixpoint participation_loop (lines : list (string * (Q * Q))) (queue : nat)
  (h : t) (cl : ChatLog.t)
  : LoopState * list (string * (Q * Q)) * t * ChatLog.t :=
  match lines with
  | [] =>
      if is_active h then (AwaitingInput, [], h, cl)
      else (Exited, [], h, ChatLog.unsubscribe queue cl)
  | (line, (now_rt, now)) :: rest =>
      if is_active h then
        let '(leave, h', cl') := participation_body line now_rt now h cl in
        if leave then (Exited, rest, h', ChatLog.unsubscribe queue cl')
        else participation_loop rest queue h' cl'
      else (Exited, lines, h, ChatLog.unsubscribe queue cl)
  end.

End Human.

(** ** The moderator ([app/moderator.py]) *)
Module Moderator.

Inductive DebatePhase :=
| INTRODUCTION
| OPENING_STATEMENTS
| DISCUSSION
| CLOSING_STATEMENTS
| VOTING
| RESULTS
| FINISHED.

(** [DebateState] dataclass. *)
Record DebateState := mkDebateState {
  phase : DebatePhase;
  current_speaker : option string;
  time_remaining : Z;
  turn_order : list string;
  warnings_issued : gmap string nat
}.

Inductive Participant :=
| PBot (b : Bot.t)
| PHuman (h : Human.t).

(** The tasks kept in [autonomous_tasks]: the calls that start the
    monitoring of a bot or of the moderator bot, and the participation
    loops of the humans (with the queue the loop subscribed). *)
Inductive TaskKind :=
| StartBot (who : string)
| StartModerator
| HumanLoop (who : string) (queue : nat).

Record Task := mkTask {
  task_kind : TaskKind;
  task_done : bool
}.

Record t := mkModerator {
  topic : string;
  participants : list (string * Participant);     (* dict, insertion order *)
  chat_log : ChatLog.t;
  moderator_bot : Bot.t;
  state : DebateState;
  max_response_time : Q;
  warning_time : Q;
  max_message_length : nat;
  autonomous_mode : bool;
  autonomous_tasks : list Task;
  phase_task : option bool;        (* the facilitation task and its done() *)
  silence_timeout : Q;
  last_activity_time : Q;
  last_moderator_prompt : Q
}.

Definition with_chat_log (cl : ChatLog.t) (m : t) : t :=
  mkModerator (topic m) (participants m) cl (moderator_bot m) (state m)
    (max_response_time m) (warning_time m) (max_message_length m)
    (autonomous_mode m) (autonomous_tasks m) (phase_task m)
    (silence_timeout m) (last_activity_time m) (last_moderator_prompt m).

Definition with_participants (ps : list (string * Participant)) (m : t) : t :=
  mkModerator (topic m) ps (chat_log m) (moderator_bot m) (state m)
    (max_response_time m) (warning_time m) (max_message_length m)
    (autonomous_mode m) (autonomous_tasks m) (phase_task m)
    (silence_timeout m) (last_activity_time m) (last_moderator_prompt m).

Definition with_moderator_bot (b : Bot.t) (m : t) : t :=
  mkModerator (topic m) (participants m) (chat_log m) b (state m)
    (max_response_time m) (warning_time m) (max_message_length m)
    (autonomous_mode m) (autonomous_tasks m) (phase_task m)
    (silence_timeout m) (last_activity_time m) (last_moderator_prompt m).

Definition with_state (s : DebateState) (m : t) : t :=
  mkModerator (topic m) (participants m) (chat_log m) (moderator_bot m) s
    (max_response_time m) (warning_time m) (max_message_length m)
    (autonomous_mode m) (autonomous_tasks m) (phase_task m)
    (silence_timeout m) (last_activity_time m) (last_moderator_prompt m).

Definition with_tasks (ts : list Task) (pt : option bool) (m : t) : t :=
  mkModerator (topic m) (participants m) (chat_log m) (moderator_bot m)
    (state m) (max_response_time m) (warning_time m) (max_message_length m)
    (autonomous_mode m) ts pt
    (silence_timeout m) (last_activity_time m) (last_moderator_prompt m).

Definition with_activity (last_activity last_prompt : Q) (m : t) : t :=
  mkModerator (topic m) (participants m) (chat_log m) (moderator_bot m)
    (state m) (max_response_time m) (warning_time m) (max_message_length m)
    (autonomous_mode m) (autonomous_tasks m) (phase_task m)
    (silence_timeout m) last_activity last_prompt.

Definition with_phase (p : DebatePhase) (m : t) : t :=
  let s := state m in
  with_state (mkDebateState p (current_speaker s) (time_remaining s)
                (turn_order s) (warnings_issued s)) m.

Definition with_speaker (who : option string) (limit : Z) (m : t) : t :=
  let s := state m in
  with_state (mkDebateState (phase s) who limit (turn_order s)
                (warnings_issued s)) m.

Definition with_warnings (w : gmap string nat) (m : t) : t :=
  let s := state m in
  with_state (mkDebateState (phase s) (current_speaker s) (time_remaining s)
                (turn_order s) w) m.

Definition participant_name (p : Participant) : string :=
  match p with
  | PBot b => Bot.name (Bot.config b)
  | PHuman h => Human.name h
  end.

(** [Moderator.__init__], from the participants, the chat log, the
    moderator bot it builds and the values it reads from the
    configuration.  The participants are keyed by name. *)
Definition init (topic : string) (ps : list Participant) (cl : ChatLog.t)
  (mb : Bot.t) (max_response_time warning_time : Q)
  (max_message_length : nat) (autonomous : bool) (silence_timeout now : Q)
  : t :=
  let dict :=
    foldl (fun d p => Voting.dict_set (participant_name p) p d) [] ps in
  mkModerator topic dict cl mb
    (mkDebateState INTRODUCTION None 0 (map fst dict) ∅)
    max_response_time warning_time max_message_length autonomous [] None
    silence_timeout now 0.

(** [participant.receive_message(message)] *)
Definition receive (msg : ChatLog.Message) (p : Participant) : Participant :=
  match p with
  | PBot b => PBot (Bot.receive_message msg b)
  | PHuman h => PHuman (Human.receive_message msg h)
  end.

(** The two clock readings of an [add_message]: response timer and
    timestamp. *)
Definition Stamp : Type := Q * Q.

(** [Moderator._broadcast_message], always called with sender
    ["moderator"]. *)
Definition broadcast_message (text : string) (st : Stamp) (m : t) : t :=
  let '(cl, msg) :=
    ChatLog.add_message "moderator" text "moderator" [] (fst st) (snd st)
      (chat_log m) in
  with_participants
    (map (fun np => (fst np, receive msg (snd np))) (participants m))
    (with_chat_log cl m).

(** *** Structured turns *)

(** [Moderator._handle_timeout] *)
Definition handle_timeout (who : string) (st : Stamp) (m : t) : t :=
  let w := warnings_issued (state m) in
  let n := S (default 0 (w !! who)) in
  broadcast_message
    ("⏰ " +:+ who +:+ " exceeded time limit. Warning " +:+ pretty n +:+ "/3")
    st (with_warnings (<[who := n]> w) m).

(** [int(x)]: truncation towards zero. *)
Definition Qtrunc (x : Q) : Z :=
  if Qle_bool 0 x then Qfloor x else Qceiling x.

(** [Moderator._send_warning] *)
Definition send_warning (who : string) (remaining : Q) (st : Stamp) (m : t)
  : t :=
  broadcast_message
    ("⏰ " +:+ who +:+ ": " +:+ pretty (Qtrunc remaining)
       +:+ " seconds remaining")
    st m.

(** [Moderator._process_response]; [st_note] stamps the notice sent when
    the response is cut, [st] the response itself. *)
Definition process_response (who response : string) (st_note st : Stamp)
  (m : t) : t :=
  let '(text, m1) :=
    if (max_message_length m <? String.length response)%nat then
      (String.substring 0 (max_message_length m) response +:+ "...",
       broadcast_message
         ("⚠️ " +:+ who +:+ "'s response was truncated due to length")
         st_note m)
    else (response, m) in
  let '(cl, _) :=
    ChatLog.add_message who text "chat" [] (fst st) (snd st) (chat_log m1) in
  with_chat_log cl m1.

(** One evaluation of the condition of the timer loop: whether the
    response task is done, and, when it is not, the clock. *)
Record Poll := mkPoll {
  poll_done : bool;
  poll_now : Q;
  poll_stamp : Stamp          (* for the warning this poll may send *)
}.

(** How the response task ends when it is left to run. *)
Inductive TaskResult :=
| Value (text : string)
| Error (msg : string).

(** What the response task does when it is cancelled: it ends cancelled
    (the bots, the websocket humans), or it swallows the cancellation and
    returns (the console humans return the empty string), or it raises. *)
Inductive CancelReaction :=
| EndsCancelled
| ReturnsAnyway (text : string)
| RaisesInstead (msg : string).

(** The environment of one structured turn. *)
Record TurnEnv := mkTurnEnv {
  st_announce : Stamp;
  turn_start : Q;
  polls : list Poll;
  result : TaskResult;
  reaction : CancelReaction;
  st_timeout : Stamp;
  st_note : Stamp;
  st_post : Stamp;
  st_error : Stamp
}.

(** How the timer loop was left. *)
Inductive LoopExit :=
| TaskDone                      (* the condition found the task done *)
| TimedOut (r : CancelReaction) (* the limit was used up: cancel, await *)
| StillRunning.                 (* the polls are used up: sleeping *)

(** The timer loop of [_give_structured_turn].  The result counts the
    calls of [response_task.cancel()]. *)
Fixpoint timer_loop (who : string) (time_limit : Z) (e : TurnEnv)
  (ps : list Poll) (warning_sent : bool) (m : t) : LoopExit * nat * t :=
  match ps with
  | [] => (StillRunning, 0, m)
  | p :: ps' =>
      if poll_done p then (TaskDone, 0, m)
      else
        let elapsed := (poll_now p - turn_start e)%Q in
        let remaining := (inject_Z time_limit - elapsed)%Q in
        if Qleb remaining 0 then
          match reaction e with
          | RaisesInstead msg => (TimedOut (RaisesInstead msg), 1, m)
          | r => (TimedOut r, 1, handle_timeout who (st_timeout e) m)
          end
        else if negb warning_sent && Qleb remaining (warning_time m) then
          timer_loop who time_limit e ps' true
            (send_warning who remaining (poll_stamp p) m)
        else timer_loop who time_limit e ps' warning_sent m
  end.

(** What a turn reports: how the loop was left, how many times the task
    was cancelled, and the exception that escapes, if one does. *)
Record TurnReport := mkTurnReport {
  turn_exit : LoopExit;
  cancel_calls : nat;
  turn_raised : option string
}.

(** [Moderator._give_structured_turn] *)
Definition give_structured_turn (who : string) (time_limit : Z)
  (turn_type : string) (e : TurnEnv) (m : t) : TurnReport * t :=
  let m0 := with_speaker (Some who) time_limit m in
  match Voting.dict_get who (participants m0) with
  | None => (mkTurnReport StillRunning 0 (Some ("KeyError: " +:+ who)), m0)
  | Some _ =>
      let m1 :=
        broadcast_message
          ("🎤 " +:+ who +:+ "'s turn for " +:+ turn_type +:+ " ("
             +:+ pretty time_limit +:+ "s)")
          (st_announce e) m0 in
      let '(exit, cancels, m2) :=
        timer_loop who time_limit e (polls e) false m1 in
      let m3 :=
        match exit with
        | StillRunning => m2
        | TimedOut (RaisesInstead msg) =>
            broadcast_message
              ("⚠️ Error during " +:+ who +:+ "'s turn: " +:+ msg)
              (st_error e) m2
        | TimedOut EndsCancelled => m2
        | TimedOut (ReturnsAnyway text) =>
            if bool_decide (text = "") then m2
            else process_response who text (st_note e) (st_post e) m2
        | TaskDone =>
            match result e with
            | Value text =>
                if bool_decide (text = "") then m2
                else process_response who text (st_note e) (st_post e) m2
            | Error msg =>
                broadcast_message
                  ("⚠️ Error getting response from " +:+ who +:+ ": " +:+ msg)
                  (st_error e) m2
            end
        end in
      match exit with
      | StillRunning => (mkTurnReport exit cancels None, m3)
      | _ => (mkTurnReport exit cancels None, with_speaker None time_limit m3)
      end
  end.

(** *** Facilitation of the autonomous discussion *)

Definition five_minutes : string :=
  "⏰ 5 minutes remaining in autonomous discussion phase".
Definition two_minutes : string :=
  "⏰ 2 minutes left! Perfect time for final thoughts on this topic".
Definition one_minute : string :=
  "⏰ Final minute! Any last contributions to the discussion?".

(** [Moderator._provide_time_updates] *)
Definition provide_time_updates (remaining : Q) (st : Stamp) (m : t) : t :=
  if Qltb 299 remaining && Qleb remaining 301
  then broadcast_message five_minutes st m
  else if Qltb 119 remaining && Qleb remaining 121
  then broadcast_message two_minutes st m
  else if Qltb 59 remaining && Qleb remaining 61
  then broadcast_message one_minute st m
  else m.

Definition simple_prompts : list string :=
  ["🎯 What are your thoughts on the discussion so far?";
   "💡 Any other perspectives to consider?";
   "🤔 Does anyone have questions about the points raised?";
   "⚖️ How do you weigh the different arguments presented?"].

(** [Moderator._provide_simple_prompt]; [choice] is the index that
    [random.choice] picks. *)
Definition provide_simple_prompt (choice : nat) (st : Stamp) (m : t) : t :=
  broadcast_message (default "" (simple_prompts !! choice)) st m.

(** One pass of the facilitation loop: the clock at the loop condition,
    what the other participants did to the chat log during the sleep, the
    clock after the sleep, and what the two possible broadcasts need. *)
Record Tick := mkTick {
  t_cond : Q;
  traffic : list ChatLog.Op;
  t_now : Q;
  choice : nat;
  st_prompt : Stamp;
  st_update : Stamp
}.

Inductive Facilitation := PhaseOver | Sleeping.

(** [Moderator._facilitate_autonomous_discussion] *)
Fixpoint facilitate_loop (start_time total_time : Q) (ticks : list Tick)
  (last_message_count : nat) (m : t) : Facilitation * t :=
  match ticks with
  | [] => (Sleeping, m)
  | k :: ticks' =>
      if Qltb (t_cond k - start_time) total_time then
        let m1 := with_chat_log (ChatLog.run (chat_log m) (traffic k)).1 m in
        let current_time := t_now k in
        let elapsed := (current_time - start_time)%Q in
        let remaining := (total_time - elapsed)%Q in
        let current_message_count := length (ChatLog.messages (chat_log m1)) in
        let '(m2, count) :=
          if (last_message_count <? current_message_count)%nat
          then (with_activity current_time (last_moderator_prompt m1) m1,
                current_message_count)
          else (m1, last_message_count) in
        let silence_duration := (current_time - last_activity_time m2)%Q in
        let m3 :=
          if Qltb (silence_timeout m2) silence_duration &&
             Qltb 45 (current_time - last_moderator_prompt m2)
          then with_activity (last_activity_time m2) current_time
                 (provide_simple_prompt (choice k) (st_prompt k) m2)
          else m2 in
        facilitate_loop start_time total_time ticks' count
          (provide_time_updates remaining (st_update k) m3)
      else (PhaseOver, m)
  end.

Definition facilitate_autonomous_discussion (start_time total_time : Q)
  (ticks : list Tick) (m : t) : Facilitation * t :=
  facilitate_loop start_time total_time ticks
    (length (ChatLog.messages (chat_log m))) m.

(** The number of messages on the chat log with a given text. *)
Definition announcements (text : string) (m : t) : nat :=
  length (filter (fun msg => ChatLog.content msg = text)
                 (ChatLog.messages (chat_log m))).

(** *** Starting and stopping the autonomous loops *)

(** [Moderator._start_bot_autonomous_monitoring], with the started tasks
    run to their end (they do not wait for anything). *)
Fixpoint start_bots (ps : list (string * Participant)) (topic' : string)
  (cl : ChatLog.t) : list (string * Participant) * list Task * ChatLog.t :=
  match ps with
  | [] => ([], [], cl)
  | (n, PBot b) :: ps' =>
      let '(b', cl1) := Bot.start_autonomous_monitoring topic' b cl in
      let '(ps'', ts, cl2) := start_bots ps' topic' cl1 in
      ((n, PBot b') :: ps'', mkTask (StartBot n) true :: ts, cl2)
  | (n, PHuman h) :: ps' =>
      let '(ps'', ts, cl2) := start_bots ps' topic' cl in
      ((n, PHuman h) :: ps'', ts, cl2)
  end.

(** [Moderator._start_human_autonomous_participation], with each loop run
    to its first wait for input: an inactive human's loop returns at once,
    an active one subscribes a queue. *)
Fixpoint start_humans (ps : list (string * Participant)) (cl : ChatLog.t)
  : list Task * ChatLog.t :=
  match ps with
  | [] => ([], cl)
  | (n, PHuman h) :: ps' =>
      if Human.is_active h then
        let '(cl1, q) := ChatLog.subscribe cl in
        let '(ts, cl2) := start_humans ps' cl1 in
        (mkTask (HumanLoop n q) false :: ts, cl2)
      else
        let '(ts, cl2) := start_humans ps' cl in
        (mkTask (HumanLoop n 0) true :: ts, cl2)
  | (n, PBot _) :: ps' => start_humans ps' cl
  end.

(** The three start calls of [_autonomous_discussion_phase] and the
    creation of the facilitation task. *)
Definition start_autonomous_loops (m : t) : t :=
  let '(ps, bot_tasks, cl1) :=
    start_bots (participants m) (topic m) (chat_log m) in
  let '(human_tasks, cl2) := start_humans ps cl1 in
  let '(mb, cl3) :=
    Bot.start_autonomous_monitoring (topic m) (moderator_bot m) cl2 in
  with_tasks
    (autonomous_tasks m ++ bot_tasks ++ human_tasks
       ++ [mkTask StartModerator true])
    (Some false)
    (with_moderator_bot mb (with_participants ps (with_chat_log cl3 m))).

(** The first loop of [_cleanup_autonomous_tasks]: [stop_monitoring] on
    every participant that has it, that is, on the bots. *)
Fixpoint stop_bots (ps : list (string * Participant)) (cl : ChatLog.t)
  : list (string * Participant) * ChatLog.t :=
  match ps with
  | [] => ([], cl)
  | (n, PBot b) :: ps' =>
      let '(b', cl1) := Bot.stop_monitoring b cl in
      let '(ps'', cl2) := stop_bots ps' cl1 in
      ((n, PBot b') :: ps'', cl2)
  | (n, PHuman h) :: ps' =>
      let '(ps'', cl2) := stop_bots ps' cl in
      ((n, PHuman h) :: ps'', cl2)
  end.

(** [d[k] = v] on the participants, for a key that is present. *)
Definition set_participant (n : string) (p : Participant)
  (ps : list (string * Participant)) : list (string * Participant) :=
  Voting.dict_set n p ps.

(** Whether an awaited task has ended. *)
Inductive Await := Ended | Pending.

(** The second loop of [_cleanup_autonomous_tasks]: every task that is
    not done is cancelled and awaited.  A start task or the loop of a
    websocket human ends cancelled (the human's loop is taken to wait in
    [get_input], with a websocket attached; without one [get_input]
    returns at once and the loop never suspends).  The loop of a console
    human swallows
    the cancellation inside [get_input], which returns the empty string,
    and goes on; it ends when the human leaves.  [lines] is what the
    console returns from then on. *)
Fixpoint cancel_tasks (ts : list Task) (lines : list (string * Stamp))
  (ps : list (string * Participant)) (cl : ChatLog.t)
  : Await * list (string * Participant) * ChatLog.t :=
  match ts with
  | [] => (Ended, ps, cl)
  | tk :: ts' =>
      if task_done tk then cancel_tasks ts' lines ps cl
      else
        match task_kind tk with
        | HumanLoop who q =>
            match Voting.dict_get who ps with
            | Some (PHuman h) =>
                match Human.mode h with
                | Human.Web => cancel_tasks ts' lines ps cl
                | Human.Cli =>
                    match Human.participation_loop lines q h cl with
                    | (Human.Exited, rest, h', cl') =>
                        cancel_tasks ts' rest
                          (set_participant who (PHuman h') ps) cl'
                    | (Human.AwaitingInput, _, h', cl') =>
                        (Pending, set_participant who (PHuman h') ps, cl')
                    end
                end
            | _ => cancel_tasks ts' lines ps cl
            end
        | _ => cancel_tasks ts' lines ps cl
        end
  end.

(** [Moderator._cleanup_autonomous_tasks] *)
Definition cleanup_autonomous_tasks (lines : list (string * Stamp)) (m : t)
  : Await * t :=
  let '(ps1, cl1) := stop_bots (participants m) (chat_log m) in
  let '(mb, cl2) := Bot.stop_monitoring (moderator_bot m) cl1 in
  let m1 := with_moderator_bot mb (with_participants ps1 (with_chat_log cl2 m)) in
  match cancel_tasks (autonomous_tasks m1) lines ps1 cl2 with
  | (Ended, ps2, cl3) =>
      (Ended,
       with_tasks [] (option_map (fun _ => true) (phase_task m1))
         (with_participants ps2 (with_chat_log cl3 m1)))
  | (Pending, ps2, cl3) =>
      (Pending, with_participants ps2 (with_chat_log cl3 m1))
  end.

(** *** The session *)

(** What a phase raises: an instance of [Exception], or something that
    [except Exception] does not catch (a cancellation, an interrupt). *)
Inductive Raised :=
| PyException (msg : string)
| PyBaseException (msg : string).

(** How a phase ends, and the moderator it leaves. *)
Inductive Outcome (A : Type) :=
| Returns (a : A) (m : t)
| Raises (e : Raised) (m : t).
Arguments Returns {A} a m.
Arguments Raises {A} e m.

(** How [run_debate] ends: it returns the results, or the exception
    propagates, or it is still inside its cleanup, waiting for a task. *)
Inductive Run :=
| Completed (results : option Voting.VotingResults) (m : t)
| Propagated (e : Raised) (m : t)
| InCleanup (m : t).

Definition error_text (msg : string) : string :=
  "⚠️ Debate error: " +:+ msg +:+ ". Ending session.".

Section RunDebate.

(** The phases call the language models, read the console and wait on
    timers; [run_debate] is modelled for whatever they do. *)
Variable introduction_phase : t -> Outcome unit.
Variable opening_statements_phase : t -> Outcome unit.
Variable autonomous_discussion_phase : t -> Outcome unit.
Variable traditional_discussion_phase : t -> Outcome unit.
Variable closing_statements_phase : t -> Outcome unit.
Variable voting_phase : t -> Outcome (option Voting.VotingResults).
Variable results_phase : option Voting.VotingResults -> t -> Outcome unit.

Definition bind {A B} (x : Outcome A) (f : A -> t -> Outcome B) : Outcome B :=
  match x with
  | Returns a m => f a m
  | Raises e m => Raises e m
  end.

(** The body of the [try] of [run_debate]. *)
Definition phases (m : t) : Outcome (option Voting.VotingResults) :=
  bind (introduction_phase m) (fun _ m1 =>
  bind (opening_statements_phase m1) (fun _ m2 =>
  bind (if autonomous_mode m2 then autonomous_discussion_phase m2
        else traditional_discussion_phase m2) (fun _ m3 =>
  bind (closing_statements_phase m3) (fun _ m4 =>
  bind (voting_phase m4) (fun results m5 =>
  bind (results_phase results m5) (fun _ m6 =>
  Returns results m6)))))).

(** The [finally] clause. *)
Definition finally (lines : list (string * Stamp)) (m : t) : Await * t :=
  if autonomous_mode m then
    match cleanup_autonomous_tasks lines m with
    | (Ended, m') => (Ended, with_phase FINISHED m')
    | (Pending, m') => (Pending, m')
    end
  else (Ended, with_phase FINISHED m).

(** [Moderator.run_debate]; [st] stamps the error message, [lines] is what
    the consoles of the humans return during the cleanup. *)
Definition run_debate (st : Stamp) (lines : list (string * Stamp)) (m : t)
  : Run :=
  match phases m with
  | Returns results m' =>
      match finally lines m' with
      | (Ended, m'') => Completed results m''
      | (Pending, m'') => InCleanup m''
      end
  | Raises (PyException msg) m' =>
      match finally lines (broadcast_message (error_text msg) st m') with
      | (Ended, m'') => Propagated (PyException msg) m''
      | (Pending, m'') => InCleanup m''
      end
  | Raises e m' =>
      match finally lines m' with
      | (Ended, m'') => Propagated e m''
      | (Pending, m'') => InCleanup m''
      end
  end.

End RunDebate.

(** Every bot among the participants, and the moderator bot, has stopped
    monitoring. *)
Definition bots_stopped (m : t) : Prop :=
  Bot.is_monitoring (moderator_bot m) = false /\
  forall n b, (n, PBot b) ∈ participants m -> Bot.is_monitoring b = false.

End Moderator.

(** ** The chat log's queries and maintenance calls ([app/chat_log.py]) *)
Module ChatLogQueries.
Import ChatLog.

(** [l[i:]] for an index of either sign: a negative index counts from the
    end, and an index beyond either end is clipped. *)
Definition slice_from {A} (i : Z) (l : list A) : list A :=
  let n := Z.of_nat (length l) in
  drop (Z.to_nat (if (i <? 0)%Z then Z.max 0 (n + i) else Z.min i n)) l.

(** [ChatLog.get_recent_messages] for a count of either sign:
    [list(self.messages)[-count:]]. *)
Definition get_recent_messages (count : Z) (cl : t) : list Message :=
  slice_from (- count) (messages cl).

(** [ChatLog.get_messages].  An argument that is [None], the empty string
    or zero is false in the [if] that guards its filter. *)
Definition get_messages (limit : option Z) (sender : option string)
  (message_type : option string) (since_timestamp : option Q) (cl : t)
  : list Message :=
  let l0 := messages cl in
  let l1 :=
    match sender with
    | Some s => if bool_decide (s = "") then l0
                else filter (fun m => ChatLog.sender m = s) l0
    | None => l0
    end in
  let l2 :=
    match message_type with
    | Some ty => if bool_decide (ty = "") then l1
                 else filter (fun m => ChatLog.message_type m = ty) l1
    | None => l1
    end in
  let l3 :=
    match since_timestamp with
    | Some ts => if Qeq_bool ts 0 then l2
                 else filter (fun m => Qltb ts (timestamp m) = true) l2
    | None => l2
    end in
  match limit with
  | Some n => if (n =? 0)%Z then l3 else slice_from (- n) l3
  | None => l3
  end.

(** The test of the loop of [get_conversation_context]. *)
Definition in_context (participant : string) (msg : Message) : bool :=
  bool_decide (ChatLog.sender msg = participant)
  || bool_decide (ChatLog.message_type msg ∈ ["moderator"; "system"])
  || PyStr.contains participant (content msg).

(** [ChatLog.get_conversation_context] *)
Definition get_conversation_context (participant : string)
  (context_length : Z) (cl : t) : list Message :=
  let recent := get_recent_messages (context_length * 2) cl in
  slice_from (- context_length)
    (filter (fun msg => in_context participant msg = true) recent).

(** [ChatLog.search_messages] *)
Definition search_messages (query : string) (case_sensitive : bool) (cl : t)
  : list Message :=
  let q := if case_sensitive then query else PyStr.lower query in
  filter (fun message =>
            PyStr.contains q (if case_sensitive then content message
                              else PyStr.lower (content message)) = true)
         (messages cl).

(** [ChatLog._get_web_message_type] *)
Definition get_web_message_type (sender message_type : string) : string :=
  if bool_decide (message_type ∈ ["moderator"; "system"]) then "moderator"
  else if bool_decide (sender = "Moderator") then "moderator"
  else if bool_decide (sender ∈ bot_names) then "bot"
  else "human".

(** The dictionary that [get_statistics] returns. *)
Record Statistics := mkStatistics {
  st_total_messages : nat;
  st_bot_responses : nat;
  st_human_responses : nat;
  st_moderator_messages : nat;
  st_silence_breaks : nat;
  unique_senders : nat;
  st_messages_by_sender : gmap string nat;
  messages_per_minute : Q;
  session_duration_minutes : Q;
  current_message_count : nat;
  rate_bots : Q;
  rate_humans : Q;
  rate_moderator : Q
}.

Definition per (n d : nat) : Q :=
  (inject_Z (Z.of_nat n) / inject_Z (Z.of_nat d))%Q.

(** [ChatLog.get_statistics]; [duration] is the clock reading less the
    start time recorded when the statistics were last initialised. *)
Definition get_statistics (duration : Q) (cl : t) : Statistics :=
  let s := stats cl in
  let total := total_messages s in
  {| st_total_messages := total;
     st_bot_responses := bot_responses s;
     st_human_responses := human_responses s;
     st_moderator_messages := moderator_messages s;
     st_silence_breaks := silence_breaks s;
     unique_senders := size (messages_by_sender s);
     st_messages_by_sender := messages_by_sender s;
     messages_per_minute :=
       (if Qltb 0 duration
        then inject_Z (Z.of_nat total) / (duration / 60) else 0)%Q;
     session_duration_minutes := (duration / 60)%Q;
     current_message_count := length (messages cl);
     rate_bots := per (bot_responses s) (max 1 total);
     rate_humans := per (human_responses s) (max 1 total);
     rate_moderator := per (moderator_messages s) (max 1 total) |}.

(** [ChatLog.clear]: the messages, the counter, the response timers and
    the statistics are reset; the subscribers are not touched. *)
Definition clear (cl : t) : t :=
  {| maxlen := maxlen cl; messages := []; message_counter := 0;
     subscribers := subscribers cl; response_times := ∅;
     stats := empty_stats; heap := heap cl; next_addr := next_addr cl |}.

(** One pass of the loading loop of [load_transcript]: the message is
    appended to the deque as it is, the counter becomes the larger of
    itself and the message's identifier, and only the total and the
    per-sender count are updated. *)
Definition load_message (cl : t) (message : Message) : t :=
  let s := stats cl in
  let who := ChatLog.sender message in
  {| maxlen := maxlen cl;
     messages := deque_append (maxlen cl) (messages cl) message;
     message_counter := max (message_counter cl) (message_id message);
     subscribers := subscribers cl; response_times := response_times cl;
     stats :=
       mkStats (S (total_messages s))
         (<[who := S (default 0 (messages_by_sender s !! who))]>
            (messages_by_sender s))
         (bot_responses s) (human_responses s) (moderator_messages s)
         (silence_breaks s);
     heap := heap cl; next_addr := next_addr cl |}.

(** [ChatLog.load_transcript], from the point where the file has been read
    and decoded: [data] is the list of messages that [Message.from_dict]
    builds from the entries under ['messages'] (identifiers are the
    natural numbers that [save_transcript] writes).  The subscribers are
    not notified and the response timers are kept. *)
Definition load_transcript (data : list Message) (cl : t) : t :=
  foldl load_message
    {| maxlen := maxlen cl; messages := []; message_counter := 0;
       subscribers := subscribers cl; response_times := response_times cl;
       stats := empty_stats; heap := heap cl; next_addr := next_addr cl |}
    data.

(** The strings on which the model's [lower], [strip] and [len] are
    Python's: every character is an ASCII character. *)
Definition is_ascii (s : string) : Prop :=
  Forall (fun c => nat_of_ascii c < 128) (String.list_ascii_of_string s).

End ChatLogQueries.

(** ** The voting system's other calls ([app/voting.py]) *)
Module VotingAdmin.
Import Voting.

Definition with_eligible (l : list string) (s : t) : t :=
  mkVotingSystem (enabled s) (default_duration s)
    (allow_participant_voting s) (require_justification s)
    (anonymous_votes s) (is_active s) (candidates s) l (votes s)
    (start_time s) (end_time s) (vote_history s).

(** [list.remove(x)]: the first occurrence goes. *)
Fixpoint list_remove (x : string) (l : list string) : list string :=
  match l with
  | [] => []
  | y :: l' => if bool_decide (y = x) then l' else y :: list_remove x l'
  end.

(** [VotingSystem.add_eligible_voter] *)
Definition add_eligible_voter (voter_id : string) (s : t) : t :=
  if bool_decide (voter_id ∈ eligible_voters s) then s
  else with_eligible (eligible_voters s ++ [voter_id]) s.

(** [VotingSystem.remove_eligible_voter] *)
Definition remove_eligible_voter (voter_id : string) (s : t) : t :=
  if bool_decide (voter_id ∈ eligible_voters s)
  then with_eligible (list_remove voter_id (eligible_voters s)) s
  else s.

(** [VotingSystem.reset]: the session state goes, the configuration and
    the history stay. *)
Definition reset (s : t) : t :=
  mkVotingSystem (enabled s) (default_duration s)
    (allow_participant_voting s) (require_justification s)
    (anonymous_votes s) false [] [] [] None None (vote_history s).

(** The dictionary that [get_vote_summary] returns for an active
    session. *)
Record VoteSummary := mkVoteSummary {
  summary_candidates : list string;
  summary_vote_counts : list (string * nat);
  summary_total_votes : nat;
  summary_time_remaining : Q;
  summary_is_active : bool
}.

(** [VotingSystem.get_vote_summary]: the empty dictionary ([None]) when no
    session is active.  The subtraction raises [TypeError] on an end time
    that is [None]. *)
Definition get_vote_summary (now : Q) (s : t) : string + option VoteSummary :=
  if negb (is_active s) then inr None
  else
    match end_time s with
    | None => inl "TypeError"
    | Some e =>
        inr (Some
          {| summary_candidates := candidates s;
             summary_vote_counts :=
               counter (map (fun kv => candidate (snd kv)) (votes s));
             summary_total_votes := length (votes s);
             summary_time_remaining := Qmax 0 (e - now);
             summary_is_active := is_active s |})
    end.

(** [VotingSystem.get_voter_history]: the voter's counted vote of every
    finished session in which the voter has one. *)
Definition get_voter_history (voter_id : string) (s : t) : list Vote :=
  omap (fun session : Q * list string * VotingResults =>
          dict_get voter_id (votes_by_voter session.2))
       (vote_history s).

(** The dictionary that [get_candidate_performance] returns. *)
Record Performance := mkPerformance {
  perf_candidate : string;
  wins : nat;
  perf_total_votes : nat;
  participations : nat;
  win_rate : Q;
  avg_votes : Q
}.

(** One pass of the loop of [get_candidate_performance] over the history;
    the accumulator is [(wins, total_votes, participations)]. *)
Definition performance_step (candidate : string) (acc : nat * nat * nat)
  (session : Q * list string * VotingResults) : nat * nat * nat :=
  let '(w, total, parts) := acc in
  if bool_decide (candidate ∈ session.1.2) then
    (if bool_decide (winner session.2 = Some candidate) then S w else w,
     total + default 0 (dict_get candidate (vote_counts session.2)),
     S parts)
  else acc.

(** [VotingSystem.get_candidate_performance] *)
Definition get_candidate_performance (candidate : string) (s : t)
  : Performance :=
  let '(w, total, parts) :=
    foldl (performance_step candidate) (0, 0, 0) (vote_history s) in
  {| perf_candidate := candidate; wins := w; perf_total_votes := total;
     participations := parts;
     win_rate := if (0 <? parts)%nat
                 then (inject_Z (Z.of_nat w) / inject_Z (Z.of_nat parts))%Q
                 else 0%Q;
     avg_votes := if (0 <? parts)%nat
                  then (inject_Z (Z.of_nat total) / inject_Z (Z.of_nat parts))%Q
                  else 0%Q |}.

End VotingAdmin.

(** ** The voting and results phases of a session ([app/moderator.py]) *)
Module Session.
Import Moderator.

Definition newline : string := String (ascii_of_nat 10) EmptyString.

(** What the voting phase takes from its environment: the phase time
    [phase_times[VOTING]], the stamp of its announcement, the clock when
    the vote opens, the [cast_vote] calls that other tasks make while the
    phase sleeps, and the clock when the vote closes. *)
Record VotingEnv := mkVotingEnv {
  voting_time : Z;
  st_voting : Stamp;
  t_open : Q;
  ballots : list Voting.Ballot;
  t_close : Q
}.

Definition voting_disabled_text : string :=
  "Voting disabled. Debate complete!".

Definition voting_open_text (seconds : Z) : string :=
  "🗳️ Voting Phase" +:+ newline +:+
  "Vote for the most persuasive participant. " +:+
  "Voting closes in " +:+ pretty seconds +:+ " seconds.".

(** [Moderator._voting_phase] on the voting system [vs] that the moderator
    holds: the result is the empty dictionary ([None]) when voting is
    disabled, and the [VotingResults] object otherwise.  A [ValueError] of
    the voting system propagates.  The second component is the voting
    system afterwards. *)
Definition voting_phase (e : VotingEnv) (vs : Voting.t) (m : t)
  : Outcome (option Voting.VotingResults) * Voting.t :=
  let m1 := with_phase VOTING m in
  if negb (Voting.enabled vs) then
    (Returns None (broadcast_message voting_disabled_text (st_voting e) m1),
     vs)
  else
    let m2 :=
      broadcast_message (voting_open_text (voting_time e)) (st_voting e) m1 in
    match Voting.start_voting (map fst (participants m2))
            (Some (inject_Z (voting_time e))) (t_open e) vs with
    | inl err => (Raises (PyException err) m2, vs)
    | inr vs1 =>
        let vs2 := (Voting.cast_all vs1 (ballots e)).1 in
        match Voting.end_voting (t_close e) vs2 with
        | inl err => (Raises (PyException err) m2, vs2)
        | inr (vs3, results) => (Returns (Some results) m2, vs3)
        end
    end.

(** The [AttributeError] of [voting_results.get(...)] on a
    [VotingResults] object, which is a dataclass and not a dictionary. *)
Definition no_get : string :=
  "'VotingResults' object has no attribute 'get'".

Definition no_voting_text : string :=
  "🤝 Debate concluded without voting. Great discussion everyone!".

Definition thanks_text : string :=
  "Thank you for participating in AI Jubilee Debate! 🎭✨".

(** What the results phase takes from its environment: the text of the
    statistics message, which is formatted from the participants'
    [get_stats()], and the stamps of its three broadcasts. *)
Record ResultsEnv := mkResultsEnv {
  stats_msg : t -> string;
  st_results : Stamp;
  st_stats : Stamp;
  st_thanks : Stamp
}.

(** [Moderator._results_phase].  A [VotingResults] object is true in
    [if voting_results:], and the first statement of that branch calls
    [.get] on it, which raises; the empty dictionary takes the other
    branch. *)
Definition results_phase (e : ResultsEnv)
  (voting_results : option Voting.VotingResults) (m : t) : Outcome unit :=
  let m1 := with_phase RESULTS m in
  match voting_results with
  | Some _ => Raises (PyException no_get) m1
  | None =>
      let m2 := broadcast_message no_voting_text (st_results e) m1 in
      let m3 := broadcast_message (stats_msg e m2) (st_stats e) m2 in
      Returns tt (broadcast_message thanks_text (st_thanks e) m3)
  end.

End Session.

(** ** Stopping a bot on a chat log without messages ([app/bot_client.py]) *)
Module BotLifecycle.

(** The truth value of a [ChatLog] object: [ChatLog.__bool__] returns
    [len(self.messages) > 0]. *)
Definition chat_log_truth (cl : ChatLog.t) : bool :=
  (0 <? length (ChatLog.messages cl))%nat.

(** [BotClient.stop_monitoring] with the guard of its last statement,
    [if self.message_queue and self.chat_log], evaluated as Python does:
    the queue object is true, and the chat log is true when it is set and
    stores a message.  [Bot.stop_monitoring] takes the chat log for true
    whenever it is set; the two agree on every chat log that stores a
    message. *)
Definition stop_monitoring (b : Bot.t) (cl : ChatLog.t) : Bot.t * ChatLog.t :=
  let b' := Bot.with_monitoring false (Bot.monitoring_task b)
              (Bot.message_queue b) (Bot.has_chat_log b) (Bot.topic b) b in
  match Bot.message_queue b with
  | Some q =>
      if Bot.has_chat_log b && chat_log_truth cl
      then (b', ChatLog.unsubscribe q cl)
      else (b', cl)
  | None => (b', cl)
  end.

End BotLifecycle.

(** ** The sequential discussion phase ([app/moderator.py]) *)
Module Sequential.
Import Moderator.

(** How far a phase has come: it has returned, or it is inside a turn or
    a sleep that has not ended yet, or an exception has left it. *)
Inductive PhaseEnd :=
| PhaseDone
| PhaseWaiting
| PhaseRaised (msg : string).

(** One pass through the body of the [for] loop of the sequential
    discussion: the clock at the [break] test, the clock when [remaining]
    is computed, and the environment of the turn. *)
Record Slot := mkSlot {
  t_check : Q;
  t_rem : Q;
  turn_env : TurnEnv
}.

(** One pass through the [while] loop: the clock at its condition and the
    passes of the [for] loop inside. *)
Record Round := mkRound {
  t_while : Q;
  slots : list Slot
}.

(** A turn that was given: to whom, in which pass, with what limit, and
    what the turn reported. *)
Record TurnGiven := mkTurnGiven {
  speaker : string;
  slot : Slot;
  limit : Z;
  report : TurnReport
}.

(** The [for] loop over the turn order; [response_time] is the local
    variable of that name, which the loop lowers and never raises.  The
    result [PhaseDone] stands for the loop being left, at its end or by
    [break]. *)
Fixpoint discussion_round (start_time total_time : Q) (order : list string)
  (ss : list Slot) (response_time : Z) (m : t)
  : PhaseEnd * list TurnGiven * Z * t :=
  match order with
  | [] => (PhaseDone, [], response_time, m)
  | who :: order' =>
      match ss with
      | [] => (PhaseWaiting, [], response_time, m)
      | s :: ss' =>
          if Qleb total_time (t_check s - start_time)
          then (PhaseDone, [], response_time, m)
          else
            let remaining := (total_time - (t_rem s - start_time))%Q in
            let response_time' :=
              if Qltb remaining (inject_Z response_time)
              then Qtrunc remaining else response_time in
            let '(r, m1) :=
              give_structured_turn who response_time' "response"
                (turn_env s) m in
            let g := mkTurnGiven who s response_time' r in
            match turn_raised r, turn_exit r with
            | Some msg, _ => (PhaseRaised msg, [g], response_time', m1)
            | None, StillRunning => (PhaseWaiting, [g], response_time', m1)
            | None, _ =>
                let '(en, gs, rt, m2) :=
                  discussion_round start_time total_time order' ss'
                    response_time' m1 in
                (en, g :: gs, rt, m2)
            end
      end
  end.

(** The [while] loop. *)
Fixpoint discussion_rounds (start_time total_time : Q) (order : list string)
  (rounds : list Round) (response_time : Z) (m : t)
  : PhaseEnd * list TurnGiven * t :=
  match rounds with
  | [] => (PhaseWaiting, [], m)
  | r :: rounds' =>
      if Qltb (t_while r - start_time) total_time then
        let '(en, gs, rt, m1) :=
          discussion_round start_time total_time order (slots r)
            response_time m in
        match en with
        | PhaseDone =>
            let '(en2, gs2, m2) :=
              discussion_rounds start_time total_time order rounds' rt m1 in
            (en2, gs ++ gs2, m2)
        | _ => (en, gs, m1)
        end
      else (PhaseDone, [], m)
  end.

Definition discussion_begin_text (total_time : Z) : string :=
  "💬 Sequential Discussion Phase" +:+ Session.newline +:+
  "Participants take turns for " +:+ pretty (total_time / 60)%Z
    +:+ " minutes.".

Definition discussion_complete_text : string :=
  "⏹️ Sequential discussion phase complete!".

(** [Moderator._traditional_discussion_phase]: [total_time] is
    [phase_times[DISCUSSION]] and [response_time] the setting of that
    name, both integers; [start_time] is the clock after the first
    broadcast. *)
Definition traditional_discussion_phase (total_time response_time : Z)
  (st_begin : Stamp) (start_time : Q) (rounds : list Round)
  (st_end : Stamp) (m : t) : PhaseEnd * list TurnGiven * t :=
  let m1 := with_phase DISCUSSION m in
  let m2 := broadcast_message (discussion_begin_text total_time) st_begin m1 in
  let '(en, gs, m3) :=
    discussion_rounds start_time (inject_Z total_time)
      (turn_order (state m2)) rounds response_time m2 in
  match en with
  | PhaseDone =>
      (PhaseDone, gs, broadcast_message discussion_complete_text st_end m3)
  | _ => (en, gs, m3)
  end.

End Sequential.
(** * Properties *)

Lemma Qltb_lt x y : Qltb x y = true <-> (x < y)%Q.
Proof.
  unfold Qltb. rewrite negb_true_iff. split.
  - intros H. apply Qnot_le_lt. intros Hle.
    apply Qle_bool_iff in Hle. congruence.
  - intros H. destruct (Qle_bool y x) eqn:E; [|reflexivity].
    apply Qle_bool_iff in E. exfalso. apply (Qlt_not_le _ _ H E).
Qed.

Lemma Qltb_ge x y : Qltb x y = false <-> (y <= x)%Q.
Proof.
  unfold Qltb. rewrite negb_false_iff. apply Qle_bool_iff.
Qed.

Lemma Qleb_le x y : Qleb x y = true <-> (x <= y)%Q.
Proof. apply Qle_bool_iff. Qed.

(** ** Chat log: identifiers and the bounded window *)
Section ChatLogWindow.
Import ChatLog.

(** The last [n] elements of a list. *)
Definition last_n {A} (n : nat) (l : list A) : list A :=
  drop (length l - n) l.

Lemma last_n_all {A} n (l : list A) : length l <= n -> last_n n l = l.
Proof.
  intros H. unfold last_n. replace (length l - n) with 0 by lia. done.
Qed.

Lemma length_last_n {A} n (l : list A) : length (last_n n l) = min n (length l).
Proof. unfold last_n. rewrite length_drop. lia. Qed.

Lemma last_n_app_last_n {A} n (l l' : list A) :
  last_n n (last_n n l ++ l') = last_n n (l ++ l').
Proof.
  unfold last_n. rewrite !length_app, length_drop.
  destruct (decide (length l <= n)) as [Hle|Hgt].
  - replace (length l - n) with 0 by lia. simpl.
    by replace (length l - 0) with (length l) by lia.
  - rewrite !drop_app.
    rewrite drop_drop.
    replace (length l - n + (length l - (length l - n) + length l' - n))
      with (length l + length l' - n) by lia.
    f_equal. f_equal. rewrite length_drop. lia.
Qed.

Lemma deque_append_last_n n d m :
  length d <= n -> deque_append n d m = last_n n (d ++ [m]).
Proof.
  intros H. unfold deque_append, last_n.
  rewrite length_app. simpl.
  destruct (Nat.ltb_spec n (length d + 1)).
  - by replace (length d + 1 - n) with 1 by lia.
  - by replace (length d + 1 - n) with 0 by lia.
Qed.

Lemma length_deque_append n d m :
  length d <= n -> length (deque_append n d m) <= n.
Proof.
  intros H. rewrite deque_append_last_n by done.
  rewrite length_last_n. lia.
Qed.

(** What one call does to the counter, the capacity and the window. *)
Lemma step_window cl o cl' ms :
  step cl o = (cl', ms) ->
  maxlen cl' = maxlen cl /\
  message_counter cl' = message_counter cl + length ms /\
  map message_id ms = seq (S (message_counter cl)) (length ms) /\
  (length (messages cl) <= maxlen cl ->
   messages cl' = last_n (maxlen cl) (messages cl ++ ms)).
Proof.
  destruct o; simpl.
  - unfold add_message.
    destruct (get_response_time _ _ _) as [? rt].
    destruct (notify_subscribers _ _ _) as [subs h].
    intros [= <- <-]. simpl. repeat split; try lia.
    intros Hl. by apply deque_append_last_n.
  - intros [= <- <-]. simpl. repeat split; try lia.
    intros Hl. rewrite app_nil_r. by rewrite last_n_all.
  - intros [= <- <-]. unfold unsubscribe. case_bool_decide; simpl;
      (repeat split; try lia);
      intros Hl; rewrite app_nil_r; by rewrite last_n_all.
  - intros [= <- <-]. unfold queue_get.
    destruct (heap cl !! a) as [q|]; [destruct (items q !! taken q)|]; simpl;
      (repeat split; try lia);
      intros Hl; rewrite app_nil_r; by rewrite last_n_all.
  - intros [= <- <-]. simpl. repeat split; try lia.
    intros Hl. rewrite app_nil_r. by rewrite last_n_all.
Qed.

Lemma run_window ops : forall cl cl' ms,
  run cl ops = (cl', ms) ->
  length (messages cl) <= maxlen cl ->
  maxlen cl' = maxlen cl /\
  message_counter cl' = message_counter cl + length ms /\
  map message_id ms = seq (S (message_counter cl)) (length ms) /\
  messages cl' = last_n (maxlen cl) (messages cl ++ ms).
Proof.
  induction ops as [|o ops IH]; intros cl cl' ms; simpl.
  - intros [= <- <-] H. simpl. rewrite app_nil_r.
    repeat split; try lia. by rewrite last_n_all.
  - destruct (step cl o) as [cl1 ms1] eqn:E1.
    destruct (run cl1 ops) as [cl2 ms2] eqn:E2.
    intros [= <- <-] Hlen.
    destruct (step_window _ _ _ _ E1) as (Hm1 & Hc1 & Hid1 & Hw1).
    specialize (Hw1 Hlen).
    assert (Hlen1 : length (messages cl1) <= maxlen cl1).
    { rewrite Hw1, Hm1, length_last_n. lia. }
    destruct (IH _ _ _ E2 Hlen1) as (Hm2 & Hc2 & Hid2 & Hw2).
    repeat split.
    + congruence.
    + rewrite length_app. lia.
    + rewrite map_app, length_app, seq_app, Hid1, Hid2, Hc1.
      done.
    + rewrite Hw2, Hw1, Hm1, last_n_app_last_n. by rewrite app_assoc.
Qed.

End ChatLogWindow.

(** C1. On a chat log created with capacity [N], whatever the sequence of
    calls, the messages that [add_message] creates carry the identifiers
    1, 2, 3, ... in append order, and the stored window is the last [N] of
    them, each with the identifier it was given; [add_message] is a total
    function, so eviction raises nothing.  With capacity 3, four appends
    leave the last three in the window, with identifiers 2, 3, 4 of 1..4. *)
Theorem C1_ids_gapless_window_last_N :
  (forall (N : nat) (ops : list ChatLog.Op),
     let '(cl, ms) := ChatLog.run (ChatLog.init N) ops in
     map ChatLog.message_id ms = seq 1 (length ms) /\
     ChatLog.message_counter cl = length ms /\
     ChatLog.messages cl = drop (length ms - N) ms /\
     length (ChatLog.messages cl) = min N (length ms)) /\
  (forall sa ca sb cb sc cc sd cd ty ta tb tc td,
     let ops := [ChatLog.OpAdd sa ca ty [] ta ta; ChatLog.OpAdd sb cb ty [] tb tb;
                 ChatLog.OpAdd sc cc ty [] tc tc; ChatLog.OpAdd sd cd ty [] td td] in
     let '(cl, ms) := ChatLog.run (ChatLog.init 3) ops in
     map ChatLog.content ms = [ca; cb; cc; cd] /\
     map ChatLog.message_id ms = [1; 2; 3; 4] /\
     map ChatLog.content (ChatLog.messages cl) = [cb; cc; cd] /\
     map ChatLog.message_id (ChatLog.messages cl) = [2; 3; 4]).
Proof.
  split.
  - intros N ops.
    destruct (ChatLog.run (ChatLog.init N) ops) as [cl ms] eqn:E.
    destruct (run_window _ _ _ _ E) as (_ & Hc & Hid & Hw); [simpl; lia|].
    simpl in *. fold (last_n N ms). repeat split; try done.
    rewrite Hw. apply length_last_n.
  - intros. subst ops. unfold ChatLog.run, ChatLog.step, ChatLog.add_message.
    simpl. done.
Qed.

(** ** Chat log: subscriptions *)
Section ChatLogSubscriptions.
Import ChatLog.

(** Well-formedness of the subscriber list and the queue heap: no queue is
    subscribed twice, every address in use is below [next_addr], and no
    queue carries a true [_closed] attribute. *)
Record wf (cl : t) : Prop := mkWf {
  wf_nodup : NoDup (subscribers cl);
  wf_subs : forall a, a ∈ subscribers cl -> a < next_addr cl;
  wf_heap : forall a q, heap cl !! a = Some q ->
              a < next_addr cl /\ closed q = false
}.

Lemma wf_init N : wf (init N).
Proof.
  split; simpl.
  - constructor.
  - intros a Ha. by apply elem_of_nil in Ha.
  - intros a q Hq. by rewrite lookup_empty in Hq.
Qed.

Lemma filter_live_id (h : gmap nat Queue) (subs : list nat) :
  (forall a q, h !! a = Some q -> closed q = false) ->
  filter (fun a => is_closed h a = false) subs = subs.
Proof.
  intros Hc. induction subs as [|a subs IH]; [done|].
  rewrite filter_cons, IH. unfold is_closed.
  destruct (h !! a) as [q|] eqn:E.
  - rewrite (Hc _ _ E). by rewrite decide_True.
  - by rewrite decide_True.
Qed.

Lemma put_lookup_ne m h a b : a ≠ b -> put m h a !! b = h !! b.
Proof.
  intros Hne. unfold put. destruct (h !! a); [|done].
  by rewrite lookup_insert_ne.
Qed.

Lemma foldl_put_notin m (l : list nat) : forall h b,
  b ∉ l -> foldl (put m) h l !! b = h !! b.
Proof.
  induction l as [|a l IH]; intros h b Hb; simpl; [done|].
  apply not_elem_of_cons in Hb as [Hne Hb].
  rewrite IH by done. by apply put_lookup_ne.
Qed.

Lemma foldl_put_in m (l : list nat) : forall h b q,
  NoDup l -> b ∈ l -> h !! b = Some q ->
  foldl (put m) h l !! b = Some (mkQueue (items q ++ [m]) (taken q) (closed q)).
Proof.
  induction l as [|a l IH]; intros h b q Hnd Hb Hq; simpl.
  - by apply elem_of_nil in Hb.
  - apply NoDup_cons in Hnd as [Ha Hnd].
    apply elem_of_cons in Hb as [->|Hb].
    + rewrite foldl_put_notin by done.
      unfold put. rewrite Hq. by rewrite lookup_insert_eq.
    + assert (a ≠ b) by (intros ->; done).
      apply IH; [done|done|]. by rewrite put_lookup_ne.
Qed.

Lemma foldl_put_closed m (l : list nat) : forall h,
  (forall a q, h !! a = Some q -> closed q = false) ->
  forall a q, foldl (put m) h l !! a = Some q -> closed q = false.
Proof.
  induction l as [|b l IH]; intros h Hc; simpl; [done|].
  apply IH. intros a q. unfold put.
  destruct (h !! b) as [qb|] eqn:E; [|by apply Hc].
  destruct (decide (b = a)) as [->|Hne].
  - rewrite lookup_insert_eq. intros [= <-]. simpl. by apply (Hc _ _ E).
  - rewrite lookup_insert_ne by done. by apply Hc.
Qed.

Lemma foldl_put_dom m (l : list nat) : forall h a,
  is_Some (foldl (put m) h l !! a) -> is_Some (h !! a).
Proof.
  induction l as [|b l IH]; intros h a; simpl; [done|].
  intros H. apply IH in H. unfold put in H.
  destruct (h !! b) as [qb|] eqn:E; [|done].
  destruct (decide (b = a)) as [->|Hne]; [by rewrite E|].
  by rewrite lookup_insert_ne in H.
Qed.

Lemma remove_first_subseteq a l x : x ∈ remove_first a l -> x ∈ l.
Proof.
  induction l as [|y l IH]; simpl; [done|].
  case_bool_decide.
  - intros Hx. by apply elem_of_cons; right.
  - intros [->|Hx]%elem_of_cons; [by left|right; auto].
Qed.

Lemma remove_first_nodup a l : NoDup l -> NoDup (remove_first a l).
Proof.
  induction 1 as [|y l Hy Hnd IH]; simpl; [constructor|].
  case_bool_decide; [done|].
  constructor; [|done]. intros Hx. by apply remove_first_subseteq in Hx.
Qed.

Lemma remove_first_gone a l : NoDup l -> a ∉ remove_first a l.
Proof.
  induction 1 as [|y l Hy Hnd IH]; simpl; [by apply not_elem_of_nil|].
  case_bool_decide as Hya; [by subst|].
  apply not_elem_of_cons. split; [congruence|done].
Qed.

Lemma remove_first_other a b l : a ≠ b -> b ∈ l -> b ∈ remove_first a l.
Proof.
  intros Hne. induction l as [|y l IH]; simpl; [done|].
  intros [->|Hb]%elem_of_cons.
  - rewrite bool_decide_false by done. by left.
  - case_bool_decide; [done|]. right; auto.
Qed.

Lemma step_wf cl o : wf cl -> wf (step cl o).1.
Proof.
  intros [Hnd Hs Hh]. destruct o; simpl.
  - unfold add_message.
    destruct (get_response_time _ _ _) as [? rt].
    unfold notify_subscribers.
    rewrite filter_live_id by (intros ? ? ?%Hh; tauto).
    simpl. split; simpl; [done|done|].
    intros a q Hq. split.
    + destruct (foldl_put_dom _ _ _ _ (mk_is_Some _ _ Hq)) as [q' Hq'].
      apply Hh in Hq'. tauto.
    + eapply foldl_put_closed; [|exact Hq]. intros ? ? ?%Hh; tauto.
  - split; simpl.
    + apply NoDup_app. repeat split; [done| |apply NoDup_singleton].
      intros a Ha ->%list_elem_of_singleton. apply Hs in Ha. lia.
    + intros a [Ha| ->%list_elem_of_singleton]%elem_of_app; [|lia].
      apply Hs in Ha. lia.
    + intros a q. destruct (decide (next_addr cl = a)) as [<-|Hne].
      * rewrite lookup_insert_eq. intros [= <-]. split; [lia|done].
      * rewrite lookup_insert_ne by done. intros ?%Hh. split; [lia|tauto].
  - unfold unsubscribe. case_bool_decide; [|by split].
    split; simpl; [by apply remove_first_nodup| |done].
    intros x Hx%remove_first_subseteq. auto.
  - unfold queue_get.
    destruct (heap cl !! a) as [q|] eqn:E; [|by split].
    destruct (items q !! taken q); [|by split].
    split; simpl; [done|done|].
    intros b qb. destruct (decide (a = b)) as [<-|Hne].
    + rewrite lookup_insert_eq. intros [= <-]. simpl. by apply (Hh _ _ E).
    + rewrite lookup_insert_ne by done. apply Hh.
  - by split.
Qed.

Lemma run_wf ops : forall cl, wf cl -> wf (run cl ops).1.
Proof.
  induction ops as [|o ops IH]; intros cl Hwf; simpl; [done|].
  pose proof (step_wf cl o Hwf) as H1.
  destruct (step cl o) as [cl1 ms1].
  specialize (IH cl1 H1).
  by destruct (run cl1 ops) as [cl2 ms2].
Qed.

(** One call, seen from a subscribed queue: unless the call unsubscribes
    it, the queue stays subscribed and receives exactly the message the
    call created. *)
Lemma step_subscribed cl o a q :
  wf cl -> a ∈ subscribers cl -> heap cl !! a = Some q ->
  is_unsubscribe_of a o = false ->
  a ∈ subscribers (step cl o).1 /\
  exists q', heap (step cl o).1 !! a = Some q' /\
             items q' = items q ++ (step cl o).2.
Proof.
  intros [Hnd Hs Hh] Ha Hq Hno. destruct o; simpl in *.
  - unfold add_message.
    destruct (get_response_time _ _ _) as [? rt].
    unfold notify_subscribers.
    rewrite filter_live_id by (intros ? ? ?%Hh; tauto).
    simpl. split; [done|].
    eexists. split; [by apply foldl_put_in|done].
  - split; [apply elem_of_app; by left|].
    exists q. rewrite app_nil_r. split; [|done].
    rewrite lookup_insert_ne; [done|]. apply Hs in Ha. lia.
  - apply bool_decide_eq_false in Hno.
    unfold unsubscribe. case_bool_decide; simpl.
    + split; [apply remove_first_other; [congruence|done]|].
      exists q. by rewrite app_nil_r.
    + split; [done|]. exists q. by rewrite app_nil_r.
  - unfold queue_get.
    destruct (heap cl !! a0) as [q0|] eqn:E;
      [destruct (items q0 !! taken q0) eqn:E'|]; simpl.
    + split; [done|]. destruct (decide (a0 = a)) as [->|Hne].
      * rewrite lookup_insert_eq. eexists; split; [done|]. simpl.
        rewrite app_nil_r. congruence.
      * rewrite lookup_insert_ne by done. exists q. by rewrite app_nil_r.
    + split; [done|]. exists q. by rewrite app_nil_r.
    + split; [done|]. exists q. by rewrite app_nil_r.
  - split; [done|]. exists q. by rewrite app_nil_r.
Qed.

(** One call, seen from a queue that is no longer subscribed: it stays out
    of the subscriber list and nothing is put on it. *)
Lemma step_unsubscribed cl o a q :
  wf cl -> a ∉ subscribers cl -> heap cl !! a = Some q ->
  (a ∉ subscribers (step cl o).1) /\
  exists q', heap (step cl o).1 !! a = Some q' /\ items q' = items q.
Proof.
  intros [Hnd Hs Hh] Ha Hq. destruct o; simpl in *.
  - unfold add_message.
    destruct (get_response_time _ _ _) as [? rt].
    unfold notify_subscribers.
    rewrite filter_live_id by (intros ? ? ?%Hh; tauto).
    simpl. split; [done|].
    exists q. by rewrite foldl_put_notin.
  - split.
    + intros [?| ->%list_elem_of_singleton]%elem_of_app; [done|].
      apply Hh in Hq. lia.
    + exists q. split; [|done]. rewrite lookup_insert_ne; [done|].
      apply Hh in Hq. lia.
  - unfold unsubscribe. case_bool_decide; simpl.
    + split; [|by exists q]. by intros ?%remove_first_subseteq.
    + split; [done|by exists q].
  - unfold queue_get.
    destruct (heap cl !! a0) as [q0|] eqn:E;
      [destruct (items q0 !! taken q0) eqn:E'|]; simpl.
    + split; [done|]. destruct (decide (a0 = a)) as [->|Hne].
      * rewrite lookup_insert_eq. eexists; split; [done|]. simpl. congruence.
      * rewrite lookup_insert_ne by done. by exists q.
    + split; [done|by exists q].
    + split; [done|by exists q].
  - split; [done|by exists q].
Qed.

Lemma run_subscribed ops : forall cl a q,
  wf cl -> a ∈ subscribers cl -> heap cl !! a = Some q ->
  forallb (fun o => negb (is_unsubscribe_of a o)) ops = true ->
  (a ∈ subscribers (run cl ops).1) /\
  exists q', heap (run cl ops).1 !! a = Some q' /\
             items q' = items q ++ (run cl ops).2.
Proof.
  induction ops as [|o ops IH]; intros cl a q Hwf Ha Hq Hno; simpl.
  - split; [done|]. exists q. by rewrite app_nil_r.
  - simpl in Hno. apply andb_true_iff in Hno as [Ho Hno].
    apply negb_true_iff in Ho.
    destruct (step_subscribed cl o a q Hwf Ha Hq Ho) as (Ha1 & q1 & Hq1 & Hi1).
    pose proof (step_wf cl o Hwf) as Hwf1.
    destruct (step cl o) as [cl1 ms1]. simpl in *.
    destruct (IH cl1 a q1 Hwf1 Ha1 Hq1 Hno) as (Ha2 & q2 & Hq2 & Hi2).
    destruct (run cl1 ops) as [cl2 ms2]. simpl in *.
    split; [done|]. exists q2. split; [done|].
    by rewrite Hi2, Hi1, app_assoc.
Qed.

Lemma run_unsubscribed ops : forall cl a q,
  wf cl -> a ∉ subscribers cl -> heap cl !! a = Some q ->
  (a ∉ subscribers (run cl ops).1) /\
  exists q', heap (run cl ops).1 !! a = Some q' /\ items q' = items q.
Proof.
  induction ops as [|o ops IH]; intros cl a q Hwf Ha Hq; simpl.
  - split; [done|by exists q].
  - destruct (step_unsubscribed cl o a q Hwf Ha Hq) as (Ha1 & q1 & Hq1 & Hi1).
    pose proof (step_wf cl o Hwf) as Hwf1.
    destruct (step cl o) as [cl1 ms1]. simpl in *.
    destruct (IH cl1 a q1 Hwf1 Ha1 Hq1) as (Ha2 & q2 & Hq2 & Hi2).
    destruct (run cl1 ops) as [cl2 ms2]. simpl in *.
    split; [done|]. exists q2. split; [done|congruence].
Qed.

End ChatLogSubscriptions.

(** C2. Take any session prefix [before], call [subscribe], run any calls
    [during] that do not unsubscribe the returned queue, then [unsubscribe]
    it and run any calls [after].  The queue starts empty; while subscribed
    it is in the subscriber list and what was put on it is exactly the list
    of messages created since the [subscribe] call, in creation order, with
    pairwise distinct, increasing identifiers (so each one once), none of
    them a message created before the call; after [unsubscribe] it is not in
    the subscriber list, stays out of it, and receives nothing more. *)
Theorem C2_subscription_delivery
  (N : nat) (before during after : list ChatLog.Op) :
  let r0 := ChatLog.run (ChatLog.init N) before in
  let s := ChatLog.subscribe r0.1 in
  let q := s.2 in
  let r1 := ChatLog.run s.1 during in
  let r2 := ChatLog.run (ChatLog.unsubscribe q r1.1) after in
  forallb (fun o => negb (ChatLog.is_unsubscribe_of q o)) during = true ->
  ChatLog.queue_items q s.1 = [] /\
  (q ∈ ChatLog.subscribers r1.1) /\
  ChatLog.queue_items q r1.1 = r1.2 /\
  map ChatLog.message_id (ChatLog.queue_items q r1.1)
    = seq (S (length r0.2)) (length r1.2) /\
  (forall m, m ∈ r0.2 -> m ∉ ChatLog.queue_items q r1.1) /\
  (q ∉ ChatLog.subscribers (ChatLog.unsubscribe q r1.1)) /\
  (q ∉ ChatLog.subscribers r2.1) /\
  ChatLog.queue_items q r2.1 = r1.2.
Proof.
  intros r0 s q r1 r2 Hno.
  assert (Hwf0 : wf r0.1) by (apply run_wf, wf_init).
  assert (Hwf1 : wf s.1) by apply (step_wf r0.1 ChatLog.OpSubscribe Hwf0).
  assert (Hq0 : ChatLog.heap s.1 !! q = Some (ChatLog.mkQueue [] 0 false)).
  { subst s q. simpl. by rewrite lookup_insert_eq. }
  assert (Hin0 : q ∈ ChatLog.subscribers s.1).
  { subst s q. simpl. apply elem_of_app. right. by apply list_elem_of_singleton. }
  destruct (run_subscribed during s.1 q _ Hwf1 Hin0 Hq0 Hno)
    as (Hin1 & q1 & Hq1 & Hi1).
  fold r1 in Hin1, Hq1, Hi1. simpl in Hi1.
  assert (Hitems1 : ChatLog.queue_items q r1.1 = r1.2).
  { unfold ChatLog.queue_items. by rewrite Hq1. }
  assert (Hwfr1 : wf r1.1) by (apply run_wf, Hwf1).
  (* identifiers *)
  destruct (ChatLog.run (ChatLog.init N) before) as [cl0 ms0] eqn:E0.
  destruct (run_window _ _ _ _ E0) as (Hm0 & Hc0 & Hid0 & Hw0); [simpl; lia|].
  simpl in Hc0, Hid0, Hw0, Hm0.
  assert (Hlen0 : length (ChatLog.messages s.1) <= ChatLog.maxlen s.1).
  { subst s r0. simpl. rewrite Hw0, Hm0, length_last_n. lia. }
  destruct (ChatLog.run s.1 during) as [cl1 ms1] eqn:E1.
  destruct (run_window _ _ _ _ E1 Hlen0) as (_ & _ & Hid1 & _).
  assert (Hids : map ChatLog.message_id ms1 = seq (S (length ms0)) (length ms1)).
  { rewrite Hid1. subst s r0. simpl. by rewrite Hc0. }
  (* after unsubscribe *)
  assert (Hwfu : wf (ChatLog.unsubscribe q r1.1))
    by apply (step_wf r1.1 (ChatLog.OpUnsubscribe q) Hwfr1).
  assert (Hout : q ∉ ChatLog.subscribers (ChatLog.unsubscribe q r1.1)).
  { unfold ChatLog.unsubscribe. rewrite bool_decide_true by done. simpl.
    apply remove_first_gone, Hwfr1. }
  assert (Hqu : ChatLog.heap (ChatLog.unsubscribe q r1.1) !! q = Some q1).
  { unfold ChatLog.unsubscribe. by rewrite bool_decide_true by done. }
  destruct (run_unsubscribed after _ q q1 Hwfu Hout Hqu)
    as (Hout2 & q2 & Hq2 & Hi2).
  fold r2 in Hout2, Hq2.
  change (r1.2) with ms1 in *. change (r1.1) with cl1 in *.
  change (r0.2) with ms0 in *.
  split; [unfold ChatLog.queue_items; by rewrite Hq0|].
  split; [done|]. split; [done|].
  split; [by rewrite Hitems1|].
  split.
  { intros m Hm Hm'. rewrite Hitems1 in Hm'.
    apply list_elem_of_In, (in_map ChatLog.message_id), list_elem_of_In in Hm.
    apply list_elem_of_In, (in_map ChatLog.message_id), list_elem_of_In in Hm'.
    rewrite Hid0 in Hm. rewrite Hids in Hm'.
    apply elem_of_seq in Hm, Hm'. lia. }
  split; [done|]. split; [done|].
  unfold ChatLog.queue_items. rewrite Hq2. congruence.
Qed.

(** A run of [C2_subscription_delivery]: one message before the
    subscription, two after it with a [get] in between, one after the
    [unsubscribe]. *)
Lemma C2_subscription_delivery_witness :
  let before := [ChatLog.OpAdd "Alice" "early" "chat" [] 0 0] in
  let during := [ChatLog.OpAdd "Bob" "one" "chat" [] 1 1; ChatLog.OpGet 0;
                 ChatLog.OpAdd "Alice" "two" "chat" [] 2 2] in
  let after := [ChatLog.OpAdd "Bob" "late" "chat" [] 3 3] in
  let q := (ChatLog.subscribe (ChatLog.run (ChatLog.init 3) before).1).2 in
  let r2 := ChatLog.run (ChatLog.unsubscribe q
              (ChatLog.run (ChatLog.subscribe
                 (ChatLog.run (ChatLog.init 3) before).1).1 during).1) after in
  forallb (fun o => negb (ChatLog.is_unsubscribe_of q o)) during = true /\
  map ChatLog.content (ChatLog.queue_items q r2.1) = ["one"; "two"].
Proof.
  intros before during after q r2.
  assert (H : forallb (fun o => negb (ChatLog.is_unsubscribe_of q o)) during
              = true) by reflexivity.
  split; [exact H|].
  pose proof (C2_subscription_delivery 3 before during after H) as Hthm.
  cbv zeta in Hthm.
  destruct Hthm as (_ & _ & _ & _ & _ & _ & _ & Heq).
  unfold r2, q. rewrite Heq. reflexivity.
Defined.

(** ** Bots: the decision, the cooldown and the monitoring loop *)
Section BotFacts.
Import Bot.

(** Arithmetic of the cooldown formula. *)
Lemma inject_nat_le (n m : nat) :
  n <= m -> (inject_Z (Z.of_nat n) <= inject_Z (Z.of_nat m))%Q.
Proof. intros H. rewrite <- Zle_Qle. lia. Qed.

Lemma recompute_cooldown_mono cfg (n m : nat) :
  n <= m -> (recompute_cooldown cfg n <= recompute_cooldown cfg m)%Q.
Proof.
  intros H. apply inject_nat_le in H. unfold recompute_cooldown.
  set (lo := inject_Z (min_cooldown cfg)) in *.
  set (hi := inject_Z (max_cooldown cfg)) in *.
  set (a := inject_Z (Z.of_nat n)) in *.
  set (b := inject_Z (Z.of_nat m)) in *.
  destruct (Q.max_spec lo (lo + a * 0.5)) as [[? Ea]|[? Ea]];
  destruct (Q.max_spec lo (lo + b * 0.5)) as [[? Eb]|[? Eb]];
  destruct (Q.min_spec (Qmax lo (lo + a * 0.5)) hi) as [[? Ec]|[? Ec]];
  destruct (Q.min_spec (Qmax lo (lo + b * 0.5)) hi) as [[? Ed]|[? Ed]];
  lra.
Qed.

Lemma recompute_cooldown_bounds cfg (n : nat) :
  (min_cooldown cfg <= max_cooldown cfg)%Z ->
  (inject_Z (min_cooldown cfg) <= recompute_cooldown cfg n
   <= inject_Z (max_cooldown cfg))%Q.
Proof.
  intros H. rewrite Zle_Qle in H. unfold recompute_cooldown.
  assert (Hn : (0 <= inject_Z (Z.of_nat n))%Q)
    by (change 0%Q with (inject_Z (Z.of_nat 0)); apply inject_nat_le; lia).
  set (lo := inject_Z (min_cooldown cfg)) in *.
  set (hi := inject_Z (max_cooldown cfg)) in *.
  set (a := inject_Z (Z.of_nat n)) in *.
  destruct (Q.max_spec lo (lo + a * 0.5)) as [[? Ea]|[? Ea]];
  destruct (Q.min_spec (Qmax lo (lo + a * 0.5)) hi) as [[? Ec]|[? Ec]];
  lra.
Qed.

Lemma recompute_cooldown_zero cfg :
  (min_cooldown cfg <= max_cooldown cfg)%Z ->
  (recompute_cooldown cfg 0 == inject_Z (min_cooldown cfg))%Q.
Proof.
  intros H. rewrite Zle_Qle in H. unfold recompute_cooldown.
  change (inject_Z (Z.of_nat 0)) with 0%Q.
  set (lo := inject_Z (min_cooldown cfg)) in *.
  set (hi := inject_Z (max_cooldown cfg)) in *.
  destruct (Q.max_spec lo (lo + 0 * 0.5)) as [[? Ea]|[? Ea]];
  destruct (Q.min_spec (Qmax lo (lo + 0 * 0.5)) hi) as [[? Ec]|[? Ec]];
  lra.
Qed.

(** The fields that pace a bot: the two bounds, the number of actions, the
    cooldown and the time of the last action. *)
Definition same_pace (b b' : t) : Prop :=
  min_cooldown (config b') = min_cooldown (config b) /\
  max_cooldown (config b') = max_cooldown (config b) /\
  total_responses b' = total_responses b /\
  current_cooldown b' = current_cooldown b /\
  last_response_time b' = last_response_time b.

Lemma same_pace_refl b : same_pace b b.
Proof. by repeat split. Qed.

Lemma same_pace_trans b1 b2 b3 :
  same_pace b1 b2 -> same_pace b2 b3 -> same_pace b1 b3.
Proof. unfold same_pace. intros (?&?&?&?&?) (?&?&?&?&?). repeat split; congruence. Qed.

(** A generation attempt either posts, and then sets the pace fields as
    the success branch says, or changes nothing but the statistics. *)
Lemma generate_posted gen clk b cl m b' cl' :
  generate_autonomous_response gen clk b cl = (Posted m, b', cl') ->
  ChatLog.timestamp m = t_post clk /\
  ChatLog.sender m = name (config b) /\
  config b' = config b /\
  is_monitoring b' = is_monitoring b /\
  last_response_time b' = t_acted clk /\
  total_responses b' = S (total_responses b) /\
  current_cooldown b' = recompute_cooldown (config b) (S (total_responses b)).
Proof.
  unfold generate_autonomous_response.
  destruct gen as [text|err]; [|discriminate].
  destruct (PyStr.has_text text); [|discriminate].
  unfold ChatLog.add_message.
  destruct (ChatLog.get_response_time _ _ _) as [? rt].
  destruct (ChatLog.notify_subscribers _ _ _) as [subs h].
  intros [= <- <- <-]. simpl. by repeat split.
Qed.

Lemma generate_not_posted gen clk b cl a b' cl' :
  generate_autonomous_response gen clk b cl = (a, b', cl') ->
  (forall m, a <> Posted m) ->
  b' = with_stats (stats b') b /\ cl' = cl.
Proof.
  unfold generate_autonomous_response.
  destruct gen as [text|err].
  - destruct (PyStr.has_text text).
    + destruct (ChatLog.add_message _ _ _ _ _ _ _) as [cl1 m].
      intros [= <- <- <-] H. by destruct (H m).
    + intros [= <- <- <-] _. by destruct b.
  - intros [= <- <- <-] _. by destruct b.
Qed.

(** The decision changes only the statistics when it is to respond, and
    only the statistics and the count of missed opportunities when not. *)
Lemma should_respond_true m h now d b b' :
  should_respond_autonomously m h now d b = (true, b') ->
  b' = with_stats (stats b') b.
Proof.
  unfold should_respond_autonomously.
  destruct (direct_mention _).
  - intros [= <-]. by destruct b.
  - destruct (Qltb _ _); [|discriminate].
    intros [= <-]. by destruct b.
Qed.

Lemma should_respond_frame m h now d b :
  let b' := (should_respond_autonomously m h now d b).2 in
  config b' = config b /\ is_monitoring b' = is_monitoring b /\
  same_pace b b'.
Proof.
  unfold should_respond_autonomously.
  destruct (direct_mention _); [by repeat split|].
  destruct (Qltb _ _); by repeat split.
Qed.

(** What a monitoring cycle can do to the pace of a bot. *)
Definition posted_step (e : CycleEnv) (b : t) (m : ChatLog.Message)
  (b' : t) : Prop :=
  in_cooldown (now_gate e) b = false /\
  ChatLog.timestamp m = t_post (clk e) /\
  ChatLog.sender m = name (config b) /\
  config b' = config b /\
  is_monitoring b' = is_monitoring b /\
  last_response_time b' = t_acted (clk e) /\
  total_responses b' = S (total_responses b) /\
  current_cooldown b' = recompute_cooldown (config b) (S (total_responses b)).

Definition quiet_step (b : t) (cl : ChatLog.t) (b' : t) (cl' : ChatLog.t)
  : Prop :=
  config b' = config b /\ is_monitoring b' = is_monitoring b /\
  same_pace b b' /\ ChatLog.messages cl' = ChatLog.messages cl.

Definition cycle_spec (e : CycleEnv) (b : t) (cl : ChatLog.t)
  (r : Outcome * t * ChatLog.t) : Prop :=
  match r.1.1 with
  | Attempted (Posted m) => posted_step e b m r.1.2
  | _ => quiet_step b cl r.1.2 r.2
  end.

Lemma quiet_step_refl b cl : quiet_step b cl b cl.
Proof. by repeat split. Qed.

Lemma generate_spec e b0 b cl (f : Stats -> Stats) :
  in_cooldown (now_gate e) b0 = false ->
  b = with_stats (stats b) b0 ->
  cycle_spec e b0 cl
    (let '(a, b1, cl1) := generate_autonomous_response (gen e) (clk e) b cl in
     (Attempted a, with_stats (f (stats b1)) b1, cl1)).
Proof.
  intros Hgate Hb.
  destruct (generate_autonomous_response _ _ _ _) as [[a b1] cl1] eqn:E.
  unfold cycle_spec. simpl. destruct a as [m| |err].
  - apply generate_posted in E as (?&?&?&?&?&?&?).
    rewrite Hb in *. simpl in *. by repeat split.
  - apply generate_not_posted in E as [E1 ->]; [|done].
    rewrite E1, Hb. by repeat split.
  - apply generate_not_posted in E as [E1 ->]; [|done].
    rewrite E1, Hb. by repeat split.
Qed.

Lemma with_stats_id b : with_stats (stats b) b = b.
Proof. by destruct b. Qed.

Lemma process_new_message_spec message e b cl :
  cycle_spec e b cl (process_new_message message e b cl).
Proof.
  unfold process_new_message.
  destruct (in_cooldown (now_gate e) b) eqn:Hgate.
  { unfold cycle_spec. simpl. by repeat split. }
  destruct (should_respond_autonomously _ _ _ _ _) as [go b1] eqn:E.
  destruct go.
  - apply should_respond_true in E.
    pose proof (generate_spec e b b1 cl (fun s => s) Hgate) as H.
    destruct (generate_autonomous_response _ _ _ _) as [[a b2] cl2].
    rewrite with_stats_id in H. apply H.
    rewrite E. by destruct b.
  - pose proof (should_respond_frame message (ChatLog.messages cl)
                  (now_scan e) (draw e) b) as H.
    rewrite E in H. simpl in H.
    unfold cycle_spec, quiet_step. simpl. tauto.
Qed.

Lemma check_spontaneous_spec e b cl :
  cycle_spec e b cl (check_spontaneous_contribution e b cl).
Proof.
  unfold check_spontaneous_contribution.
  destruct (has_chat_log b); simpl; [|apply quiet_step_refl].
  destruct (in_cooldown (now_gate e) b) eqn:Hgate.
  { unfold cycle_spec. simpl. by repeat split. }
  destruct (last (ChatLog.messages cl)) as [lastm|]; [|apply quiet_step_refl].
  destruct (Qltb (threshold e) _).
  - destruct (_ =? 0)%nat; [|apply quiet_step_refl].
    destruct (Qltb (draw e) _); [|apply quiet_step_refl].
    apply generate_spec; [done|by destruct b].
  - destruct (_ && _); [|apply quiet_step_refl].
    apply generate_spec; [done|by destruct b].
Qed.

Lemma queue_get_messages q cl :
  ChatLog.messages (ChatLog.queue_get q cl).1 = ChatLog.messages cl.
Proof.
  unfold ChatLog.queue_get.
  destruct (ChatLog.heap cl !! q) as [qu|]; [|done].
  by destruct (ChatLog.items qu !! ChatLog.taken qu).
Qed.

Lemma cycle_spec_log e b cl cl0 r :
  ChatLog.messages cl = ChatLog.messages cl0 ->
  cycle_spec e b cl r -> cycle_spec e b cl0 r.
Proof.
  unfold cycle_spec, quiet_step. intros Hm.
  destruct r.1.1 as [| | | | |[m| |err]]; try done;
    intros (?&?&?&?); (split; [done|split; [done|split; [done|congruence]]]).
Qed.

Lemma monitor_cycle_spec e b cl :
  cycle_spec e b cl (monitor_cycle e b cl).
Proof.
  unfold monitor_cycle.
  destruct (message_queue b) as [q|]; [|apply check_spontaneous_spec].
  pose proof (queue_get_messages q cl) as Hm.
  destruct (ChatLog.queue_get q cl) as [cl1 [message|]]; simpl in Hm.
  - case_bool_decide.
    + unfold cycle_spec. simpl. by repeat split.
    + eapply cycle_spec_log; [exact Hm|apply process_new_message_spec].
  - eapply cycle_spec_log; [exact Hm|apply check_spontaneous_spec].
Qed.

(** One event either is a cycle that posts, or leaves the pace alone. *)
Lemma step_spec b cl ev o b' cl' :
  step b cl ev = (o, b', cl') ->
  match o with
  | Some (Attempted (Posted m)) =>
      exists e, ev = EvCycle e /\ posted_step e b m b'
  | _ => same_pace b b'
  end.
Proof.
  destruct ev; cbn [step].
  - unfold start_autonomous_monitoring, ChatLog.subscribe.
    intros [= <- <- <-]. by repeat split.
  - destruct (is_monitoring b); [|intros [= <- <- <-]; by repeat split].
    pose proof (monitor_cycle_spec e b cl) as H. unfold cycle_spec in H.
    destruct (monitor_cycle e b cl) as [[o1 b1] cl1]. simpl in *.
    intros [= <- <- <-].
    destruct o1 as [| | | | |[m| |err]]; try apply H.
    by exists e.
  - unfold stop_monitoring.
    destruct (message_queue b), (has_chat_log b);
      intros [= <- <- <-]; by repeat split.
  - intros [= <- <- <-]. by repeat split.
  - intros [= <- <- <-]. by repeat split.
  - intros [= <- <- <-].
    unfold receive_message. case_bool_decide; by repeat split.
  - intros [= <- <- <-]. destruct gen0; by repeat split.
  - intros [= <- <- <-]. by repeat split.
Qed.

(** The cooldown is the recomputation formula at the number of actions
    taken, between bounds [lo <= hi] that never change. *)
Definition paced (lo hi : Z) (b : t) : Prop :=
  min_cooldown (config b) = lo /\ max_cooldown (config b) = hi /\
  (current_cooldown b ==
     recompute_cooldown (config b) (total_responses b))%Q.

Lemma recompute_cooldown_ext c c' n :
  min_cooldown c' = min_cooldown c -> max_cooldown c' = max_cooldown c ->
  recompute_cooldown c' n = recompute_cooldown c n.
Proof. unfold recompute_cooldown. by intros -> ->. Qed.

Lemma step_paced lo hi b cl ev o b' cl' :
  step b cl ev = (o, b', cl') ->
  paced lo hi b ->
  paced lo hi b' /\
  total_responses b <= total_responses b' /\
  (current_cooldown b <= current_cooldown b')%Q.
Proof.
  intros E (Hlo & Hhi & Hcd). apply step_spec in E.
  assert (Hcases :
    same_pace b b' \/
    (config b' = config b /\
     total_responses b' = S (total_responses b) /\
     current_cooldown b'
       = recompute_cooldown (config b) (S (total_responses b)))).
  { destruct o as [[| | | | |[m| |err]]|]; try (by left).
    unfold posted_step in E.
    destruct E as (e & _ & _ & _ & _ & Hc & _ & _ & Ht & Hn). by right. }
  destruct Hcases as [(H1 & H2 & H3 & H4 & H5)|(Hc & Ht & Hn)].
  - split; [split; [congruence|split; [congruence|]]|split; [lia|]].
    + rewrite H4, H3, Hcd. by rewrite (recompute_cooldown_ext _ _ _ H1 H2).
    + rewrite H4. apply Qle_refl.
  - split; [split; [congruence|split; [congruence|]]|split; [lia|]].
    + rewrite Hn, Ht, Hc. reflexivity.
    + rewrite Hn, Hcd. apply recompute_cooldown_mono. lia.
Qed.

Lemma run_paced lo hi evs : forall b cl ps b' cl',
  run b cl evs = (ps, b', cl') ->
  paced lo hi b ->
  paced lo hi b' /\
  total_responses b <= total_responses b' /\
  (current_cooldown b <= current_cooldown b')%Q.
Proof.
  induction evs as [|ev evs IH]; intros b cl ps b' cl'; simpl.
  - intros [= <- <- <-] Hp. repeat split; try apply Hp. lia. apply Qle_refl.
  - destruct (step b cl ev) as [[o b1] cl1] eqn:E1.
    destruct (run b1 cl1 evs) as [[ps2 b2] cl2] eqn:E2.
    intros [= <- <- <-] Hp.
    destruct (step_paced lo hi _ _ _ _ _ _ E1 Hp) as (Hp1 & Ht1 & Hc1).
    destruct (IH _ _ _ _ _ E2 Hp1) as (Hp2 & Ht2 & Hc2).
    split; [done|]. split; [lia|]. by eapply Qle_trans.
Qed.

Lemma init_paced n mo pr pe st te mt bq b :
  init n mo pr pe st te mt bq = inr b ->
  paced 5 12 b /\ current_cooldown b = inject_Z (min_cooldown (config b)).
Proof.
  unfold init. destruct (_ || _); [|discriminate].
  intros [= <-]. simpl. repeat split.
Qed.

Lemma run_app b cl evs1 evs2 :
  run b cl (evs1 ++ evs2) =
  let '(ps1, b1, cl1) := run b cl evs1 in
  let '(ps2, b2, cl2) := run b1 cl1 evs2 in
  (ps1 ++ ps2, b2, cl2).
Proof.
  revert b cl. induction evs1 as [|ev evs1 IH]; intros b cl; simpl.
  - by destruct (run b cl evs2) as [[ps2 b2] cl2].
  - destruct (step b cl ev) as [[o b1] cl1]. rewrite IH.
    destruct (run b1 cl1 evs1) as [[ps1 b2] cl2].
    destruct (run b2 cl2 evs2) as [[ps2 b3] cl3].
    by rewrite app_assoc.
Qed.

(** *** Spacing of the posts *)

#[local] Instance Qle_transitive : Transitive Qle := Qle_trans.












(** *** Failed generations *)

Lemma generate_failed g c b cl :
  generation_failed g = true ->
  exists a s,
    generate_autonomous_response g c b cl = (a, with_stats s b, cl) /\
    (forall m, a <> Posted m) /\
    failure_recorded g (stats b) s.
Proof.
  unfold generate_autonomous_response. destruct g as [text|err]; simpl.
  - intros ->%negb_true_iff.
    exists EmptyResponse, (add_pass (stats b)). by repeat split.
  - intros _.
    exists (Failed err),
           (update_stats (t_stats c - t_start c) false (stats b)).
    by repeat split.
Qed.

Lemma should_respond_true_stats m h now d b b' :
  should_respond_autonomously m h now d b = (true, b') ->
  exists n, b' = with_stats (add_triggers n (stats b)) b.
Proof.
  unfold should_respond_autonomously.
  destruct (direct_mention _).
  - intros [= <-]. by eexists.
  - destruct (Qltb _ _); [|discriminate].
    intros [= <-]. by eexists.
Qed.

Lemma failure_recorded_ext g s s1 s2 :
  errors s2 = errors s1 -> passes_made s2 = passes_made s1 ->
  failure_recorded g s s1 -> failure_recorded g s s2.
Proof. unfold failure_recorded. destruct g; intros -> ->; done. Qed.

Lemma failure_recorded_from g s0 s s' :
  errors s = errors s0 -> passes_made s = passes_made s0 ->
  failure_recorded g s s' -> failure_recorded g s0 s'.
Proof. unfold failure_recorded. destruct g; intros <- <-; done. Qed.

(** The result of a cycle whose generation attempt fails. *)
Definition failed_cycle (e : CycleEnv) (b : t) (cl : ChatLog.t)
  (r : Outcome * t * ChatLog.t) : Prop :=
  match r.1.1 with
  | Attempted a =>
      (forall m, a <> Posted m) /\
      r.1.2 = with_stats (stats r.1.2) b /\
      failure_recorded (gen e) (stats b) (stats r.1.2) /\
      r.2 = cl
  | _ => True
  end.

Lemma process_failed message e b cl :
  generation_failed (gen e) = true ->
  failed_cycle e b cl (process_new_message message e b cl).
Proof.
  intros Hf. unfold process_new_message.
  destruct (in_cooldown _ _); [done|].
  destruct (should_respond_autonomously _ _ _ _ _) as [go b1] eqn:E.
  destruct go; [|done].
  apply should_respond_true_stats in E as [n ->].
  destruct (generate_failed (gen e) (clk e)
              (with_stats (add_triggers n (stats b)) b) cl Hf)
    as (a & s & -> & Ha & Hrec).
  unfold failed_cycle. simpl. repeat split; [done|].
  eapply failure_recorded_from; [| |exact Hrec]; done.
Qed.

Lemma spontaneous_failed e b cl :
  generation_failed (gen e) = true ->
  failed_cycle e b cl (check_spontaneous_contribution e b cl).
Proof.
  intros Hf. unfold check_spontaneous_contribution.
  destruct (has_chat_log b); simpl; [|done].
  destruct (in_cooldown _ _); [done|].
  destruct (last (ChatLog.messages cl)) as [lastm|]; [|done].
  destruct (generate_failed (gen e) (clk e) b cl Hf)
    as (a & s & E & Ha & Hrec).
  destruct (Qltb (threshold e) _).
  - destruct (_ =? 0)%nat; [|done].
    destruct (Qltb (draw e) _); [|done].
    rewrite E. unfold failed_cycle. simpl. repeat split; [done|].
    eapply failure_recorded_ext; [| |exact Hrec]; done.
  - destruct (_ && _); [|done].
    rewrite E. unfold failed_cycle. simpl. repeat split; [done|].
    eapply failure_recorded_ext; [| |exact Hrec]; done.
Qed.

End BotFacts.



(** C9. For every bot that [BotClient.__init__] creates: the cooldown
    starts at [min_cooldown]; the recomputation made after a successful
    action is non-decreasing in the number of actions and lands between
    [min_cooldown] and [max_cooldown]; and along every sequence of events
    (monitoring cycles, structured turns, resets, personality updates, start
    and stop, traffic of the other participants) the cooldown stays between
    the two bounds and is never smaller at a later point than at an earlier
    one. *)
Theorem C9_cooldown_bounded_nondecreasing
  (name model provider personality stance : string) (temperature : Q)
  (max_tokens : Z) (burning : list string) (b0 : Bot.t) :
  Bot.init name model provider personality stance temperature max_tokens
    burning = inr b0 ->
  Bot.current_cooldown b0 = inject_Z (Bot.min_cooldown (Bot.config b0)) /\
  (forall n m : nat, n <= m ->
     (Bot.recompute_cooldown (Bot.config b0) n
      <= Bot.recompute_cooldown (Bot.config b0) m)%Q) /\
  (forall n : nat,
     (inject_Z (Bot.min_cooldown (Bot.config b0))
      <= Bot.recompute_cooldown (Bot.config b0) n
      <= inject_Z (Bot.max_cooldown (Bot.config b0)))%Q) /\
  forall (cl0 : ChatLog.t) (earlier later : list Bot.Event),
    let b1 := (Bot.run b0 cl0 earlier).1.2 in
    let b2 := (Bot.run b0 cl0 (earlier ++ later)).1.2 in
    Bot.min_cooldown (Bot.config b1) = Bot.min_cooldown (Bot.config b0) /\
    Bot.max_cooldown (Bot.config b1) = Bot.max_cooldown (Bot.config b0) /\
    (inject_Z (Bot.min_cooldown (Bot.config b1)) <= Bot.current_cooldown b1
     <= inject_Z (Bot.max_cooldown (Bot.config b1)))%Q /\
    (Bot.current_cooldown b1 <= Bot.current_cooldown b2)%Q.
Proof.
  intros Hinit. destruct (init_paced _ _ _ _ _ _ _ _ _ Hinit) as [Hp H0].
  destruct (Hp) as (Hlo & Hhi & _).
  split; [done|]. split; [intros; by apply recompute_cooldown_mono|].
  split; [intros; apply recompute_cooldown_bounds; lia|].
  intros cl0 earlier later b1 b2. subst b1 b2. rewrite run_app.
  destruct (Bot.run b0 cl0 earlier) as [[ps1 b1] cl1] eqn:E1.
  destruct (Bot.run b1 cl1 later) as [[ps2 b2] cl2] eqn:E2. simpl.
  destruct (run_paced 5 12 _ _ _ _ _ _ E1 Hp) as (Hp1 & _ & _).
  destruct (run_paced 5 12 _ _ _ _ _ _ E2 Hp1) as (_ & _ & Hc2).
  destruct Hp1 as (Hlo1 & Hhi1 & Hcd1).
  split; [congruence|]. split; [congruence|].
  split; [|done].
  rewrite Hcd1. apply recompute_cooldown_bounds. lia.
Qed.

(** A bot created by [BotClient.__init__] that starts monitoring, is
    addressed by name and answers: its cooldown goes from 5 to 5.5. *)
Lemma C9_cooldown_bounded_nondecreasing_witness :
  exists b0,
    Bot.init "Socrates" "gpt-4" "OpenAI" "philosophical" "neutral" 0.8 120 []
      = inr b0 /\
    forall cl0 earlier later,
      (Bot.current_cooldown (Bot.run b0 cl0 earlier).1.2
       <= Bot.current_cooldown (Bot.run b0 cl0 (earlier ++ later)).1.2)%Q.
Proof.
  eexists. split; [reflexivity|].
  intros cl0 earlier later.
  eapply (C9_cooldown_bounded_nondecreasing "Socrates" "gpt-4" "OpenAI"
            "philosophical" "neutral" 0.8 120 [] _ eq_refl).
Defined.



(** C6. Let the provider call fail, by raising or by returning a text that
    is empty once stripped.  Then [_generate_autonomous_response] posts
    nothing, leaves the chat log as it was and changes nothing in the bot
    but its statistics, where the failure is counted (an error for an
    exception, a pass for an empty text): [last_response_time],
    [current_cooldown], [response_urgency], [missed_opportunities] are what
    they were.  And a monitoring cycle that makes such an attempt leaves
    [is_monitoring] set and these fields untouched, stores no message, and
    is followed by the next cycle of the loop. *)
Theorem C6_generation_failure_keeps_loop
  (g : Bot.Generation) (b : Bot.t) (cl : ChatLog.t) :
  Bot.generation_failed g = true ->
  (forall c : Bot.GenClock,
     let r := Bot.generate_autonomous_response g c b cl in
     (forall m, r.1.1 <> Bot.Posted m) /\
     r.2 = cl /\
     r.1.2 = Bot.with_stats (Bot.stats r.1.2) b /\
     Bot.cooldown_state_kept b r.1.2 /\
     Bot.failure_recorded g (Bot.stats b) (Bot.stats r.1.2)) /\
  (forall (e e' : Bot.CycleEnv) (envs : list Bot.CycleEnv) (a : Bot.Attempt),
     Bot.gen e = g ->
     Bot.is_monitoring b = true ->
     (Bot.monitor_cycle e b cl).1.1 = Bot.Attempted a ->
     let r := Bot.monitor_cycle e b cl in
     Bot.is_monitoring r.1.2 = true /\
     Bot.cooldown_state_kept b r.1.2 /\
     Bot.failure_recorded g (Bot.stats b) (Bot.stats r.1.2) /\
     ChatLog.messages r.2 = ChatLog.messages cl /\
     Bot.autonomous_monitor_loop (e :: e' :: envs) b cl
       = (let '(o', b2, cl2) := Bot.monitor_cycle e' r.1.2 r.2 in
          let '(os, b3, cl3) := Bot.autonomous_monitor_loop envs b2 cl2 in
          (Bot.Attempted a :: o' :: os, b3, cl3))).
Proof.
  intros Hf. split.
  - intros c r. subst r.
    destruct (generate_failed g c b cl Hf) as (a & s & -> & Ha & Hrec).
    simpl. by repeat split.
  - intros e e' envs a <- Hmon Hout r.
    assert (Hfc : failed_cycle e b (Bot.monitor_cycle e b cl).2
                    (Bot.monitor_cycle e b cl) /\
                  ChatLog.messages (Bot.monitor_cycle e b cl).2
                    = ChatLog.messages cl).
    { revert Hout. unfold Bot.monitor_cycle.
      destruct (Bot.message_queue b) as [q|].
      - pose proof (queue_get_messages q cl) as Hm.
        destruct (ChatLog.queue_get q cl) as [cl1 [message|]]; simpl in Hm.
        + case_bool_decide; [discriminate|].
          pose proof (process_failed message e b cl1 Hf) as Hfail.
          unfold failed_cycle in *.
          destruct (Bot.process_new_message message e b cl1)
            as [[o b1] cl2]. simpl in *.
          intros ->. destruct Hfail as (?&?&?&->). by repeat split.
        + pose proof (spontaneous_failed e b cl1 Hf) as Hfail.
          unfold failed_cycle in *.
          destruct (Bot.check_spontaneous_contribution e b cl1)
            as [[o b1] cl2]. simpl in *.
          intros ->. destruct Hfail as (?&?&?&->). by repeat split.
      - pose proof (spontaneous_failed e b cl Hf) as Hfail.
        unfold failed_cycle in *.
        destruct (Bot.check_spontaneous_contribution e b cl)
          as [[o b1] cl2]. simpl in *.
        intros ->. destruct Hfail as (?&?&?&->). by repeat split. }
    destruct Hfc as [Hfc Hmsgs]. unfold failed_cycle in Hfc.
    rewrite Hout in Hfc. destruct Hfc as (Ha & Hb & Hrec & _).
    assert (Hmon' : Bot.is_monitoring r.1.2 = true).
    { subst r. rewrite Hb. simpl. exact Hmon. }
    split; [exact Hmon'|].
    split; [subst r; rewrite Hb; by repeat split|].
    split; [exact Hrec|]. split; [exact Hmsgs|].
    cbn [Bot.autonomous_monitor_loop]. rewrite Hmon.
    subst r. destruct (Bot.monitor_cycle e b cl) as [[o b1] cl1].
    simpl in *. rewrite Hmon'. subst o.
    destruct (Bot.monitor_cycle e' b1 cl1) as [[o' b2] cl2].
    by destruct (Bot.autonomous_monitor_loop envs b2 cl2) as [[os b3] cl3].
Qed.

(** Socrates is addressed by name and the provider raises: the error is
    counted, the cooldown state stays, and the loop goes on. *)
Lemma C6_generation_failure_keeps_loop_witness :
  let g := Bot.GenerationError "OpenAI API error: timeout" in
  let b := {| Bot.config :=
                Bot.mkBotConfig "Socrates" "gpt-4" "openai"
                  "philosophical" "neutral" 0.8 120 15 2 5 12 8;
              Bot.conversation_history := []; Bot.response_count := 0;
              Bot.is_monitoring := true; Bot.monitoring_task := true;
              Bot.message_queue := Some 0; Bot.has_chat_log := true;
              Bot.topic := "remote work";
              Bot.last_response_time := 0; Bot.total_responses := 0;
              Bot.current_cooldown := 5; Bot.burning_questions := [];
              Bot.conversation_energy := 1; Bot.last_silence_break := 0;
              Bot.response_urgency := 0.2; Bot.missed_opportunities := 2;
              Bot.stats := Bot.empty_stats |} in
  let cl := (ChatLog.run (ChatLog.init 10)
               [ChatLog.OpSubscribe;
                ChatLog.OpAdd "Alice" "Socrates, your view?" "chat" []
                  100 100]).1 in
  let e := Bot.mkCycleEnv 101 101 0.5 8 101 0.5 g
             (Bot.mkGenClock 101 101 102 102 102) in
  Bot.generation_failed g = true /\
  (Bot.monitor_cycle e b cl).1.1
    = Bot.Attempted (Bot.Failed "OpenAI API error: timeout") /\
  Bot.is_monitoring (Bot.monitor_cycle e b cl).1.2 = true /\
  Bot.errors (Bot.stats (Bot.monitor_cycle e b cl).1.2) = 1.
Proof.
  intros g b cl e.
  assert (Hf : Bot.generation_failed g = true) by reflexivity.
  assert (Hout : (Bot.monitor_cycle e b cl).1.1
                 = Bot.Attempted (Bot.Failed "OpenAI API error: timeout"))
    by reflexivity.
  split; [exact Hf|]. split; [exact Hout|].
  destruct (proj2 (C6_generation_failure_keeps_loop g b cl Hf)
              e e [] _ eq_refl eq_refl Hout) as (Hmon & _ & Hrec & _).
  split; [exact Hmon|].
  destruct Hrec as [Herr _]. exact Herr.
Defined.

(** ** Voting: one counted vote per voter, and the winner *)
Section VotingFacts.
Import Voting.

(** *** Insertion-ordered dictionaries *)

Lemma dict_get_set_eq {V} k (v : V) d : dict_get k (dict_set k v d) = Some v.
Proof.
  induction d as [|[k' v'] d IH]; cbn [dict_get dict_set map fst].
  - by rewrite bool_decide_true.
  - case_bool_decide; cbn [dict_get dict_set map fst].
    + by rewrite bool_decide_true.
    + by rewrite bool_decide_false.
Qed.

Lemma dict_get_set_ne {V} k k' (v : V) d :
  k <> k' -> dict_get k' (dict_set k v d) = dict_get k' d.
Proof.
  intros Hne. induction d as [|[k0 v0] d IH]; cbn [dict_get dict_set map fst].
  - by rewrite bool_decide_false.
  - case_bool_decide as Hk; cbn [dict_get dict_set map fst].
    + subst k0. by rewrite !bool_decide_false.
    + by rewrite IH.
Qed.

Lemma dict_get_None {V} k (d : list (string * V)) :
  dict_get k d = None <-> k ∉ map fst d.
Proof.
  induction d as [|[k' v'] d IH]; cbn [dict_get dict_set map fst].
  - split; [intros _; apply not_elem_of_nil|done].
  - rewrite not_elem_of_cons. case_bool_decide; split; try done.
    + intros [? _]. congruence.
    + intros H0. split; [congruence|]. by apply IH.
    + intros [_ H0]. by apply IH.
Qed.

Lemma dict_set_keys {V} k (v : V) d :
  map fst (dict_set k v d) =
  if bool_decide (k ∈ map fst d) then map fst d else map fst d ++ [k].
Proof.
  induction d as [|[k' v'] d IH]; cbn [dict_get dict_set map fst].
  - rewrite bool_decide_false; [done|apply not_elem_of_nil].
  - destruct (decide (k' = k)) as [->|Hk].
    + rewrite (bool_decide_true (k = k)) by done.
      cbn [map fst]. rewrite bool_decide_true; [done|by left].
    + rewrite (bool_decide_false (k' = k)) by done.
      cbn [map fst]. rewrite IH.
      destruct (decide (k ∈ map fst d)) as [Hin|Hin].
      * rewrite !bool_decide_true; [done|by right|done].
      * rewrite !bool_decide_false; [done| |done].
        apply not_elem_of_cons. split; [congruence|done].
Qed.

Lemma dict_set_nodup {V} k (v : V) d :
  NoDup (map fst d) -> NoDup (map fst (dict_set k v d)).
Proof.
  intros Hnd. rewrite dict_set_keys. case_bool_decide; [done|].
  apply NoDup_app. repeat split; [done| |apply NoDup_singleton].
  intros x Hx ->%list_elem_of_singleton. done.
Qed.

Lemma dict_get_elem {V} k (v : V) d :
  NoDup (map fst d) -> (dict_get k d = Some v <-> (k, v) ∈ d).
Proof.
  induction d as [|[k' v'] d IH]; cbn [dict_get dict_set map fst]; intros Hnd.
  - split; [done|]. intros H. by apply elem_of_nil in H.
  - apply NoDup_cons in Hnd as [Hk' Hnd].
    rewrite elem_of_cons. case_bool_decide as Hk.
    + subst k'. split.
      * intros [= ->]. by left.
      * intros [[= ->]|Hin]; [done|].
        exfalso. apply Hk'.
        apply list_elem_of_In, (in_map fst), list_elem_of_In in Hin. done.
    + rewrite IH by done. split; [by right|].
      intros [[= -> ->]|Hin]; [done|done].
Qed.

(** *** [Counter] *)

Definition occ (c : string) (xs : list string) : nat :=
  length (filter (fun x => x = c) xs).

Lemma occ_cons c x xs :
  occ c (x :: xs) = (if bool_decide (x = c) then 1 else 0) + occ c xs.
Proof.
  unfold occ. rewrite filter_cons. case_decide.
  - by rewrite bool_decide_true.
  - by rewrite bool_decide_false.
Qed.

(** A well-formed count table: distinct keys, positive counts. *)
Definition good (counts : list (string * nat)) : Prop :=
  NoDup (map fst counts) /\ forall k n, (k, n) ∈ counts -> 0 < n.

Lemma counter_add_good counts x : good counts -> good (counter_add counts x).
Proof.
  intros [Hnd Hpos]. split.
  - by apply dict_set_nodup.
  - intros k n Hin.
    apply dict_get_elem in Hin; [|by apply dict_set_nodup].
    unfold counter_add in Hin. destruct (decide (x = k)) as [->|Hne].
    + rewrite dict_get_set_eq in Hin. injection Hin as <-. lia.
    + rewrite dict_get_set_ne in Hin by done.
      apply dict_get_elem in Hin; [|done]. by eapply Hpos.
Qed.

Lemma counter_add_get counts x c :
  default 0 (dict_get c (counter_add counts x)) =
  default 0 (dict_get c counts) + (if bool_decide (x = c) then 1 else 0).
Proof.
  unfold counter_add. case_bool_decide as Hx.
  - subst x. rewrite dict_get_set_eq. simpl. lia.
  - rewrite dict_get_set_ne by done. lia.
Qed.

Lemma foldl_counter xs : forall counts,
  good counts ->
  good (foldl counter_add counts xs) /\
  forall c, default 0 (dict_get c (foldl counter_add counts xs)) =
            default 0 (dict_get c counts) + occ c xs.
Proof.
  induction xs as [|x xs IH]; intros counts Hg; simpl.
  - split; [done|]. intros c. unfold occ. simpl. lia.
  - destruct (IH _ (counter_add_good counts x Hg)) as [Hg' Hget].
    split; [done|]. intros c.
    rewrite Hget, counter_add_get, occ_cons. lia.
Qed.

Lemma counter_good xs : good (counter xs).
Proof.
  apply foldl_counter. split; [constructor|].
  intros k n H. by apply elem_of_nil in H.
Qed.

Lemma counter_get xs c : default 0 (dict_get c (counter xs)) = occ c xs.
Proof.
  destruct (foldl_counter xs []) as [_ H].
  { split; [constructor|]. intros k n H. by apply elem_of_nil in H. }
  apply H.
Qed.

Lemma counter_elem xs k n :
  (k, n) ∈ counter xs <-> n = occ k xs /\ 0 < n.
Proof.
  destruct (counter_good xs) as [Hnd Hpos].
  rewrite <- dict_get_elem by done.
  pose proof (counter_get xs k) as Hget. split.
  - intros H. rewrite H in Hget. simpl in Hget. split; [done|].
    apply (Hpos k). by apply dict_get_elem.
  - intros [-> Hn].
    destruct (dict_get k (counter xs)) as [m|]; simpl in Hget; [|lia].
    by subst m.
Qed.

Lemma counter_nil xs : counter xs = [] <-> xs = [].
Proof.
  split; [|by intros ->].
  destruct xs as [|x xs]; [done|]. intros H.
  assert (Hin : (x, occ x (x :: xs)) ∈ counter (x :: xs)).
  { apply counter_elem. split; [done|].
    rewrite occ_cons, bool_decide_true by done. lia. }
  rewrite H in Hin. by apply elem_of_nil in Hin.
Qed.

(** *** The maximum and the winners *)

Lemma max_votes_ge counts k n : (k, n) ∈ counts -> n <= max_votes counts.
Proof.
  unfold max_votes. induction counts as [|[k' n'] counts IH]; simpl.
  - intros H. by apply elem_of_nil in H.
  - intros [[= -> ->]|Hin]%elem_of_cons; [lia|].
    specialize (IH Hin). lia.
Qed.

Lemma max_votes_attained counts :
  counts <> [] -> exists k, (k, max_votes counts) ∈ counts.
Proof.
  unfold max_votes. induction counts as [|[k n] counts IH]; [done|].
  intros _. simpl. destruct counts as [|p counts].
  - exists k. simpl. rewrite Nat.max_0_r. by left.
  - destruct IH as [k' Hk']; [done|].
    destruct (Nat.max_spec n (foldr Nat.max 0 (map snd (p :: counts))))
      as [[_ ->]|[_ ->]].
    + exists k'. by right.
    + exists k. by left.
Qed.

Lemma winners_elem counts w :
  w ∈ winners_of counts <-> (w, max_votes counts) ∈ counts.
Proof.
  unfold winners_of. split.
  - intros H. apply list_elem_of_In, in_map_iff in H as [[k n] [Hk Hin]].
    apply list_elem_of_In, list_elem_of_filter in Hin as [Hn Hin].
    simpl in *. by subst.
  - intros H. apply list_elem_of_In, in_map_iff.
    exists (w, max_votes counts). split; [done|].
    apply list_elem_of_In, list_elem_of_filter. by split.
Qed.

Lemma nodup_keys_filter (P : string * nat -> Prop)
  `{forall p, Decision (P p)} (counts : list (string * nat)) :
  NoDup (map fst counts) -> NoDup (map fst (filter P counts)).
Proof.
  induction counts as [|[k n] counts IH]; simpl; [done|].
  intros [Hk Hnd]%NoDup_cons. rewrite filter_cons.
  case_decide; simpl; [|by apply IH].
  apply NoDup_cons. split; [|by apply IH].
  intros Hin. apply Hk.
  apply list_elem_of_In, in_map_iff in Hin as [[k' n'] [Hk' Hin]].
  apply list_elem_of_In, list_elem_of_filter in Hin as [_ Hin].
  simpl in Hk'. subst k'.
  apply list_elem_of_In, in_map_iff. exists (k, n').
  split; [done|by apply list_elem_of_In].
Qed.

Lemma winners_nodup counts :
  NoDup (map fst counts) -> NoDup (winners_of counts).
Proof. apply nodup_keys_filter. Qed.

(** The winners are the candidates with a positive count that no count
    exceeds. *)
Lemma winners_counter xs w :
  w ∈ winners_of (counter xs) <->
  0 < occ w xs /\ forall c, occ c xs <= occ w xs.
Proof.
  rewrite winners_elem, counter_elem. split.
  - intros [Hm Hpos]. split; [lia|]. intros c.
    destruct (decide (occ c xs = 0)) as [->|Hc]; [lia|].
    rewrite <- Hm. apply (max_votes_ge _ c), counter_elem. lia.
  - intros [Hpos Hmax].
    destruct (max_votes_attained (counter xs)) as [k Hk].
    { rewrite counter_nil. intros ->. unfold occ in Hpos. simpl in Hpos. lia. }
    pose proof Hk as Hk'. apply counter_elem in Hk' as [Hk' _].
    assert (occ w xs <= max_votes (counter xs)).
    { apply (max_votes_ge _ w), counter_elem. lia. }
    specialize (Hmax k). lia.
Qed.

Lemma nodup_all_equal (c : string) (ws : list string) :
  NoDup ws -> c ∈ ws -> (forall w, w ∈ ws -> w = c) -> ws = [c].
Proof.
  intros Hnd Hc Hall. destruct ws as [|w ws]; [by apply elem_of_nil in Hc|].
  assert (w = c) as -> by (apply Hall; by left).
  destruct ws as [|w' ws]; [done|].
  assert (w' = c) as -> by (apply Hall; right; by left).
  apply NoDup_cons in Hnd as [Hnin _]. exfalso. apply Hnin. by left.
Qed.

Lemma tally_occ c (d : list (string * Vote)) :
  tally c d = occ c (map (fun kv => candidate (snd kv)) d).
Proof.
  unfold tally, occ. induction d as [|kv d IH]; [done|].
  simpl. rewrite !filter_cons. simpl.
  case_decide; simpl; by rewrite IH.
Qed.

(** *** Casting votes *)

Lemma cast_vote_votes voter cand why now stamp s s' :
  cast_vote voter cand why now stamp s = inr s' ->
  votes s' = dict_set voter (mkVote voter cand why stamp (anonymous_votes s))
               (votes s) /\
  is_active s' = is_active s /\ is_active s = true.
Proof.
  unfold cast_vote.
  destruct (is_active s) eqn:Ha; simpl; [|discriminate].
  repeat (match goal with
          | |- context [if ?c then inl _ else _] => destruct c; [discriminate|]
          end).
  intros [= <-]. by simpl.
Qed.

Lemma latest_choice_cons voter b recorded :
  latest_choice voter (b :: recorded) =
  match latest_choice voter recorded with
  | Some c => Some c
  | None => if bool_decide (ballot_voter b = voter)
            then Some (ballot_candidate b) else None
  end.
Proof.
  unfold latest_choice. rewrite filter_cons.
  destruct (filter _ recorded) as [|b' l] eqn:E.
  - case_decide.
    + by rewrite bool_decide_true.
    + by rewrite bool_decide_false.
  - assert (Hs : exists x, last (b' :: l) = Some x).
    { destruct (last (b' :: l)) eqn:E'; [eauto|]. by apply last_None in E'. }
    destruct Hs as [x Hx].
    case_decide; [rewrite last_cons|]; by rewrite Hx.
Qed.

Lemma cast_all_spec bs : forall s s' recorded,
  cast_all s bs = (s', recorded) ->
  NoDup (map fst (votes s)) ->
  NoDup (map fst (votes s')) /\
  is_active s' = is_active s /\
  (recorded = [] -> votes s' = votes s) /\
  (recorded <> [] -> votes s' <> []) /\
  forall voter,
    candidate <$> dict_get voter (votes s') =
    match latest_choice voter recorded with
    | Some c => Some c
    | None => candidate <$> dict_get voter (votes s)
    end.
Proof.
  induction bs as [|b bs IH]; intros s s' recorded; simpl.
  - intros [= <- <-] Hnd. by repeat split.
  - destruct (cast_vote _ _ _ _ _ s) as [err|s1] eqn:E1.
    + apply IH.
    + destruct (cast_all s1 bs) as [s2 acc] eqn:E2.
      intros [= <- <-] Hnd.
      apply cast_vote_votes in E1 as (Hv & Ha & _).
      assert (Hnd1 : NoDup (map fst (votes s1)))
        by (rewrite Hv; by apply dict_set_nodup).
      destruct (IH _ _ _ E2 Hnd1) as (Hnd2 & Ha2 & Hnil & Hne & Hget).
      split; [done|]. split; [congruence|]. split; [done|].
      split.
      * intros _. destruct acc as [|b' acc].
        -- rewrite Hnil by done. rewrite Hv.
           destruct (votes s) as [|[k v] d]; simpl; [done|].
           by case_bool_decide.
        -- by apply Hne.
      * intros voter. rewrite Hget, latest_choice_cons.
        destruct (latest_choice voter acc); [done|].
        rewrite Hv. case_bool_decide as Hb.
        -- subst voter. by rewrite dict_get_set_eq.
        -- by rewrite dict_get_set_ne.
Qed.

Lemma start_voting_spec cands duration now s s' :
  start_voting cands duration now s = inr s' ->
  votes s' = [] /\ is_active s' = true /\ candidates s' = cands.
Proof.
  unfold start_voting.
  destruct (negb (enabled s)); [discriminate|].
  destruct (is_active s); [discriminate|].
  intros [= <-]. by simpl.
Qed.

(** A candidate is the plurality winner when it has more counted votes
    than any other. *)
Definition plurality (d : list (string * Vote)) (c : string) : Prop :=
  0 < tally c d /\ forall c', c' <> c -> tally c' d < tally c d.

(** A candidate is tied at the top when it has a counted vote and nobody
    has more. *)
Definition at_top (d : list (string * Vote)) (c : string) : Prop :=
  0 < tally c d /\ forall c', tally c' d <= tally c d.

Lemma winners_tally d w :
  w ∈ winners_of (counter (map (fun kv => candidate (snd kv)) d)) <->
  at_top d w.
Proof.
  rewrite winners_counter. unfold at_top. rewrite tally_occ.
  split; intros [H1 H2]; (split; [done|]); intros c;
    specialize (H2 c); by rewrite tally_occ in *.
Qed.

Lemma winner_of_plurality d c :
  plurality d c ->
  winner_of (counter (map (fun kv => candidate (snd kv)) d)) = Some c.
Proof.
  intros [Hpos Hmore].
  set (xs := map (fun kv => candidate (snd kv)) d).
  assert (Hws : winners_of (counter xs) = [c]).
  { apply nodup_all_equal.
    - apply winners_nodup, counter_good.
    - apply winners_tally. split; [done|]. intros c'.
      destruct (decide (c' = c)) as [->|Hne]; [done|].
      specialize (Hmore c' Hne). lia.
    - intros w [Hw Hmax]%winners_tally.
      destruct (decide (w = c)) as [|Hne]; [done|].
      specialize (Hmore w Hne). specialize (Hmax c). lia. }
  unfold winner_of. rewrite Hws.
  destruct (counter xs) eqn:E; [|done].
  apply counter_nil in E. subst xs.
  destruct d; [|done]. unfold tally in Hpos. simpl in Hpos. lia.
Qed.

Lemma winner_of_tie d :
  d <> [] -> (forall c, ~ plurality d c) ->
  exists ws,
    winner_of (counter (map (fun kv => candidate (snd kv)) d))
      = Some ("TIE: " +:+ String.concat ", " ws) /\
    2 <= length ws /\ NoDup ws /\ forall c, c ∈ ws <-> at_top d c.
Proof.
  intros Hd Hnone.
  set (xs := map (fun kv => candidate (snd kv)) d).
  exists (winners_of (counter xs)).
  assert (Hc : counter xs <> []).
  { rewrite counter_nil. subst xs. by destruct d. }
  assert (Hnd : NoDup (winners_of (counter xs)))
    by apply winners_nodup, counter_good.
  assert (Hlen : 2 <= length (winners_of (counter xs))).
  { destruct (winners_of (counter xs)) as [|w [|w' ws]] eqn:E; simpl; try lia.
    - destruct (max_votes_attained _ Hc) as [k Hk].
      apply winners_elem in Hk. rewrite E in Hk. by apply elem_of_nil in Hk.
    - exfalso. apply (Hnone w).
      assert (Hw : at_top d w).
      { apply winners_tally. fold xs. rewrite E. by left. }
      destruct Hw as [Hpos Hmax]. split; [done|].
      intros c' Hne.
      destruct (decide (tally c' d < tally w d)) as [|Hge]; [done|].
      exfalso. apply Hne.
      assert (Hc' : c' ∈ winners_of (counter xs)).
      { apply winners_tally. split; [lia|].
        intros c''. specialize (Hmax c''). lia. }
      rewrite E in Hc'. by apply list_elem_of_singleton in Hc'. }
  split; [|split; [done|split; [done|]]].
  - assert (Hwo : winner_of (counter xs) =
                  match winners_of (counter xs) with
                  | [w] => Some w
                  | ws => Some ("TIE: " +:+ String.concat ", " ws)
                  end).
    { unfold winner_of. by destruct (counter xs). }
    rewrite Hwo.
    destruct (winners_of (counter xs)) as [|w [|w' ws]]; simpl in Hlen;
      try lia; done.
  - intros c. apply winners_tally.
Qed.

End VotingFacts.

(** C10. After [start_voting], let any sequence of [cast_vote] calls be
    made (those that raise change nothing) and then [end_voting].  The
    vote stored for each voter is that voter's most recent recorded ballot,
    one entry per voter; [end_voting] succeeds and counts exactly the
    stored votes; the winner is [None] exactly when no ballot was recorded,
    the candidate with more counted votes than any other when there is one,
    and otherwise the string "TIE: " followed by the candidates tied at the
    top, joined by ", ". *)
Theorem C10_winner_from_latest_votes
  (s0 s1 : Voting.t) (cands : list string) (duration : option Q)
  (t0 now : Q) (bs : list Voting.Ballot) :
  Voting.start_voting cands duration t0 s0 = inr s1 ->
  let s2 := (Voting.cast_all s1 bs).1 in
  let recorded := (Voting.cast_all s1 bs).2 in
  (forall voter,
     Voting.candidate <$> Voting.dict_get voter (Voting.votes s2)
       = Voting.latest_choice voter recorded) /\
  NoDup (map fst (Voting.votes s2)) /\
  exists s3 r,
    Voting.end_voting now s2 = inr (s3, r) /\
    Voting.votes_by_voter r = Voting.votes s2 /\
    Voting.total_votes r = length (Voting.votes s2) /\
    (forall c, default 0 (Voting.dict_get c (Voting.vote_counts r))
               = Voting.tally c (Voting.votes s2)) /\
    (Voting.winner r = None <-> recorded = []) /\
    (forall c,
       (0 < Voting.tally c (Voting.votes s2) /\
        forall c', c' <> c ->
          Voting.tally c' (Voting.votes s2) < Voting.tally c (Voting.votes s2))
       -> Voting.winner r = Some c) /\
    (recorded <> [] ->
     (forall c,
        ~ (0 < Voting.tally c (Voting.votes s2) /\
           forall c', c' <> c ->
             Voting.tally c' (Voting.votes s2)
             < Voting.tally c (Voting.votes s2))) ->
     exists ws,
       Voting.winner r = Some ("TIE: " +:+ String.concat ", " ws) /\
       2 <= length ws /\ NoDup ws /\
       forall c, c ∈ ws <->
         (0 < Voting.tally c (Voting.votes s2) /\
          forall c', Voting.tally c' (Voting.votes s2)
                     <= Voting.tally c (Voting.votes s2))).
Proof.
  intros Hstart s2 recorded.
  apply start_voting_spec in Hstart as (Hv1 & Ha1 & _).
  destruct (Voting.cast_all s1 bs) as [s2' rec'] eqn:E.
  subst s2 recorded. simpl.
  destruct (cast_all_spec bs _ _ _ E) as (Hnd & Ha & Hnil & Hne & Hget).
  { rewrite Hv1. constructor. }
  split.
  { intros voter. rewrite Hget, Hv1. simpl.
    by destruct (Voting.latest_choice voter rec'). }
  split; [done|].
  unfold Voting.end_voting. rewrite Ha, Ha1. simpl.
  eexists _, _. split; [reflexivity|]. simpl.
  split; [done|]. split; [done|].
  split; [intros c; by rewrite counter_get, tally_occ|].
  split.
  { split.
    - intros Hw. destruct rec' as [|b rec']; [done|]. exfalso.
      assert (Hd : Voting.votes s2' <> []) by by apply Hne.
      unfold Voting.winner_of in Hw.
      destruct (Voting.counter _) as [|p l] eqn:Ec.
      + apply counter_nil in Ec. by destruct (Voting.votes s2').
      + by destruct (Voting.winners_of (p :: l)) as [|w [|w' ws]].
    - intros ->. rewrite Hnil by done. by rewrite Hv1. }
  split; [intros c Hc; by apply winner_of_plurality|].
  intros Hrec Hnone. apply winner_of_tie; [by apply Hne|done].
Qed.

(** Alice votes for Bob and then changes to Carol; Bob votes for Carol;
    Carol votes for Bob, and a ballot without justification is refused.
    Two counted votes for Carol, one for Bob: Carol wins. *)
Lemma C10_winner_from_latest_votes_witness :
  let s0 := Voting.init true 300 true true false in
  let cands := ["Alice"; "Bob"; "Carol"] in
  let bs := [Voting.mkBallot "Alice" "Bob" (Some "clear") 10 10;
             Voting.mkBallot "Bob" "Carol" (Some "sharp") 11 11;
             Voting.mkBallot "Carol" "Bob" (Some "calm") 12 12;
             Voting.mkBallot "Bob" "Bob" None 13 13;
             Voting.mkBallot "Alice" "Carol" (Some "on reflection") 14 14] in
  exists s1,
    Voting.start_voting cands None 0 s0 = inr s1 /\
    length (Voting.cast_all s1 bs).2 = 4 /\
    map fst (Voting.votes (Voting.cast_all s1 bs).1)
      = ["Alice"; "Bob"; "Carol"] /\
    exists s3 r,
      Voting.end_voting 20 (Voting.cast_all s1 bs).1 = inr (s3, r) /\
      Voting.winner r = Some "Carol".
Proof.
  intros s0 cands bs. eexists.
  assert (Hs : Voting.start_voting cands None 0 s0 = inr _) by reflexivity.
  split; [exact Hs|]. split; [reflexivity|]. split; [reflexivity|].
  destruct (C10_winner_from_latest_votes s0 _ cands None 0 20 bs Hs)
    as (_ & _ & s3 & r & Hend & _ & _ & _ & _ & Hplur & _).
  exists s3, r. split; [exact Hend|].
  apply Hplur. split.
  - vm_compute. lia.
  - intros c' Hne. unfold Voting.tally. vm_compute Voting.votes.
    rewrite !filter_cons, filter_nil. simpl.
    repeat case_decide; simpl; try lia; congruence.
Defined.

(** ** Moderator: structured turns *)
Section ModeratorTurns.
Import Moderator.

Lemma Qleb_gt x y : (y < x)%Q -> Qleb x y = false.
Proof.
  intros H. destruct (Qleb x y) eqn:E; [|done].
  apply Qleb_le in E. lra.
Qed.

(** What a broadcast leaves alone: the debate state, the names of the
    participants, and the settings. *)
Definition same_session (m m' : t) : Prop :=
  state m' = state m /\
  map fst (participants m') = map fst (participants m) /\
  warning_time m' = warning_time m /\
  max_message_length m' = max_message_length m.

Lemma same_session_refl m : same_session m m.
Proof. by repeat split. Qed.

Lemma same_session_trans m1 m2 m3 :
  same_session m1 m2 -> same_session m2 m3 -> same_session m1 m3.
Proof.
  intros (?&?&?&?) (?&?&?&?). repeat split; congruence.
Qed.

Lemma map_fst_receive msg (ps : list (string * Participant)) :
  map fst (map (fun np => (fst np, receive msg (snd np))) ps) = map fst ps.
Proof. induction ps as [|[n p] ps IH]; simpl; [done|by rewrite IH]. Qed.

Lemma broadcast_same text st m : same_session m (broadcast_message text st m).
Proof.
  unfold broadcast_message.
  destruct (ChatLog.add_message _ _ _ _ _ _ _) as [cl msg].
  repeat split; simpl. apply map_fst_receive.
Qed.

Lemma process_response_same who text st1 st2 m :
  same_session m (process_response who text st1 st2 m).
Proof.
  unfold process_response.
  destruct (max_message_length m <? String.length text)%nat.
  - pose proof (broadcast_same
      ("⚠️ " +:+ who +:+ "'s response was truncated due to length") st1 m)
      as (?&?&?&?).
    destruct (ChatLog.add_message _ _ _ _ _ _ _) as [cl msg].
    by repeat split.
  - destruct (ChatLog.add_message _ _ _ _ _ _ _) as [cl msg].
    by repeat split.
Qed.

Lemma handle_timeout_spec who st m :
  let m' := handle_timeout who st m in
  warnings_issued (state m')
    = <[who := S (default 0 (warnings_issued (state m) !! who))]>
        (warnings_issued (state m)) /\
  phase (state m') = phase (state m) /\
  turn_order (state m') = turn_order (state m) /\
  current_speaker (state m') = current_speaker (state m) /\
  map fst (participants m') = map fst (participants m) /\
  max_message_length m' = max_message_length m.
Proof.
  unfold handle_timeout.
  match goal with
  | |- context [broadcast_message ?text st ?m0] =>
      pose proof (broadcast_same text st m0) as (Hs & Hk & _ & Hl)
  end.
  cbv zeta. rewrite Hs, Hk, Hl. by repeat split.
Qed.

(** The timer loop, up to the poll that finds the limit used up. *)
Lemma timer_loop_timeout who time_limit e late rest before :
  forall warning_sent m,
  Forall (fun p => poll_done p = false /\
            (0 < inject_Z time_limit - (poll_now p - turn_start e))%Q)
         before ->
  poll_done late = false ->
  (inject_Z time_limit - (poll_now late - turn_start e) <= 0)%Q ->
  (forall msg, reaction e <> RaisesInstead msg) ->
  exists m1,
    same_session m m1 /\
    timer_loop who time_limit e (before ++ late :: rest) warning_sent m
      = (TimedOut (reaction e), 1, handle_timeout who (st_timeout e) m1).
Proof.
  induction before as [|p before IH]; intros warning_sent m Hb Hd Hlate Hr.
  - exists m. split; [apply same_session_refl|].
    simpl. rewrite Hd.
    assert (Hq : Qleb (inject_Z time_limit - (poll_now late - turn_start e)) 0
                 = true) by by apply Qleb_le.
    rewrite Hq. destruct (reaction e) as [|text|msg] eqn:Er; try done.
    by destruct (Hr msg).
  - apply Forall_cons in Hb as [[Hpd Hpr] Hb].
    simpl. rewrite Hpd, (Qleb_gt _ _ Hpr).
    destruct (negb warning_sent && _).
    + destruct (IH true (send_warning who
                  (inject_Z time_limit - (poll_now p - turn_start e))
                  (poll_stamp p) m) Hb Hd Hlate Hr) as (m1 & Hs & Heq).
      exists m1. split; [|done].
      eapply same_session_trans; [apply broadcast_same|exact Hs].
    + by apply IH.
Qed.

End ModeratorTurns.

(** C8. Let the timer loop of a structured turn reach a poll at which the
    response task is still running and the time limit is used up (every
    earlier poll found it running with time left), and let the task end on
    cancellation, as the bots and the humans of this program do.  Then
    [cancel()] is called exactly once, the turn ends without raising, the
    participant's warning counter grows by exactly one and no other
    counter changes, and the participant list, the turn order and the phase
    are what they were: the counter going to three is only recorded. *)
Theorem C8_timeout_cancels_once_and_warns
  (who turn_type : string) (time_limit : Z) (e : Moderator.TurnEnv)
  (m : Moderator.t) (before rest : list Moderator.Poll)
  (late : Moderator.Poll) :
  is_Some (Voting.dict_get who (Moderator.participants m)) ->
  Moderator.polls e = before ++ late :: rest ->
  Forall (fun p =>
            Moderator.poll_done p = false /\
            (0 < inject_Z time_limit
                 - (Moderator.poll_now p - Moderator.turn_start e))%Q)
         before ->
  Moderator.poll_done late = false ->
  (inject_Z time_limit
     - (Moderator.poll_now late - Moderator.turn_start e) <= 0)%Q ->
  (forall msg, Moderator.reaction e <> Moderator.RaisesInstead msg) ->
  let r := Moderator.give_structured_turn who time_limit turn_type e m in
  let before_count :=
    default 0 (Moderator.warnings_issued (Moderator.state m) !! who) in
  Moderator.turn_exit r.1 = Moderator.TimedOut (Moderator.reaction e) /\
  Moderator.cancel_calls r.1 = 1 /\
  Moderator.turn_raised r.1 = None /\
  Moderator.warnings_issued (Moderator.state r.2)
    = <[who := S before_count]>
        (Moderator.warnings_issued (Moderator.state m)) /\
  Moderator.warnings_issued (Moderator.state r.2) !! who
    = Some (S before_count) /\
  (forall other, other <> who ->
     Moderator.warnings_issued (Moderator.state r.2) !! other
     = Moderator.warnings_issued (Moderator.state m) !! other) /\
  Moderator.phase (Moderator.state r.2)
    = Moderator.phase (Moderator.state m) /\
  Moderator.turn_order (Moderator.state r.2)
    = Moderator.turn_order (Moderator.state m) /\
  Moderator.current_speaker (Moderator.state r.2) = None /\
  map fst (Moderator.participants r.2) = map fst (Moderator.participants m).
Proof.
  intros [p Hp] Hpolls Hb Hd Hlate Hr r before_count. subst r.
  unfold Moderator.give_structured_turn.
  change (Moderator.participants
            (Moderator.with_speaker (Some who) time_limit m))
    with (Moderator.participants m).
  rewrite Hp, Hpolls.
  match goal with
  | |- context [Moderator.timer_loop who time_limit e _ false ?m1] =>
      destruct (timer_loop_timeout who time_limit e late rest before
                  false m1 Hb Hd Hlate Hr) as (m2 & Hs & ->);
      pose proof (broadcast_same
        ("🎤 " +:+ who +:+ "'s turn for " +:+ turn_type +:+ " ("
           +:+ pretty time_limit +:+ "s)")
        (Moderator.st_announce e)
        (Moderator.with_speaker (Some who) time_limit m)) as Hs0
  end.
  pose proof (same_session_trans _ _ _ Hs0 Hs) as (Hst & Hk & _ & _).
  pose proof (handle_timeout_spec who (Moderator.st_timeout e) m2)
    as (Hw & Hph & Hto & _ & Hk2 & _).
  cbv zeta in *. rewrite Hst in Hw, Hph, Hto. simpl in Hw, Hph, Hto, Hk.
  set (m3 := Moderator.handle_timeout who (Moderator.st_timeout e) m2) in *.
  assert (Hfinal : exists m4,
    (let m3' :=
       match Moderator.reaction e with
       | Moderator.RaisesInstead msg =>
           Moderator.broadcast_message
             ("⚠️ Error during " +:+ who +:+ "'s turn: " +:+ msg)
             (Moderator.st_error e) m3
       | Moderator.EndsCancelled => m3
       | Moderator.ReturnsAnyway text =>
           if bool_decide (text = "") then m3
           else Moderator.process_response who text (Moderator.st_note e)
                  (Moderator.st_post e) m3
       end in m3') = m4 /\ same_session m3 m4).
  { eexists. split; [reflexivity|]. cbv zeta.
    destruct (Moderator.reaction e) as [|text|msg].
    - apply same_session_refl.
    - case_bool_decide; [apply same_session_refl|].
      apply process_response_same.
    - apply broadcast_same. }
  destruct Hfinal as (m4 & Hm4 & (Hst4 & Hk4 & _ & _)).
  cbv zeta in Hm4. simpl. rewrite Hm4. simpl.
  rewrite Hst4, Hk4, Hk2, Hk, Hw, Hph, Hto.
  repeat split; try done.
  - apply lookup_insert_eq.
  - intros other Hne. by apply lookup_insert_ne.
Qed.

(** *** A session used in the examples *)

Definition demo_bot (name persona stance : string) : Bot.t :=
  {| Bot.config :=
       Bot.mkBotConfig name "gpt-4" "openai" persona stance 0.8 120 15 2 5 12 8;
     Bot.conversation_history := []; Bot.response_count := 0;
     Bot.is_monitoring := false; Bot.monitoring_task := false;
     Bot.message_queue := None; Bot.has_chat_log := false; Bot.topic := "";
     Bot.last_response_time := 0; Bot.total_responses := 0;
     Bot.current_cooldown := 5; Bot.burning_questions := [];
     Bot.conversation_energy := 1; Bot.last_silence_break := 0;
     Bot.response_urgency := 0; Bot.missed_opportunities := 0;
     Bot.stats := Bot.empty_stats |}.

Definition demo_human (mode : Human.Mode) : Human.t :=
  Human.mkHuman "Human_1" mode 500 true [] (Human.mkStats 0 0 0 0).

(** One bot and one human in autonomous mode, with the default settings of
    the moderator: 120 s per response, warning at 90 s, messages of at most
    5000 characters, silence prompts after 60 s. *)
Definition demo_session (mode : Human.Mode) : Moderator.t :=
  Moderator.init "Remote work"
    [Moderator.PBot (demo_bot "Socrates" "philosophical" "neutral");
     Moderator.PHuman (demo_human mode)]
    (ChatLog.init 1000)
    (demo_bot "Moderator" "Professional debate facilitator" "neutral")
    120 90 5000 true 60 0.

(** Socrates, who has two warnings already, is given 30 seconds and is
    still generating at 30.5 s: the task is cancelled once, the counter
    goes to three, "Warning 3/3" is the last message on the chat log, and
    Socrates is still a participant with a place in the turn order. *)
Lemma C8_timeout_cancels_once_and_warns_witness :
  let m := Moderator.with_warnings {[ "Socrates" := 2 ]}
             (demo_session Human.Cli) in
  let poll (t : Q) := Moderator.mkPoll false t (t, t) in
  let e := Moderator.mkTurnEnv (0, 0)%Q 0
             [poll 0%Q; poll 15.5%Q; poll 30.5%Q]
             (Moderator.Value "too late") Moderator.EndsCancelled
             (30.5, 30.5)%Q (31, 31)%Q (31, 31)%Q (31, 31)%Q in
  let r := Moderator.give_structured_turn "Socrates" 30 "response" e m in
  Moderator.cancel_calls r.1 = 1 /\
  Moderator.warnings_issued (Moderator.state r.2) !! "Socrates" = Some 3 /\
  ChatLog.content <$> last (ChatLog.messages (Moderator.chat_log r.2))
    = Some "⏰ Socrates exceeded time limit. Warning 3/3" /\
  map fst (Moderator.participants r.2) = ["Socrates"; "Human_1"] /\
  Moderator.turn_order (Moderator.state r.2) = ["Socrates"; "Human_1"].
Proof.
  intros m poll e r.
  assert (Hp : is_Some (Voting.dict_get "Socrates" (Moderator.participants m)))
    by (eexists; reflexivity).
  assert (Hb : Forall (fun p =>
            Moderator.poll_done p = false /\
            (0 < inject_Z 30
                 - (Moderator.poll_now p - Moderator.turn_start e))%Q)
            [poll 0%Q; poll 15.5%Q]).
  { repeat constructor. }
  assert (Hl : (inject_Z 30
                - (Moderator.poll_now (poll 30.5%Q) - Moderator.turn_start e)
                <= 0)%Q) by (vm_compute; discriminate).
  destruct (C8_timeout_cancels_once_and_warns "Socrates" "response" 30 e m
              [poll 0%Q; poll 15.5%Q] [] (poll 30.5%Q)
              Hp eq_refl Hb eq_refl Hl ltac:(discriminate))
    as (_ & Hc & _ & _ & Hw & _ & _ & Ht & _ & Hk).
  split; [exact Hc|]. split; [exact Hw|].
  split; [reflexivity|]. split; [exact Hk|exact Ht].
Defined.

(** The polls of a timer loop whose response task finishes at the clock
    reading [t_done]: the loop condition is evaluated at the readings
    [ts] and finds the task done from [t_done] on. *)
Definition polls_of_task (t_done : Q) (ts : list Q) : list Moderator.Poll :=
  map (fun t => Moderator.mkPoll (Qleb t_done t) t (t, t)) ts.

(** C8 does not hold of every response that is not completed within its
    limit.  Socrates is given 30 seconds; the timer loop looks at the task
    every 0.505 s, at 29.795 s (time left, task running) and next at
    30.3 s; the response is completed at 30.2 s, after the limit.  The
    loop condition then finds the task done and the loop is left: the task
    is not cancelled, no warning is counted, and the late response is
    posted. *)
Lemma C8_late_response_is_accepted :
  let t_done := 30.2%Q in
  let readings :=
    map (fun k => (0.505 * inject_Z (Z.of_nat k))%Q) (seq 0 61) in
  let e := Moderator.mkTurnEnv (0, 0)%Q 0 (polls_of_task t_done readings)
             (Moderator.Value "A late answer.") Moderator.EndsCancelled
             (31, 31)%Q (31, 31)%Q (31, 31)%Q (31, 31)%Q in
  let m := demo_session Human.Cli in
  let r := Moderator.give_structured_turn "Socrates" 30 "response" e m in
  (inject_Z 30 < t_done - Moderator.turn_start e)%Q /\
  Moderator.turn_exit r.1 = Moderator.TaskDone /\
  Moderator.cancel_calls r.1 = 0 /\
  Moderator.turn_raised r.1 = None /\
  Moderator.warnings_issued (Moderator.state r.2) !! "Socrates" = None /\
  ChatLog.content <$> last (ChatLog.messages (Moderator.chat_log r.2))
    = Some "A late answer.".
Proof.
  intros t_done readings e m r.
  split; [vm_compute; reflexivity|].
  split; [vm_compute; reflexivity|].
  split; [vm_compute; reflexivity|].
  split; [vm_compute; reflexivity|].
  split; vm_compute; reflexivity.
Qed.

(** ** Moderator: the time announcements of the facilitation loop *)

(** The passes of a facilitation loop that wakes up every [period] seconds
    in a discussion that started at time 0, while nobody else writes to
    the chat log. *)
Definition ticks_every (period : Q) (n : nat) : list Moderator.Tick :=
  map (fun k =>
         let t0 := (inject_Z (Z.of_nat k) * period)%Q in
         let t1 := (t0 + period)%Q in
         Moderator.mkTick t0 [] t1 0 (t1, t1) (t1, t1))
      (seq 0 n).

(** C7 (failing run). A thirty-minute discussion in which every pass of
    the facilitation loop takes 15.03 s (the 15 s sleep and 30 ms more):
    the loop wakes at 312.03 s and at 297 s remaining, at 131.67 s and
    116.64 s, at 71.55 s and 56.52 s, so no wake-up falls in one of the
    two-second windows and the phase ends with none of the three
    announcements on the chat log. *)
Theorem C7_announcements_missed_when_passes_drift :
  let r := Moderator.facilitate_autonomous_discussion 0 1800
             (ticks_every 15.03 121) (demo_session Human.Cli) in
  r.1 = Moderator.PhaseOver /\
  Moderator.announcements Moderator.five_minutes r.2 = 0 /\
  Moderator.announcements Moderator.two_minutes r.2 = 0 /\
  Moderator.announcements Moderator.one_minute r.2 = 0.
Proof. vm_compute. done. Qed.

(** With passes of exactly 15 s the same discussion gets each announcement
    once. *)
Lemma announcements_on_exact_passes :
  let r := Moderator.facilitate_autonomous_discussion 0 1800
             (ticks_every 15 121) (demo_session Human.Cli) in
  r.1 = Moderator.PhaseOver /\
  Moderator.announcements Moderator.five_minutes r.2 = 1 /\
  Moderator.announcements Moderator.two_minutes r.2 = 1 /\
  Moderator.announcements Moderator.one_minute r.2 = 1.
Proof. vm_compute. done. Qed.

(** ** Moderator: the end of the session *)
Section ModeratorCleanup.
Import Moderator.

Context (introduction_phase opening_statements_phase
         autonomous_discussion_phase traditional_discussion_phase
         closing_statements_phase : t -> Outcome unit)
        (voting_phase : t -> Outcome (option Voting.VotingResults))
        (results_phase : option Voting.VotingResults -> t -> Outcome unit).

#[local] Abbreviation the_phases :=
  (phases introduction_phase opening_statements_phase
     autonomous_discussion_phase traditional_discussion_phase
     closing_statements_phase voting_phase results_phase).
#[local] Abbreviation the_run :=
  (run_debate introduction_phase opening_statements_phase
     autonomous_discussion_phase traditional_discussion_phase
     closing_statements_phase voting_phase results_phase).

(** A console human who types nothing keeps the loop waiting. *)
Lemma participation_loop_idle n st q h cl :
  Human.is_active h = true ->
  Human.participation_loop (repeat ("", st) n) q h cl
    = (Human.AwaitingInput, [], h, cl).
Proof.
  intros Ha. destruct st as [t1 t2].
  induction n as [|n IH]; cbn [repeat Human.participation_loop];
    rewrite Ha; [done|].
  unfold Human.participation_body. rewrite bool_decide_true by done.
  exact IH.
Qed.

(** The cancellation loop stops at the first running loop of an active
    console human. *)
Lemma cancel_tasks_pending who q post h n st pre : forall ps cl,
  Forall (fun tk => task_done tk = true) pre ->
  Voting.dict_get who ps = Some (PHuman h) ->
  Human.mode h = Human.Cli ->
  Human.is_active h = true ->
  cancel_tasks (pre ++ mkTask (HumanLoop who q) false :: post)
    (repeat ("", st) n) ps cl
    = (Pending, set_participant who (PHuman h) ps, cl).
Proof.
  induction pre as [|tk pre IH]; intros ps cl Hpre Hget Hmode Hact; simpl.
  - rewrite Hget, Hmode. by rewrite participation_loop_idle.
  - apply Forall_cons in Hpre as [-> Hpre]. by apply IH.
Qed.

Lemma stop_bots_human who h : forall ps cl,
  Voting.dict_get who ps = Some (PHuman h) ->
  Voting.dict_get who (stop_bots ps cl).1 = Some (PHuman h).
Proof.
  induction ps as [|[n p] ps IH]; intros cl; simpl; [done|].
  destruct p as [b|h0].
  - destruct (Bot.stop_monitoring b cl) as [b' cl1].
    specialize (IH cl1). destruct (stop_bots ps cl1) as [ps' cl2].
    simpl in *. case_bool_decide; [done|exact IH].
  - specialize (IH cl). destruct (stop_bots ps cl) as [ps' cl2].
    simpl in *. case_bool_decide; [done|exact IH].
Qed.

Lemma receive_human who h msg : forall ps,
  Voting.dict_get who ps = Some (PHuman h) ->
  Voting.dict_get who (map (fun np => (fst np, receive msg (snd np))) ps)
    = Some (PHuman (Human.receive_message msg h)).
Proof.
  induction ps as [|[n p] ps IH]; simpl; [done|].
  case_bool_decide; [|exact IH]. by intros [= ->].
Qed.

Lemma receive_message_keeps msg h :
  Human.mode (Human.receive_message msg h) = Human.mode h /\
  Human.is_active (Human.receive_message msg h) = Human.is_active h.
Proof. unfold Human.receive_message. by case_bool_decide. Qed.

(** The cleanup, entered while the loop of an active console human runs,
    does not come to its end as long as the human types nothing; the phase
    stays what it was. *)
Lemma cleanup_pending who q h pre post n st m :
  autonomous_tasks m = pre ++ mkTask (HumanLoop who q) false :: post ->
  Forall (fun tk => task_done tk = true) pre ->
  Voting.dict_get who (participants m) = Some (PHuman h) ->
  Human.mode h = Human.Cli ->
  Human.is_active h = true ->
  exists m',
    cleanup_autonomous_tasks (repeat ("", st) n) m = (Pending, m') /\
    state m' = state m /\
    Voting.dict_get who (participants m') = Some (PHuman h).
Proof.
  intros Hts Hpre Hget Hmode Hact. unfold cleanup_autonomous_tasks.
  pose proof (stop_bots_human who h (participants m) (chat_log m) Hget) as Hh.
  destruct (stop_bots (participants m) (chat_log m)) as [ps1 cl1].
  destruct (Bot.stop_monitoring (moderator_bot m) cl1) as [mb cl2].
  simpl in Hh. cbn [autonomous_tasks with_moderator_bot with_participants
                    with_chat_log].
  rewrite Hts, (cancel_tasks_pending who q post h n st pre ps1 cl2) by done.
  eexists. split; [reflexivity|]. split; [done|].
  apply dict_get_set_eq.
Qed.

(** If a phase raises an [Exception] while the loop of an active console
    human runs, [run_debate] stays in its cleanup for as long as the human
    types nothing: the exception has not propagated and the phase has not
    become [FINISHED]. *)
Lemma run_debate_waits who q h pre post n st lst msg m m1 :
  the_phases m = Raises (PyException msg) m1 ->
  autonomous_mode m1 = true ->
  autonomous_tasks m1 = pre ++ mkTask (HumanLoop who q) false :: post ->
  Forall (fun tk => task_done tk = true) pre ->
  Voting.dict_get who (participants m1) = Some (PHuman h) ->
  Human.mode h = Human.Cli ->
  Human.is_active h = true ->
  exists m',
    the_run st (repeat ("", lst) n) m = InCleanup m' /\
    state m' = state m1.
Proof.
  intros Hph Hauto Hts Hpre Hget Hmode Hact.
  unfold run_debate. rewrite Hph. unfold finally.
  set (m2 := broadcast_message (error_text msg) st m1).
  assert (Hm2 : autonomous_mode m2 = true /\
                autonomous_tasks m2 = autonomous_tasks m1 /\
                state m2 = state m1 /\
                exists h', Voting.dict_get who (participants m2)
                             = Some (PHuman h') /\
                           Human.mode h' = Human.Cli /\
                           Human.is_active h' = true).
  { subst m2. unfold broadcast_message.
    destruct (ChatLog.add_message _ _ _ _ _ _ _) as [cl e].
    simpl. repeat split; try done.
    exists (Human.receive_message e h).
    destruct (receive_message_keeps e h) as [-> ->].
    split; [by apply receive_human|done]. }
  destruct Hm2 as (Ha2 & Ht2 & Hs2 & h' & Hg2 & Hmo2 & Hac2).
  rewrite Ha2.
  destruct (cleanup_pending who q h' pre post n lst m2)
    as (m' & -> & Hst & _); try done; [congruence|].
  exists m'. split; [done|congruence].
Qed.

(** *** When the cleanup comes to its end *)

Lemma stop_monitoring_off b cl :
  Bot.is_monitoring (Bot.stop_monitoring b cl).1 = false.
Proof.
  unfold Bot.stop_monitoring.
  by destruct (Bot.message_queue b), (Bot.has_chat_log b).
Qed.

Lemma stop_bots_stopped : forall ps cl n b,
  (n, PBot b) ∈ (stop_bots ps cl).1 -> Bot.is_monitoring b = false.
Proof.
  induction ps as [|[k p] ps IH]; intros cl n b; simpl.
  - intros H. by apply elem_of_nil in H.
  - destruct p as [b0|h0].
    + pose proof (stop_monitoring_off b0 cl) as Hoff.
      destruct (Bot.stop_monitoring b0 cl) as [b' cl1].
      specialize (IH cl1 n b). destruct (stop_bots ps cl1) as [ps' cl2].
      simpl in *. intros [[= -> ->]|Hin]%elem_of_cons; [done|by apply IH].
    + specialize (IH cl n b). destruct (stop_bots ps cl) as [ps' cl2].
      simpl in *. intros [[=]|Hin]%elem_of_cons. by apply IH.
Qed.

Lemma dict_set_elem {V} k (v : V) d k0 v0 :
  (k0, v0) ∈ Voting.dict_set k v d -> (k0, v0) = (k, v) \/ (k0, v0) ∈ d.
Proof.
  induction d as [|[k' v'] d IH]; cbn [Voting.dict_set].
  - intros ->%list_elem_of_singleton. by left.
  - case_bool_decide.
    + intros [->|Hin]%elem_of_cons; [by left|right; by right].
    + intros [->|Hin]%elem_of_cons; [right; by left|].
      destruct (IH Hin) as [->|Hd]; [by left|right; by right].
Qed.

Lemma cancel_tasks_bots ts : forall lines ps cl n b,
  (n, PBot b) ∈ (cancel_tasks ts lines ps cl).1.2 -> (n, PBot b) ∈ ps.
Proof.
  induction ts as [|tk ts IH]; intros lines ps cl n b; simpl; [done|].
  destruct (task_done tk); [apply IH|].
  destruct (task_kind tk) as [who| |who q]; try apply IH.
  destruct (Voting.dict_get who ps) as [[b0|h]|]; try apply IH.
  destruct (Human.mode h); [|apply IH].
  destruct (Human.participation_loop lines q h cl) as [[[[] rest] h'] cl'].
  - intros Hin%IH. unfold set_participant in Hin.
    by destruct (dict_set_elem _ _ _ _ _ Hin).
  - simpl. unfold set_participant. intros Hin.
    by destruct (dict_set_elem _ _ _ _ _ Hin).
Qed.

(** A cleanup that comes to its end leaves every bot stopped and no task
    listed, and does not touch the debate state. *)
Lemma cleanup_ended lines m m' :
  cleanup_autonomous_tasks lines m = (Ended, m') ->
  bots_stopped m' /\ autonomous_tasks m' = [] /\ state m' = state m.
Proof.
  unfold cleanup_autonomous_tasks.
  pose proof (stop_bots_stopped (participants m) (chat_log m)) as Hstop.
  destruct (stop_bots (participants m) (chat_log m)) as [ps1 cl1].
  pose proof (stop_monitoring_off (moderator_bot m) cl1) as Hoff.
  destruct (Bot.stop_monitoring (moderator_bot m) cl1) as [mb cl2].
  cbn [autonomous_tasks with_moderator_bot with_participants with_chat_log].
  pose proof (cancel_tasks_bots (autonomous_tasks m) lines ps1 cl2) as Hbots.
  destruct (cancel_tasks (autonomous_tasks m) lines ps1 cl2)
    as [[[] ps2] cl3]; [|discriminate].
  intros [= <-]. simpl in *. repeat split; try done.
  intros n b Hin. eapply Hstop, Hbots, Hin.
Qed.

(** A phase that raises an [Exception] ends the session in one of two
    ways: the exception propagates, after the error message was put on the
    chat log and, in autonomous mode, with every bot stopped and no task
    left, in phase [FINISHED]; or [run_debate] is still in its cleanup. *)
Lemma run_debate_exception st lines msg m m1 :
  the_phases m = Raises (PyException msg) m1 ->
  match the_run st lines m with
  | Propagated e m' =>
      e = PyException msg /\
      phase (state m') = FINISHED /\
      (autonomous_mode m1 = true ->
       bots_stopped m' /\ autonomous_tasks m' = [])
  | InCleanup m' => autonomous_mode m1 = true
  | Completed _ _ => False
  end.
Proof.
  intros Hph. unfold run_debate. rewrite Hph. unfold finally.
  set (m2 := broadcast_message (error_text msg) st m1).
  assert (Ha : autonomous_mode m2 = autonomous_mode m1).
  { subst m2. unfold broadcast_message.
    by destruct (ChatLog.add_message _ _ _ _ _ _ _). }
  rewrite Ha. destruct (autonomous_mode m1) eqn:Hauto; [|done].
  destruct (cleanup_autonomous_tasks lines m2) as [[] m3] eqn:E; [|done].
  apply cleanup_ended in E as (Hb & Ht & _).
  split; [done|]. split; [done|]. intros _. split; [|done].
  destruct Hb as [Hmb Hps]. by split.
Qed.

End ModeratorCleanup.

(** *** The aborted discussion of the examples *)

Definition phase_passes : Moderator.t -> Moderator.Outcome unit :=
  fun m => Moderator.Returns tt m.

(** A discussion phase that starts the autonomous loops and then fails
    with an injected error. *)
Definition discussion_fails : Moderator.t -> Moderator.Outcome unit :=
  fun m =>
    Moderator.Raises (Moderator.PyException "injected error")
      (Moderator.start_autonomous_loops
         (Moderator.with_phase Moderator.DISCUSSION m)).

Definition aborted_run (mode : Human.Mode)
  (lines : list (string * Moderator.Stamp)) : Moderator.Run :=
  Moderator.run_debate phase_passes phase_passes discussion_fails
    phase_passes phase_passes
    (fun m => Moderator.Returns None m) (fun _ m => Moderator.Returns tt m)
    (50, 50)%Q lines (demo_session mode).

(** C5 (failing run). An autonomous session with one bot and one human at
    the console; the discussion phase starts the loops and raises.  However
    long the human types nothing, [run_debate] is still in its cleanup,
    awaiting the human's participation loop, which swallowed the
    cancellation: the exception has not propagated, the phase is still
    [DISCUSSION], and the human's loop is still running. *)
Theorem C5_cleanup_waits_for_console_human (n : nat) :
  exists m',
    aborted_run Human.Cli (repeat ("", (60, 60)%Q) n)
      = Moderator.InCleanup m' /\
    Moderator.phase (Moderator.state m') = Moderator.DISCUSSION /\
    Moderator.phase (Moderator.state m') <> Moderator.FINISHED.
Proof.
  destruct (run_debate_waits phase_passes phase_passes discussion_fails
              phase_passes phase_passes
              (fun m => Moderator.Returns None m)
              (fun _ m => Moderator.Returns tt m)
              "Human_1" 1 (demo_human Human.Cli)
              [Moderator.mkTask (Moderator.StartBot "Socrates") true]
              [Moderator.mkTask Moderator.StartModerator true]
              n (50, 50)%Q (60, 60)%Q "injected error"
              (demo_session Human.Cli)
              (Moderator.start_autonomous_loops
                 (Moderator.with_phase Moderator.DISCUSSION
                    (demo_session Human.Cli))))
    as (m' & Hrun & Hst); try reflexivity.
  { repeat constructor. }
  exists m'. split; [exact Hrun|]. rewrite Hst. split; [reflexivity|discriminate].
Qed.

(** The same session with the human on the websocket interface, or with
    the console human leaving when asked: the exception propagates, the
    session is [FINISHED], every bot has stopped monitoring, and the error
    message is the one message the failure put on the chat log. *)
Lemma aborted_run_with_cancellable_human :
  exists m',
    aborted_run Human.Web [] = Moderator.Propagated
                                 (Moderator.PyException "injected error") m' /\
    Moderator.phase (Moderator.state m') = Moderator.FINISHED /\
    Moderator.autonomous_tasks m' = [] /\
    Bot.is_monitoring (Moderator.moderator_bot m') = false /\
    map ChatLog.content (ChatLog.messages (Moderator.chat_log m'))
      = [Moderator.error_text "injected error"].
Proof. eexists. split; [vm_compute; reflexivity|]. by vm_compute. Qed.

Lemma aborted_run_when_human_quits :
  exists m',
    aborted_run Human.Cli [("", (60, 60)%Q); ("quit", (70, 70)%Q)]
      = Moderator.Propagated (Moderator.PyException "injected error") m' /\
    Moderator.phase (Moderator.state m') = Moderator.FINISHED.
Proof. eexists. split; [vm_compute; reflexivity|]. by vm_compute. Qed.

(** ** Chat log: queries, statistics, clearing and loading *)
Section ChatLogQueryFacts.
Import ChatLog ChatLogQueries.

Lemma slice_from_zero {A} (l : list A) : slice_from 0 l = l.
Proof. unfold slice_from. simpl. by rewrite Z.min_l by lia. Qed.

Lemma slice_from_last {A} (p : positive) (l : list A) :
  slice_from (- Z.pos p) l = drop (length l - Pos.to_nat p) l.
Proof.
  unfold slice_from. simpl. f_equal. lia.
Qed.

Lemma slice_from_skip {A} (p : positive) (l : list A) :
  slice_from (- Z.neg p) l = drop (Pos.to_nat p) l.
Proof.
  unfold slice_from. simpl.
  destruct (decide (Pos.to_nat p <= length l)) as [Hle|Hgt].
  - f_equal. lia.
  - rewrite !drop_ge by lia. done.
Qed.

Lemma slice_from_sublist {A} (i : Z) (l : list A) :
  slice_from i l `sublist_of` l.
Proof. apply sublist_drop. Qed.

(** The three filters of [get_messages], as one predicate. *)
Definition passes (sender message_type : option string)
  (since_timestamp : option Q) (m : Message) : Prop :=
  (forall s, sender = Some s -> s <> "" -> ChatLog.sender m = s) /\
  (forall ty, message_type = Some ty -> ty <> "" ->
     ChatLog.message_type m = ty) /\
  (forall ts, since_timestamp = Some ts -> ~ (ts == 0)%Q ->
     (ts < timestamp m)%Q).

Lemma get_messages_unlimited sender message_type since_timestamp cl m :
  m ∈ get_messages None sender message_type since_timestamp cl <->
  m ∈ messages cl /\ passes sender message_type since_timestamp m.
Proof.
  unfold get_messages, passes.
  set (l0 := messages cl).
  set (l1 := match sender with
             | Some s => if bool_decide (s = "") then l0
                         else filter (fun m => ChatLog.sender m = s) l0
             | None => l0
             end).
  set (l2 := match message_type with
             | Some ty => if bool_decide (ty = "") then l1
                          else filter (fun m => ChatLog.message_type m = ty) l1
             | None => l1
             end).
  assert (H1 : m ∈ l1 <-> m ∈ l0 /\
            forall s, sender = Some s -> s <> "" -> ChatLog.sender m = s).
  { subst l1. destruct sender as [s|].
    - case_bool_decide as Hs.
      + split; [intros ?; split; [done|]; intros ? [= <-] ?; done|tauto].
      + rewrite list_elem_of_filter. split.
        * intros [? ?]. split; [done|]. by intros ? [= <-] _.
        * intros [? H]. split; [|done]. by apply H.
    - split; [intros ?; split; [done|]; intros ? [=]|tauto]. }
  assert (H2 : m ∈ l2 <-> m ∈ l1 /\
            forall ty, message_type = Some ty -> ty <> "" ->
              ChatLog.message_type m = ty).
  { subst l2. destruct message_type as [ty|].
    - case_bool_decide as Hs.
      + split; [intros ?; split; [done|]; intros ? [= <-] ?; done|tauto].
      + rewrite list_elem_of_filter. split.
        * intros [? ?]. split; [done|]. by intros ? [= <-] _.
        * intros [? H]. split; [|done]. by apply H.
    - split; [intros ?; split; [done|]; intros ? [=]|tauto]. }
  destruct since_timestamp as [ts|].
  - destruct (Qeq_bool ts 0) eqn:E.
    + apply Qeq_bool_iff in E. rewrite H2, H1.
      split; [|tauto]. intros [[? ?] ?]. repeat split; try done.
      intros ? [= <-] Hne. by destruct Hne.
    + rewrite list_elem_of_filter, H2, H1, Qltb_lt.
      split.
      * intros (? & [? ?] & ?). repeat split; try done. by intros ? [= <-] _.
      * intros (? & ? & ? & H). repeat split; try done.
        apply (H ts eq_refl). intros Hz. apply Qeq_bool_iff in Hz. congruence.
  - rewrite H2, H1. split; [|tauto].
    intros [[? ?] ?]. repeat split; try done; intros ? [=].
Qed.

Lemma get_messages_sublist limit sender message_type since_timestamp cl :
  get_messages limit sender message_type since_timestamp cl
    `sublist_of` messages cl.
Proof.
  unfold get_messages.
  set (l0 := messages cl).
  set (l1 := match sender with
             | Some s => if bool_decide (s = "") then l0
                         else filter (fun m => ChatLog.sender m = s) l0
             | None => l0
             end).
  set (l2 := match message_type with
             | Some ty => if bool_decide (ty = "") then l1
                          else filter (fun m => ChatLog.message_type m = ty) l1
             | None => l1
             end).
  set (l3 := match since_timestamp with
             | Some ts => if Qeq_bool ts 0 then l2
                          else filter (fun m => Qltb ts (timestamp m) = true) l2
             | None => l2
             end).
  assert (H1 : l1 `sublist_of` l0).
  { subst l1. destruct sender as [s|]; [|done].
    case_bool_decide; [done|apply sublist_filter]. }
  assert (H2 : l2 `sublist_of` l1).
  { subst l2. destruct message_type as [ty|]; [|done].
    case_bool_decide; [done|apply sublist_filter]. }
  assert (H3 : l3 `sublist_of` l2).
  { subst l3. destruct since_timestamp as [ts|]; [|done].
    destruct (Qeq_bool ts 0); [done|apply sublist_filter]. }
  assert (H : l3 `sublist_of` l0) by (etrans; [exact H3|]; by etrans).
  destruct limit as [n|]; [|done].
  destruct (n =? 0)%Z; [done|].
  etrans; [apply slice_from_sublist|done].
Qed.

(** *** Statistics *)

(** The counts that [add_message] keeps, against the messages created so
    far. *)
Definition counted (s : Stats) (ms : list Message) : Prop :=
  total_messages s = length ms /\
  (forall who, default 0 (messages_by_sender s !! who)
               = length (filter (fun m => ChatLog.sender m = who) ms)) /\
  bot_responses s
    = length (filter (fun m => ChatLog.sender m ∈ bot_names) ms) /\
  moderator_messages s
    = length (filter (fun m => ChatLog.sender m = "Moderator") ms) /\
  bot_responses s + human_responses s + moderator_messages s = length ms /\
  silence_breaks s <= bot_responses s.

Lemma counted_empty : counted empty_stats [].
Proof.
  unfold counted. simpl. by repeat split.
Qed.

Lemma update_stats_counted who m msgs s ms :
  ChatLog.sender m = who ->
  counted s ms -> counted (update_stats who m msgs s) (ms ++ [m]).
Proof.
  intros Hwho (Ht & Hby & Hb & Hm & Hsum & Hbr).
  assert (Hby' : forall w,
    default 0 (<[who := S (default 0 (messages_by_sender s !! who))]>
                 (messages_by_sender s) !! w)
    = length (filter (fun m0 => ChatLog.sender m0 = w) (ms ++ [m]))).
  { intros w. rewrite filter_app, length_app, filter_cons, filter_nil.
    destruct (decide (who = w)) as [<-|Hne].
    - rewrite lookup_insert_eq. simpl. rewrite Hby.
      rewrite decide_True by done. simpl. lia.
    - rewrite lookup_insert_ne by done. rewrite Hby.
      rewrite decide_False by congruence. simpl. lia. }
  assert (Hnm : "Moderator" ∉ bot_names).
  { unfold bot_names. intros H.
    repeat (apply elem_of_cons in H as [H|H]; [discriminate|]).
    by apply elem_of_nil in H. }
  unfold update_stats, counted.
  rewrite !filter_app, !length_app, !filter_cons, !filter_nil.
  case_bool_decide as Hbot.
  - cbn [total_messages messages_by_sender bot_responses human_responses
         moderator_messages ChatLog.silence_breaks].
    rewrite (decide_True (P := ChatLog.sender m ∈ bot_names)) by by rewrite Hwho.
    rewrite (decide_False (P := ChatLog.sender m = "Moderator"))
      by (rewrite Hwho; intros ->; done).
    simpl. repeat split; try done; try lia.
    destruct (1 <? length msgs); [|lia].
    destruct (msgs !! (length msgs - 2)); [|lia].
    destruct (Qltb _ _); lia.
  - rewrite (decide_False (P := ChatLog.sender m ∈ bot_names)) by by rewrite Hwho.
    case_bool_decide as Hmod.
    + cbn [total_messages messages_by_sender bot_responses human_responses
           moderator_messages ChatLog.silence_breaks].
      rewrite (decide_True (P := ChatLog.sender m = "Moderator")) by congruence.
      simpl. repeat split; try done; lia.
    + cbn [total_messages messages_by_sender bot_responses human_responses
           moderator_messages ChatLog.silence_breaks].
      rewrite (decide_False (P := ChatLog.sender m = "Moderator")) by congruence.
      simpl. repeat split; try done; lia.
Qed.

Lemma step_counted cl o cl' ms1 ms :
  step cl o = (cl', ms1) ->
  counted (stats cl) ms -> counted (stats cl') (ms ++ ms1).
Proof.
  destruct o; simpl.
  - unfold add_message.
    destruct (get_response_time _ _ _) as [? rt].
    destruct (notify_subscribers _ _ _) as [subs h].
    intros [= <- <-] Hc. simpl. by apply update_stats_counted.
  - intros [= <- <-]. by rewrite app_nil_r.
  - intros [= <- <-]. rewrite app_nil_r. unfold unsubscribe.
    by case_bool_decide.
  - intros [= <- <-]. rewrite app_nil_r. unfold queue_get.
    destruct (heap cl !! a) as [q|]; [destruct (items q !! taken q)|]; done.
  - intros [= <- <-]. by rewrite app_nil_r.
Qed.

Lemma run_counted ops : forall cl cl' ms1 ms,
  run cl ops = (cl', ms1) ->
  counted (stats cl) ms -> counted (stats cl') (ms ++ ms1).
Proof.
  induction ops as [|o ops IH]; intros cl cl' ms1 ms; simpl.
  - intros [= <- <-]. by rewrite app_nil_r.
  - destruct (step cl o) as [cl1 msa] eqn:E1.
    destruct (run cl1 ops) as [cl2 msb] eqn:E2.
    intros [= <- <-] Hc. rewrite app_assoc.
    eapply IH; [exact E2|]. by eapply step_counted.
Qed.

Lemma per_range (a n : nat) :
  a <= n -> (0 <= per a (max 1 n) <= 1)%Q.
Proof.
  intros Hle. unfold per.
  assert (Hd : (0 < inject_Z (Z.of_nat (max 1 n)))%Q).
  { change 0%Q with (inject_Z 0). rewrite <- Zlt_Qlt. lia. }
  split.
  - apply Qle_shift_div_l; [exact Hd|]. rewrite Qmult_0_l.
    change 0%Q with (inject_Z 0). rewrite <- Zle_Qle. lia.
  - apply Qle_shift_div_r; [exact Hd|]. rewrite Qmult_1_l.
    rewrite <- Zle_Qle. lia.
Qed.

(** *** Loading *)

Lemma foldl_load_frame data : forall cl,
  let cl' := foldl load_message cl data in
  maxlen cl' = maxlen cl /\ subscribers cl' = subscribers cl /\
  heap cl' = heap cl /\ response_times cl' = response_times cl /\
  next_addr cl' = next_addr cl /\
  bot_responses (stats cl') = bot_responses (stats cl) /\
  human_responses (stats cl') = human_responses (stats cl) /\
  moderator_messages (stats cl') = moderator_messages (stats cl) /\
  total_messages (stats cl') = total_messages (stats cl) + length data /\
  message_counter cl'
    = max (message_counter cl) (max_list (map message_id data)).
Proof.
  induction data as [|d data IH]; intros cl; simpl.
  - repeat split; lia.
  - specialize (IH (load_message cl d)). simpl in IH.
    destruct IH as (H1 & H2 & H3 & H4 & H5 & H6 & H7 & H8 & H9 & H10).
    repeat split; try done; lia.
Qed.

Lemma foldl_load_window data : forall cl,
  length (messages cl) <= maxlen cl ->
  messages (foldl load_message cl data)
    = last_n (maxlen cl) (messages cl ++ data).
Proof.
  induction data as [|d data IH]; intros cl Hlen; simpl.
  - rewrite app_nil_r. by rewrite last_n_all.
  - rewrite IH; simpl.
    + rewrite deque_append_last_n by done.
      rewrite last_n_app_last_n. by rewrite <- app_assoc.
    + by apply length_deque_append.
Qed.

End ChatLogQueryFacts.

(** X1. [get_recent_messages(count)] is [list(self.messages)[-count:]]: a
    positive count gives the last [count] messages (all of them when there
    are fewer), in order; a count of zero gives every stored message, not
    none; a negative count drops the first [-count] messages.  For a
    positive count this is the function the bots and the moderator use. *)
Theorem get_recent_messages_by_count (cl : ChatLog.t) (count : Z) :
  ChatLogQueries.get_recent_messages count cl =
    match count with
    | Z.pos p => drop (length (ChatLog.messages cl) - Pos.to_nat p)
                      (ChatLog.messages cl)
    | Z0 => ChatLog.messages cl
    | Z.neg p => drop (Pos.to_nat p) (ChatLog.messages cl)
    end /\
  length (ChatLogQueries.get_recent_messages count cl) =
    match count with
    | Z.pos p => min (Pos.to_nat p) (length (ChatLog.messages cl))
    | Z0 => length (ChatLog.messages cl)
    | Z.neg p => length (ChatLog.messages cl) - Pos.to_nat p
    end /\
  (forall n : nat,
     ChatLogQueries.get_recent_messages (Z.of_nat (S n)) cl
       = ChatLog.get_recent_messages (S n) cl).
Proof.
  unfold ChatLogQueries.get_recent_messages.
  split; [|split].
  - destruct count as [|p|p].
    + apply slice_from_zero.
    + apply slice_from_last.
    + apply slice_from_skip.
  - destruct count as [|p|p].
    + change (- 0)%Z with 0%Z. by rewrite slice_from_zero.
    + rewrite slice_from_last, length_drop. lia.
    + by rewrite slice_from_skip, length_drop.
  - intros n. unfold ChatLog.get_recent_messages.
    change (Z.of_nat (S n)) with (Z.pos (Pos.of_succ_nat n)).
    rewrite slice_from_last. by rewrite SuccNat2Pos.id_succ.
Qed.

(** X2. [get_messages]: the filters that are given and not false (a
    non-empty sender, a non-empty type, a non-zero timestamp) are applied
    together, and nothing else is: without a limit the result holds exactly
    the stored messages that pass all of them.  The result keeps the order
    of the log.  A positive limit keeps the last [limit] matches, a limit
    of zero keeps all of them, a negative one drops the first [-limit]. *)
Theorem get_messages_filters_and_limit
  (limit : option Z) (sender message_type : option string)
  (since_timestamp : option Q) (cl : ChatLog.t) :
  let matches :=
    ChatLogQueries.get_messages None sender message_type since_timestamp cl in
  (forall m, m ∈ matches <->
     m ∈ ChatLog.messages cl /\
     passes sender message_type since_timestamp m) /\
  ChatLogQueries.get_messages limit sender message_type since_timestamp cl
    `sublist_of` ChatLog.messages cl /\
  ChatLogQueries.get_messages limit sender message_type since_timestamp cl =
    match limit with
    | Some (Z.pos p) => drop (length matches - Pos.to_nat p) matches
    | Some (Z.neg p) => drop (Pos.to_nat p) matches
    | _ => matches
    end.
Proof.
  intros matches. split; [|split].
  - intros m. apply get_messages_unlimited.
  - apply get_messages_sublist.
  - subst matches. unfold ChatLogQueries.get_messages.
    destruct limit as [[|p|p]|]; try done.
    + apply slice_from_last.
    + apply slice_from_skip.
Qed.

(** X3. [get_conversation_context(participant, n)] for a positive [n]: at
    most [n] messages, in the order of the log, each of them one of the
    last [2n] stored messages and relevant to the participant (sent by the
    participant, or of type moderator or system, or naming the participant
    in its text).  With [n = 0] both slices are [[-0:]], so the result is
    every relevant message of the whole log. *)
Theorem conversation_context_recent_and_relevant
  (participant : string) (p : positive) (cl : ChatLog.t) :
  let ctx :=
    ChatLogQueries.get_conversation_context participant (Z.pos p) cl in
  length ctx <= Pos.to_nat p /\
  ctx `sublist_of` ChatLog.messages cl /\
  (forall m, m ∈ ctx ->
     ChatLogQueries.in_context participant m = true /\
     m ∈ drop (length (ChatLog.messages cl) - 2 * Pos.to_nat p)
              (ChatLog.messages cl)) /\
  ChatLogQueries.get_conversation_context participant 0 cl
    = filter (fun m => ChatLogQueries.in_context participant m = true)
             (ChatLog.messages cl).
Proof.
  intros ctx. subst ctx.
  unfold ChatLogQueries.get_conversation_context,
    ChatLogQueries.get_recent_messages.
  change (Z.pos p * 2)%Z with (Z.pos (p * 2)).
  rewrite !slice_from_last.
  replace (Pos.to_nat (p * 2)) with (2 * Pos.to_nat p) by lia.
  set (recent := drop _ (ChatLog.messages cl)).
  set (rel := filter _ recent).
  split; [|split; [|split]].
  - rewrite length_drop. lia.
  - etrans; [apply sublist_drop|]. etrans; [apply sublist_filter|].
    apply sublist_drop.
  - intros m Hm.
    assert (Hrel : m ∈ rel).
    { eapply elem_of_sublist; [exact Hm|apply sublist_drop]. }
    by apply list_elem_of_filter in Hrel.
  - change (- (0 * 2))%Z with 0%Z. change (- 0)%Z with 0%Z.
    by rewrite !slice_from_zero.
Qed.

(** X4. [search_messages] returns stored messages in the order of the log;
    the empty query matches every message; and on ASCII text a search that
    ignores case finds every message that the case-sensitive search
    finds. *)
Theorem search_ignoring_case_finds_more
  (query : string) (cl : ChatLog.t) :
  ChatLogQueries.is_ascii query ->
  Forall (fun m => ChatLogQueries.is_ascii (ChatLog.content m))
         (ChatLog.messages cl) ->
  (forall cs, ChatLogQueries.search_messages query cs cl
                `sublist_of` ChatLog.messages cl) /\
  (forall cs, ChatLogQueries.search_messages "" cs cl = ChatLog.messages cl) /\
  (forall m, m ∈ ChatLogQueries.search_messages query true cl ->
             m ∈ ChatLogQueries.search_messages query false cl).
Proof.
  intros _ _.
  assert (Hpre : forall n h, String.prefix n h = true ->
                 String.prefix (PyStr.lower n) (PyStr.lower h) = true).
  { induction n as [|a n IH]; intros h; [by destruct h|].
    destruct h as [|b h]; [done|]. simpl.
    destruct (Ascii.ascii_dec a b) as [->|Hne]; [|discriminate].
    intros H. destruct (Ascii.ascii_dec _ _); [auto|done]. }
  assert (Hsub : forall n h, PyStr.contains n h = true ->
                 PyStr.contains (PyStr.lower n) (PyStr.lower h) = true).
  { intros n h. induction h as [|b h IH]; simpl.
    - rewrite !orb_false_r. apply (Hpre n ""%string).
    - intros [H|H]%orb_true_iff; apply orb_true_iff.
      + left. apply (Hpre n (String b h) H).
      + right. by apply IH. }
  split; [|split].
  - intros cs. apply sublist_filter.
  - intros cs. unfold ChatLogQueries.search_messages.
    assert (He : forall h, PyStr.contains "" h = true) by by intros [|? ?].
    replace (if cs then ""%string else PyStr.lower "") with ""%string
      by by destruct cs.
    induction (ChatLog.messages cl) as [|m l IH]; [done|].
    rewrite filter_cons, decide_True by apply He. by rewrite IH.
  - intros m. unfold ChatLogQueries.search_messages.
    rewrite !list_elem_of_filter. intros [H ?]. split; [|done]. by apply Hsub.
Qed.

(** X4 at work: the query "AI" is found in "Is AI safe?" either way, and
    only the search that ignores case finds it in "ai wins". *)
Lemma search_ignoring_case_finds_more_witness :
  let cl := (ChatLog.run (ChatLog.init 10)
               [ChatLog.OpAdd "Ann" "Is AI safe?" "chat" [] 1 1;
                ChatLog.OpAdd "Bob" "ai wins" "chat" [] 2 2]).1 in
  map ChatLog.content (ChatLogQueries.search_messages "AI" true cl)
    = ["Is AI safe?"] /\
  map ChatLog.content (ChatLogQueries.search_messages "AI" false cl)
    = ["Is AI safe?"; "ai wins"] /\
  forall m, m ∈ ChatLogQueries.search_messages "AI" true cl ->
            m ∈ ChatLogQueries.search_messages "AI" false cl.
Proof.
  intros cl. split; [reflexivity|]. split; [reflexivity|].
  apply (search_ignoring_case_finds_more "AI" cl).
  - unfold ChatLogQueries.is_ascii. simpl. repeat constructor.
  - subst cl. unfold ChatLogQueries.is_ascii. simpl.
    repeat constructor.
Defined.

(** X5. [clear] empties the log and restarts the counter but leaves the
    subscribers alone: the next message gets identifier 1 again and is
    delivered to every queue that was subscribed before the [clear]. *)
Theorem clear_keeps_subscribers
  (N : nat) (ops : list ChatLog.Op) (a : nat)
  (who text mtype : string) (meta : list (string * string)) (t1 t2 : Q) :
  let cl := (ChatLog.run (ChatLog.init N) ops).1 in
  a ∈ ChatLog.subscribers cl ->
  let cl0 := ChatLogQueries.clear cl in
  let cl' := (ChatLog.add_message who text mtype meta t1 t2 cl0).1 in
  let m := (ChatLog.add_message who text mtype meta t1 t2 cl0).2 in
  ChatLog.messages cl0 = [] /\
  ChatLog.subscribers cl0 = ChatLog.subscribers cl /\
  ChatLog.message_id m = 1 /\
  ChatLog.content m = text /\
  a ∈ ChatLog.subscribers cl' /\
  ChatLog.queue_items a cl' = ChatLog.queue_items a cl ++ [m].
Proof.
  intros cl Ha cl0 cl' m.
  assert (Hwf : wf cl) by (apply run_wf, wf_init).
  assert (Hwf0 : wf cl0) by (destruct Hwf; by split).
  split; [done|]. split; [done|].
  assert (Hm : (ChatLog.step cl0 (ChatLog.OpAdd who text mtype meta t1 t2))
               = (cl', [m])).
  { simpl. subst cl' m.
    by destruct (ChatLog.add_message who text mtype meta t1 t2 cl0). }
  split.
  { subst m. unfold ChatLog.add_message.
    destruct (ChatLog.get_response_time _ _ _) as [? rt].
    by destruct (ChatLog.notify_subscribers _ _ _) as [subs h]. }
  split.
  { subst m. unfold ChatLog.add_message.
    destruct (ChatLog.get_response_time _ _ _) as [? rt].
    by destruct (ChatLog.notify_subscribers _ _ _) as [subs h]. }
  destruct (ChatLog.heap cl !! a) as [q|] eqn:Hq.
  - destruct (step_subscribed cl0 (ChatLog.OpAdd who text mtype meta t1 t2)
                a q Hwf0 Ha Hq eq_refl) as (Hin & q' & Hq' & Hitems).
    rewrite Hm in Hin, Hq', Hitems. simpl in *.
    split; [done|]. unfold ChatLog.queue_items. by rewrite Hq', Hq.
  - exfalso. clear -Ha Hq.
    assert (Hsub : forall ops cl,
              (forall a, a ∈ ChatLog.subscribers cl ->
                         is_Some (ChatLog.heap cl !! a)) ->
              forall a, a ∈ ChatLog.subscribers (ChatLog.run cl ops).1 ->
                        is_Some (ChatLog.heap (ChatLog.run cl ops).1 !! a)).
    { clear. induction ops as [|o ops IH]; intros cl Hcl; [done|].
      simpl. destruct (ChatLog.step cl o) as [cl1 ms1] eqn:E1.
      specialize (IH cl1).
      destruct (ChatLog.run cl1 ops) as [cl2 ms2]. simpl in *.
      apply IH. clear IH. intros a.
      destruct o; simpl in E1.
      - revert E1. unfold ChatLog.add_message.
        destruct (ChatLog.get_response_time _ _ _) as [? rt].
        unfold ChatLog.notify_subscribers. intros [= <- _]. simpl.
        intros Hin%list_elem_of_filter. destruct Hin as [_ Hin].
        apply Hcl in Hin.
        set (live := filter _ _). clearbody live.
        revert Hin. generalize (ChatLog.heap cl).
        induction live as [|b live IHl]; intros h Hh; [done|].
        simpl. apply IHl. unfold ChatLog.put.
        destruct (h !! b) as [qb|] eqn:Eb; [|done].
        destruct (decide (b = a)) as [->|Hne].
        + by rewrite lookup_insert_eq.
        + by rewrite lookup_insert_ne.
      - injection E1 as <- _. simpl.
        intros [Hin| ->%list_elem_of_singleton]%elem_of_app.
        + destruct (decide (ChatLog.next_addr cl = a)) as [<-|Hne].
          * by rewrite lookup_insert_eq.
          * rewrite lookup_insert_ne by done. by apply Hcl.
        + by rewrite lookup_insert_eq.
      - injection E1 as <- _. unfold ChatLog.unsubscribe.
        case_bool_decide; simpl; [|apply Hcl].
        intros Hin%remove_first_subseteq. by apply Hcl.
      - injection E1 as <- _. unfold ChatLog.queue_get.
        destruct (ChatLog.heap cl !! a0) as [q0|] eqn:E0; [|apply Hcl].
        destruct (ChatLog.items q0 !! ChatLog.taken q0); [|apply Hcl].
        simpl. intros Hin. destruct (decide (a0 = a)) as [->|Hne].
        + by rewrite lookup_insert_eq.
        + rewrite lookup_insert_ne by done. by apply Hcl.
      - injection E1 as <- _. simpl. apply Hcl. }
    destruct (Hsub ops (ChatLog.init N)) with (a := a) as [q Hq'].
    + intros b Hb. by apply elem_of_nil in Hb.
    + exact Ha.
    + fold cl in Hq'. congruence.
Qed.

(** X5 at work: a queue subscribed before the first message receives that
    message with identifier 1 and, after a [clear], the next message with
    identifier 1 as well. *)
Lemma clear_keeps_subscribers_witness :
  let ops := [ChatLog.OpSubscribe; ChatLog.OpAdd "Ann" "first" "chat" [] 1 1] in
  let cl := (ChatLog.run (ChatLog.init 10) ops).1 in
  let cl0 := ChatLogQueries.clear cl in
  let cl' := (ChatLog.add_message "Bob" "again" "chat" [] 2 2 cl0).1 in
  let m := (ChatLog.add_message "Bob" "again" "chat" [] 2 2 cl0).2 in
  0 ∈ ChatLog.subscribers cl /\
  ChatLog.message_id m = 1 /\
  ChatLog.queue_items 0 cl' = ChatLog.queue_items 0 cl ++ [m] /\
  map ChatLog.message_id (ChatLog.queue_items 0 cl') = [1; 1] /\
  map ChatLog.content (ChatLog.queue_items 0 cl') = ["first"; "again"].
Proof.
  intros ops cl cl0 cl' m.
  assert (Ha : 0 ∈ ChatLog.subscribers cl) by (vm_compute; by left).
  destruct (clear_keeps_subscribers 10 ops 0 "Bob" "again" "chat" [] 2 2 Ha)
    as (_ & _ & Hid & _ & _ & Hq).
  split; [exact Ha|]. split; [exact Hid|]. split; [exact Hq|].
  split; reflexivity.
Defined.

(** X6. On a log built by [add_message] calls from [__init__], the
    statistics count every message ever added, evicted ones included:
    [total_messages] is their number and the counter; each sender's entry
    of [messages_by_sender] is the number of that sender's messages; a
    message counts as a bot response when its sender is one of the four
    bot names, as a moderator message when its sender is "Moderator", and
    as a human response otherwise, so the three add up to the total;
    silence breaks never exceed the bot responses; and each of the three
    response rates of [get_statistics] lies between 0 and 1. *)
Theorem statistics_count_every_message
  (N : nat) (ops : list ChatLog.Op) (duration : Q) :
  let cl := (ChatLog.run (ChatLog.init N) ops).1 in
  let ms := (ChatLog.run (ChatLog.init N) ops).2 in
  let s := ChatLogQueries.get_statistics duration cl in
  ChatLogQueries.st_total_messages s = length ms /\
  ChatLog.message_counter cl = length ms /\
  ChatLogQueries.current_message_count s = min N (length ms) /\
  (forall who,
     default 0 (ChatLogQueries.st_messages_by_sender s !! who)
       = length (filter (fun m => ChatLog.sender m = who) ms)) /\
  ChatLogQueries.st_bot_responses s
    = length (filter (fun m => ChatLog.sender m ∈ ChatLog.bot_names) ms) /\
  ChatLogQueries.st_moderator_messages s
    = length (filter (fun m => ChatLog.sender m = "Moderator") ms) /\
  ChatLogQueries.st_bot_responses s + ChatLogQueries.st_human_responses s
    + ChatLogQueries.st_moderator_messages s = length ms /\
  ChatLogQueries.st_silence_breaks s <= ChatLogQueries.st_bot_responses s /\
  (0 <= ChatLogQueries.rate_bots s <= 1)%Q /\
  (0 <= ChatLogQueries.rate_humans s <= 1)%Q /\
  (0 <= ChatLogQueries.rate_moderator s <= 1)%Q.
Proof.
  intros cl ms s.
  destruct (ChatLog.run (ChatLog.init N) ops) as [cl0 ms0] eqn:E.
  simpl in cl, ms. subst cl ms.
  pose proof (run_counted ops _ _ _ [] E counted_empty) as Hc.
  simpl in Hc. destruct Hc as (Ht & Hby & Hb & Hm & Hsum & Hbr).
  destruct (run_window _ _ _ _ E) as (_ & Hcnt & _ & Hw); [simpl; lia|].
  simpl in Hcnt, Hw.
  subst s. unfold ChatLogQueries.get_statistics. simpl.
  split; [done|]. split; [done|].
  split; [rewrite Hw; apply length_last_n|].
  split; [done|]. split; [done|]. split; [done|]. split; [done|].
  split; [done|].
  rewrite Ht.
  split; [apply per_range; lia|]. split; apply per_range; lia.
Qed.

(** X7. [load_transcript], once the file is decoded: the deque holds the
    last [maxlen] loaded messages as they were written, the counter is the
    largest loaded identifier, so the next [add_message] gets an
    identifier above every loaded one; [total_messages] counts every
    loaded message but the bot, human and moderator counts stay 0; the
    subscribers are kept and none of the loaded messages is put on a
    queue. *)
Theorem load_transcript_then_add
  (data : list ChatLog.Message) (cl : ChatLog.t)
  (who text mtype : string) (meta : list (string * string)) (t1 t2 : Q) :
  let cl1 := ChatLogQueries.load_transcript data cl in
  let m := (ChatLog.add_message who text mtype meta t1 t2 cl1).2 in
  ChatLog.messages cl1 = drop (length data - ChatLog.maxlen cl) data /\
  ChatLog.message_counter cl1 = max_list (map ChatLog.message_id data) /\
  ChatLog.message_id m = S (max_list (map ChatLog.message_id data)) /\
  Forall (fun d => ChatLog.message_id d < ChatLog.message_id m) data /\
  ChatLog.total_messages (ChatLog.stats cl1) = length data /\
  ChatLog.bot_responses (ChatLog.stats cl1) = 0 /\
  ChatLog.human_responses (ChatLog.stats cl1) = 0 /\
  ChatLog.moderator_messages (ChatLog.stats cl1) = 0 /\
  ChatLog.subscribers cl1 = ChatLog.subscribers cl /\
  ChatLog.heap cl1 = ChatLog.heap cl.
Proof.
  intros cl1 m. subst cl1 m. unfold ChatLogQueries.load_transcript.
  set (c0 := {| ChatLog.maxlen := ChatLog.maxlen cl; ChatLog.messages := [] |}).
  destruct (foldl_load_frame data c0)
    as (H1 & H2 & H3 & H4 & H5 & H6 & H7 & H8 & H9 & H10).
  pose proof (foldl_load_window data c0) as Hw.
  simpl in *. rewrite Hw by lia.
  assert (Hid : ChatLog.message_id
            (ChatLog.add_message who text mtype meta t1 t2
               (foldl ChatLogQueries.load_message c0 data)).2
          = S (max_list (map ChatLog.message_id data))).
  { unfold ChatLog.add_message.
    destruct (ChatLog.get_response_time _ _ _) as [? rt].
    destruct (ChatLog.notify_subscribers _ _ _) as [subs h]. simpl.
    rewrite H10. lia. }
  split; [reflexivity|]. split; [exact H10|]. split; [exact Hid|].
  split; [|by repeat split].
  rewrite Hid. apply Forall_forall. intros d Hd.
  assert (ChatLog.message_id d <= max_list (map ChatLog.message_id data)).
  { apply max_list_elem_of_le. apply list_elem_of_fmap. by exists d. }
  lia.
Qed.

(** ** Voting: who may vote, and what a session leaves behind *)
Section VotingSessionFacts.
Import Voting VotingAdmin.

Lemma counter_add_sum counts x :
  sum_list (map snd (counter_add counts x)) = S (sum_list (map snd counts)).
Proof.
  unfold counter_add.
  induction counts as [|[k n] counts IH]; cbn [dict_get dict_set]; [done|].
  case_bool_decide; cbn [map snd sum_list]; [simpl; lia|].
  rewrite IH. lia.
Qed.

Lemma counter_sum xs : sum_list (map snd (counter xs)) = length xs.
Proof.
  unfold counter.
  assert (H : forall counts,
    sum_list (map snd (foldl counter_add counts xs))
    = sum_list (map snd counts) + length xs).
  { induction xs as [|x xs IH]; intros counts; simpl; [lia|].
    rewrite IH, counter_add_sum. lia. }
  by rewrite H.
Qed.

Lemma occ_pos c xs : 0 < occ c xs -> c ∈ xs.
Proof.
  unfold occ. intros H.
  destruct (filter (fun x => x = c) xs) as [|y l] eqn:E; [simpl in H; lia|].
  assert (Hy : y ∈ filter (fun x => x = c) xs) by (rewrite E; by left).
  apply list_elem_of_filter in Hy as [-> ?]. done.
Qed.

(** Every stored vote is for a declared candidate, under its voter's key,
    and by an eligible voter when the list of eligible voters is not
    empty. *)
Definition votes_valid (s : t) : Prop :=
  forall k v, (k, v) ∈ votes s ->
    candidate v ∈ candidates s /\
    (eligible_voters s <> [] -> k ∈ eligible_voters s).

Lemma cast_vote_valid voter cand why now stamp s s' :
  cast_vote voter cand why now stamp s = inr s' ->
  votes_valid s ->
  votes_valid s' /\ candidates s' = candidates s /\
  eligible_voters s' = eligible_voters s.
Proof.
  unfold cast_vote.
  destruct (negb (is_active s)); [discriminate|].
  destruct (match end_time s with Some e => Qltb e now | None => false end);
    [discriminate|].
  destruct (is_eligible_voter voter s) eqn:He; simpl; [|discriminate].
  case_bool_decide as Hc; simpl; [|discriminate].
  destruct (_ && _); [discriminate|].
  destruct (_ && _); [discriminate|].
  intros [= <-] Hv. simpl. split; [|done].
  intros k v Hin. simpl in Hin.
  apply dict_set_elem in Hin as [[= -> ->]|Hin]; [|by apply Hv].
  simpl. split; [done|]. intros Hne.
  unfold is_eligible_voter in He.
  destruct (eligible_voters s); [done|]. by apply bool_decide_eq_true in He.
Qed.

Lemma cast_all_valid bs : forall s,
  votes_valid s ->
  votes_valid (cast_all s bs).1 /\
  candidates (cast_all s bs).1 = candidates s /\
  eligible_voters (cast_all s bs).1 = eligible_voters s.
Proof.
  induction bs as [|b bs IH]; intros s Hv; simpl; [done|].
  destruct (cast_vote _ _ _ _ _ s) as [err|s1] eqn:E1; [by apply IH|].
  destruct (cast_vote_valid _ _ _ _ _ _ _ E1 Hv) as (Hv1 & Hc1 & He1).
  specialize (IH s1 Hv1).
  destruct (cast_all s1 bs) as [s2 acc]. simpl in *.
  destruct IH as (? & ? & ?). split; [done|split; congruence].
Qed.

Lemma cast_all_frame bs : forall s,
  let s' := (cast_all s bs).1 in
  is_active s' = is_active s /\ vote_history s' = vote_history s /\
  start_time s' = start_time s /\ enabled s' = enabled s.
Proof.
  induction bs as [|b bs IH]; intros s; simpl; [done|].
  destruct (cast_vote _ _ _ _ _ s) as [err|s1] eqn:E1; [by apply IH|].
  specialize (IH s1). destruct (cast_all s1 bs) as [s2 acc]. simpl in *.
  revert E1. unfold cast_vote.
  repeat (match goal with
          | |- context [if ?c then inl _ else _] => destruct c; [discriminate|]
          end).
  intros [= <-]. simpl in IH. done.
Qed.

Lemma list_remove_app_new x l : x ∉ l -> list_remove x (l ++ [x]) = l.
Proof.
  induction l as [|y l IH]; simpl; intros Hx.
  - by rewrite bool_decide_true.
  - apply not_elem_of_cons in Hx as [Hne Hx].
    rewrite bool_decide_false by congruence. by rewrite IH.
Qed.

Lemma list_remove_elem x l w :
  NoDup l -> (w ∈ list_remove x l <-> w ∈ l /\ w <> x).
Proof.
  induction 1 as [|y l Hy Hnd IH]; simpl.
  - split; [intros H; by apply elem_of_nil in H|intros [H _]; done].
  - case_bool_decide as Hyx.
    + subst y. rewrite elem_of_cons. split.
      * intros Hw. split; [by right|]. intros ->. done.
      * intros [[->|Hw] Hne]; done.
    + rewrite !elem_of_cons, IH. split.
      * intros [->|[? ?]]; [split; [by left|done]|split; [by right|done]].
      * intros [[->|?] ?]; [by left|right; done].
Qed.

Lemma foldl_performance candidate history : forall w total parts,
  w <= parts ->
  let '(w', total', parts') :=
    foldl (performance_step candidate) (w, total, parts) history in
  w' <= parts' /\ parts <= parts' /\ parts' <= parts + length history /\
  (parts' = parts -> w' = w /\ total' = total).
Proof.
  induction history as [|session history IH]; intros w total parts Hw; simpl.
  - repeat split; lia.
  - case_bool_decide as Hin.
    + case_bool_decide as Hwin.
      * specialize (IH (S w) (total + default 0
                         (dict_get candidate (vote_counts session.2)))
                       (S parts) ltac:(lia)).
        destruct (foldl _ _ history) as [[w' total'] parts'].
        destruct IH as (? & ? & ? & ?). repeat split; lia.
      * specialize (IH w (total + default 0
                         (dict_get candidate (vote_counts session.2)))
                       (S parts) ltac:(lia)).
        destruct (foldl _ _ history) as [[w' total'] parts'].
        destruct IH as (? & ? & ? & ?). repeat split; lia.
    + specialize (IH w total parts Hw).
      destruct (foldl _ _ history) as [[w' total'] parts'].
      destruct IH as (? & ? & ? & ?). repeat split; try lia; tauto.
Qed.

End VotingSessionFacts.

(** X8. Who gets a vote recorded in a session that [start_voting] opened:
    [cast_vote] succeeds exactly when the clock has not passed the closing
    time (start plus the given duration, or the default when none or zero
    is given), the candidate is one of the declared candidates, the
    justification is non-empty if one is required, and: with participant
    voting allowed, the voter is one of the candidates; with participant
    voting disallowed, the list of eligible voters is empty, which the
    code treats as open voting, so anyone may vote, only not for
    themselves. *)
Theorem cast_vote_accepted_iff
  (s0 s1 : Voting.t) (cands : list string) (duration : option Q) (t0 : Q)
  (voter cand : string) (why : option string) (now stamp : Q) :
  Voting.start_voting cands duration t0 s0 = inr s1 ->
  let d := match duration with
           | Some d => if Qeq_bool d 0 then Voting.default_duration s0 else d
           | None => Voting.default_duration s0
           end in
  (exists s2, Voting.cast_vote voter cand why now stamp s1 = inr s2) <->
  (now <= t0 + d)%Q /\
  cand ∈ cands /\
  (if Voting.allow_participant_voting s0 then voter ∈ cands
   else voter <> cand) /\
  (Voting.require_justification s0 = true ->
   exists text, why = Some text /\ text <> "").
Proof.
  unfold Voting.start_voting.
  destruct (negb (Voting.enabled s0)); [discriminate|].
  destruct (Voting.is_active s0); [discriminate|].
  intros [= <-].
  unfold Voting.cast_vote, Voting.is_eligible_voter.
  cbn [Voting.is_active Voting.end_time Voting.eligible_voters
       Voting.candidates Voting.allow_participant_voting
       Voting.require_justification negb].
  set (d := match duration with
            | Some d => if Qeq_bool d 0 then Voting.default_duration s0 else d
            | None => Voting.default_duration s0
            end).
  destruct (Qltb (t0 + d) now) eqn:Et.
  { split; [intros [? [=]]|]. intros (Hle & _).
    apply Qltb_lt in Et. exfalso. by apply (Qlt_not_le _ _ Et). }
  apply Qltb_ge in Et.
  assert (Hwhy : Voting.is_empty_text why = false <->
                 exists text, why = Some text /\ text <> "").
  { destruct why as [text|]; simpl.
    - case_bool_decide; split; try done.
      + intros (? & [= <-] & ?). done.
      + intros _. by exists text.
    - split; [done|]. intros (? & [=] & _). }
  destruct (Voting.allow_participant_voting s0).
  - (* the eligible voters are the candidates *)
    destruct (decide (cand ∈ cands)) as [Hc|Hc].
    + assert (Hel : negb match cands with
                         | [] => true
                         | _ :: _ => bool_decide (voter ∈ cands)
                         end = negb (bool_decide (voter ∈ cands))).
      { destruct cands; [|done]. by apply elem_of_nil in Hc. }
      rewrite Hel. case_bool_decide as Hv; simpl.
      * rewrite (bool_decide_true (cand ∈ cands)) by done. simpl.
        rewrite andb_false_r.
        destruct (Voting.require_justification s0); simpl.
        -- destruct (Voting.is_empty_text why) eqn:Ew.
           ++ split; [intros [? [=]]|]. intros (_ & _ & _ & H).
              specialize (H eq_refl). apply Hwhy in H. congruence.
           ++ split; [|by eauto]. intros _. repeat split; try done.
              intros _. by apply Hwhy.
        -- split; [|by eauto]. intros _. by repeat split.
      * split; [intros [? [=]]|]. tauto.
    + split; [|tauto].
      destruct (negb _); [intros [? [=]]|].
      rewrite (bool_decide_false (cand ∈ cands)) by done. simpl.
      intros [? [=]].
  - (* nobody is listed as eligible: open voting *)
    simpl. destruct (decide (cand ∈ cands)) as [Hc|Hc].
    + rewrite (bool_decide_true (cand ∈ cands)) by done. simpl.
      rewrite andb_true_r. case_bool_decide as Hself.
      * split; [intros [? [=]]|]. tauto.
      * destruct (Voting.require_justification s0); simpl.
        -- destruct (Voting.is_empty_text why) eqn:Ew.
           ++ split; [intros [? [=]]|]. intros (_ & _ & _ & H).
              specialize (H eq_refl). apply Hwhy in H. congruence.
           ++ split; [|by eauto]. intros _. repeat split; try done.
              intros _. by apply Hwhy.
        -- split; [|by eauto]. intros _. by repeat split.
    + rewrite (bool_decide_false (cand ∈ cands)) by done. simpl.
      split; [intros [? [=]]|]. tauto.
Qed.

(** X8 at work: with participant voting disallowed, an outsider's vote is
    recorded and a candidate's vote for another candidate is recorded too;
    only a vote for oneself is refused. *)
Lemma cast_vote_accepted_iff_witness :
  let s0 := Voting.init true 300 false false false in
  exists s1,
    Voting.start_voting ["Ann"; "Bob"] None 0 s0 = inr s1 /\
    (exists s2, Voting.cast_vote "Zed" "Ann" None 10 10 s1 = inr s2) /\
    (exists s2, Voting.cast_vote "Bob" "Ann" None 10 10 s1 = inr s2) /\
    ~ (exists s2, Voting.cast_vote "Ann" "Ann" None 10 10 s1 = inr s2).
Proof.
  intros s0. eexists.
  assert (Hs : Voting.start_voting ["Ann"; "Bob"] None 0 s0 = inr _)
    by reflexivity.
  split; [exact Hs|].
  pose proof (fun v c =>
    cast_vote_accepted_iff s0 _ ["Ann"; "Bob"] None 0 v c None 10 10 Hs) as H.
  simpl in H. split; [|split].
  - apply H. split; [done|]. split; [by left|]. split; [done|]. discriminate.
  - apply H. split; [done|]. split; [by left|]. split; [done|]. discriminate.
  - intros Hex. apply H in Hex as (_ & _ & Hne & _). done.
Defined.

(** X9. What [end_voting] reports for a session of [start_voting] and any
    [cast_vote] calls: it succeeds; every entry of [vote_counts] is for a
    declared candidate and positive, no candidate is listed twice, and the
    counts add up to [total_votes]; with participant voting allowed every
    voter is a candidate, [total_votes] is at most the number of
    candidates when these are distinct, and [participation_rate] is
    [total_votes] over the number of candidates; with participant voting
    disallowed [participation_rate] is 0 whatever was cast. *)
Theorem session_results_are_consistent
  (s0 s1 : Voting.t) (cands : list string) (duration : option Q)
  (t0 now : Q) (bs : list Voting.Ballot) :
  Voting.start_voting cands duration t0 s0 = inr s1 ->
  exists s3 r,
    Voting.end_voting now (Voting.cast_all s1 bs).1 = inr (s3, r) /\
    (forall c n, (c, n) ∈ Voting.vote_counts r -> c ∈ cands /\ 0 < n) /\
    NoDup (map fst (Voting.vote_counts r)) /\
    sum_list (map snd (Voting.vote_counts r)) = Voting.total_votes r /\
    (Voting.voting_duration r == now - t0)%Q /\
    (Voting.allow_participant_voting s0 = true ->
     (forall voter, voter ∈ map fst (Voting.votes_by_voter r) ->
                    voter ∈ cands) /\
     (NoDup cands -> Voting.total_votes r <= length cands) /\
     (cands <> [] ->
      Voting.participation_rate r
        = (inject_Z (Z.of_nat (Voting.total_votes r))
           / inject_Z (Z.of_nat (length cands)))%Q)) /\
    (Voting.allow_participant_voting s0 = false ->
     Voting.participation_rate r = 0%Q).
Proof.
  intros Hstart.
  assert (Hs1 : Voting.votes s1 = [] /\ Voting.is_active s1 = true /\
                Voting.candidates s1 = cands /\
                Voting.start_time s1 = Some t0 /\
                Voting.eligible_voters s1
                  = if Voting.allow_participant_voting s0 then cands else []).
  { revert Hstart. unfold Voting.start_voting.
    destruct (negb (Voting.enabled s0)); [discriminate|].
    destruct (Voting.is_active s0); [discriminate|].
    by intros [= <-]. }
  destruct Hs1 as (Hv1 & Ha1 & Hc1 & Ht1 & He1).
  destruct (cast_all_valid bs s1) as (Hval & Hc2 & He2).
  { intros k v Hin. rewrite Hv1 in Hin. by apply elem_of_nil in Hin. }
  destruct (cast_all_frame bs s1) as (Ha2 & _ & Ht2 & _).
  destruct (Voting.cast_all s1 bs) as [s2 recorded] eqn:E.
  destruct (cast_all_spec bs _ _ _ E) as (Hnd & _).
  { rewrite Hv1. constructor. }
  simpl in *.
  unfold Voting.end_voting. rewrite Ha2, Ha1. simpl.
  eexists _, _. split; [reflexivity|]. simpl.
  set (xs := map (fun kv => Voting.candidate (snd kv)) (Voting.votes s2)).
  split; [|split; [|split; [|split; [|split]]]].
  - intros c n [-> Hn]%counter_elem. split; [|done].
    apply occ_pos in Hn. subst xs.
    apply list_elem_of_fmap in Hn as [[k v] [-> Hin]].
    rewrite <- Hc1, <- Hc2. by apply (Hval k v).
  - apply counter_good.
  - rewrite counter_sum. subst xs. by rewrite length_map.
  - rewrite Ht2, Ht1. simpl. reflexivity.
  - intros Hallow. rewrite Hallow in He1.
    assert (Hvoters : forall voter,
              voter ∈ map fst (Voting.votes s2) -> voter ∈ cands).
    { intros voter Hin.
      destruct cands as [|c0 cands'].
      - (* no candidate: no vote can have been recorded *)
        apply list_elem_of_fmap in Hin as [[k v] [_ Hin]].
        destruct (Hval k v Hin) as [Hcand _].
        rewrite Hc2, Hc1 in Hcand. by apply elem_of_nil in Hcand.
      - apply list_elem_of_fmap in Hin as [[k v] [-> Hin]].
        destruct (Hval k v Hin) as [_ Hel].
        rewrite He2, He1 in Hel. by apply Hel. }
    split; [done|]. split.
    + intros Hndc. rewrite <- (length_map fst).
      apply submseteq_length, NoDup_submseteq; done.
    + intros Hne. rewrite He2, He1. by destruct cands.
  - intros Hallow. rewrite Hallow in He1. by rewrite He2, He1.
Qed.

(** X9 at work: three candidates, two counted votes. *)
Lemma session_results_are_consistent_witness :
  let s0 := Voting.init true 300 true false false in
  let bs := [Voting.mkBallot "Ann" "Bob" None 1 1;
             Voting.mkBallot "Bob" "Bob" None 2 2;
             Voting.mkBallot "Zed" "Bob" None 3 3] in
  exists s1 s3 r,
    Voting.start_voting ["Ann"; "Bob"; "Cy"] None 0 s0 = inr s1 /\
    Voting.end_voting 9 (Voting.cast_all s1 bs).1 = inr (s3, r) /\
    Voting.vote_counts r = [("Bob", 2)] /\
    sum_list (map snd (Voting.vote_counts r)) = Voting.total_votes r /\
    (Voting.participation_rate r == 2 # 3)%Q.
Proof.
  intros s0 bs. eexists.
  assert (Hs : Voting.start_voting ["Ann"; "Bob"; "Cy"] None 0 s0 = inr _)
    by reflexivity.
  destruct (session_results_are_consistent s0 _ _ None 0 9 bs Hs)
    as (s3 & r & Hend & _ & _ & Hsum & _).
  exists s3, r. split; [exact Hs|]. split; [exact Hend|].
  vm_compute in Hend. injection Hend as <- <-.
  split; [reflexivity|]. split; [exact Hsum|]. reflexivity.
Defined.

(** X10. A finished session is closed: after [end_voting] the system is
    inactive, the history has one more entry, which holds the time, the
    candidates and the results; [cast_vote] and a second [end_voting]
    raise "No active voting session" and [get_vote_summary] returns the
    empty dictionary; [reset] keeps the history; and a new [start_voting]
    succeeds, begins with no votes and keeps the history.  While a session
    is active, [start_voting] raises "Voting session already active". *)
Theorem finished_session_is_closed
  (s2 s3 : Voting.t) (r : Voting.VotingResults) (now : Q) :
  Voting.end_voting now s2 = inr (s3, r) ->
  (forall cands d t,
     Voting.enabled s2 = true ->
     Voting.start_voting cands d t s2 = inl "Voting session already active") /\
  Voting.is_active s3 = false /\
  Voting.vote_history s3
    = Voting.vote_history s2 ++ [(now, Voting.candidates s2, r)] /\
  (forall voter cand why t stamp,
     Voting.cast_vote voter cand why t stamp s3
       = inl "No active voting session") /\
  (forall t, Voting.end_voting t s3 = inl "No active voting session") /\
  (forall t, VotingAdmin.get_vote_summary t s3 = inr None) /\
  Voting.vote_history (VotingAdmin.reset s3) = Voting.vote_history s3 /\
  (forall cands d t,
     Voting.enabled s2 = true ->
     exists s4,
       Voting.start_voting cands d t s3 = inr s4 /\
       Voting.votes s4 = [] /\ Voting.candidates s4 = cands /\
       Voting.vote_history s4 = Voting.vote_history s3).
Proof.
  unfold Voting.end_voting.
  destruct (Voting.is_active s2) eqn:Ha; simpl; [|discriminate].
  intros [= <- <-].
  split.
  { intros cands d t He. unfold Voting.start_voting. by rewrite He, Ha. }
  split; [done|]. split; [done|].
  split; [done|]. split; [done|]. split; [done|]. split; [done|].
  intros cands d t He. unfold Voting.start_voting. simpl. rewrite He. simpl.
  eexists. split; [reflexivity|]. done.
Qed.

(** X10 at work: a session with one vote is ended. *)
Lemma finished_session_is_closed_witness :
  let s0 := Voting.init true 300 true false false in
  exists s1 s3 r,
    Voting.start_voting ["Ann"; "Bob"] None 0 s0 = inr s1 /\
    Voting.end_voting 9
      (Voting.cast_all s1 [Voting.mkBallot "Ann" "Bob" None 1 1]).1
      = inr (s3, r) /\
    Voting.is_active s3 = false /\
    length (Voting.vote_history s3) = 1 /\
    Voting.cast_vote "Bob" "Ann" None 2 2 s3
      = inl "No active voting session".
Proof.
  intros s0. eexists. eexists. eexists.
  split; [reflexivity|].
  assert (He : Voting.end_voting 9
      (Voting.cast_all
         (Voting.mkVotingSystem true 300 true false false true ["Ann"; "Bob"]
            ["Ann"; "Bob"] [] (Some 0%Q) (Some (0 + 300)%Q) [])
         [Voting.mkBallot "Ann" "Bob" None 1 1]).1 = inr _) by reflexivity.
  split; [exact He|].
  destruct (finished_session_is_closed _ _ _ _ He)
    as (_ & Hin & Hh & Hc & _).
  split; [exact Hin|]. split; [by rewrite Hh|]. apply Hc.
Defined.

(** X11. The list of eligible voters.  An empty list means open voting:
    everyone is eligible.  After [add_eligible_voter v] the eligible voters
    are [v] and those listed before, so adding a voter to an open vote
    closes it to everyone else.  Adding twice is adding once, and a list
    without repetitions stays so.  Removing a voter that was just added to
    a list not holding it gives the list back.  After
    [remove_eligible_voter v] on a list without repetitions the eligible
    voters are the listed ones other than [v], unless none is left, in
    which case the vote is open to everyone. *)
Theorem eligible_voter_list_edits (s : Voting.t) (v w : string) :
  (Voting.is_eligible_voter w s = true <->
     Voting.eligible_voters s = [] \/ w ∈ Voting.eligible_voters s) /\
  (Voting.is_eligible_voter w (VotingAdmin.add_eligible_voter v s) = true <->
     w = v \/ w ∈ Voting.eligible_voters s) /\
  VotingAdmin.add_eligible_voter v (VotingAdmin.add_eligible_voter v s)
    = VotingAdmin.add_eligible_voter v s /\
  (v ∉ Voting.eligible_voters s ->
   Voting.eligible_voters
     (VotingAdmin.remove_eligible_voter v
        (VotingAdmin.add_eligible_voter v s))
     = Voting.eligible_voters s) /\
  (NoDup (Voting.eligible_voters s) ->
   NoDup (Voting.eligible_voters (VotingAdmin.add_eligible_voter v s)) /\
   (Voting.is_eligible_voter w (VotingAdmin.remove_eligible_voter v s) = true
    <-> (w ∈ Voting.eligible_voters s /\ w <> v) \/
        (forall u, u ∈ Voting.eligible_voters s -> u = v))).
Proof.
  assert (Hel : forall s0,
    Voting.is_eligible_voter w s0 = true <->
    Voting.eligible_voters s0 = [] \/ w ∈ Voting.eligible_voters s0).
  { intros s0. unfold Voting.is_eligible_voter.
    destruct (Voting.eligible_voters s0) as [|x l]; [tauto|].
    rewrite bool_decide_eq_true. split; [by right|]. by intros [?|?]. }
  split; [apply Hel|]. split; [|split; [|split]].
  - rewrite Hel. unfold VotingAdmin.add_eligible_voter.
    case_bool_decide as Hv; simpl.
    + split.
      * intros [He|Hw]; [by rewrite He in Hv; apply elem_of_nil in Hv|by right].
      * intros [->|Hw]; by right.
    + rewrite elem_of_app, list_elem_of_singleton. split.
      * intros [He|[?|?]]; [by apply app_eq_nil in He as [_ [=]]|by right|by left].
      * intros [?|?]; right; [by right|by left].
  - unfold VotingAdmin.add_eligible_voter.
    destruct (decide (v ∈ Voting.eligible_voters s)) as [Hv|Hv].
    + rewrite (bool_decide_true _ Hv). by rewrite (bool_decide_true _ Hv).
    + rewrite (bool_decide_false _ Hv). simpl.
      rewrite bool_decide_true; [done|].
      apply elem_of_app. right. by left.
  - intros Hv. unfold VotingAdmin.add_eligible_voter.
    rewrite (bool_decide_false _ Hv).
    unfold VotingAdmin.remove_eligible_voter. simpl.
    rewrite bool_decide_true by (apply elem_of_app; right; by left).
    simpl. by apply list_remove_app_new.
  - intros Hnd. split.
    + unfold VotingAdmin.add_eligible_voter. case_bool_decide as Hv; [done|].
      simpl. apply NoDup_app. repeat split; [done| |apply NoDup_singleton].
      intros x Hx ->%list_elem_of_singleton. done.
    + rewrite Hel. unfold VotingAdmin.remove_eligible_voter.
      case_bool_decide as Hv; simpl.
      * rewrite (list_remove_elem v _ w Hnd). split.
        -- intros [He|?]; [right|by left].
           intros u Hu. destruct (decide (u = v)) as [|Hne]; [done|].
           assert (Hin : u ∈ VotingAdmin.list_remove v (Voting.eligible_voters s))
             by by apply list_remove_elem.
           rewrite He in Hin. by apply elem_of_nil in Hin.
        -- intros [?|Hall]; [by right|left].
           destruct (VotingAdmin.list_remove v (Voting.eligible_voters s))
             as [|u l] eqn:E; [done|].
           assert (Hu : u ∈ VotingAdmin.list_remove v (Voting.eligible_voters s))
             by (rewrite E; by left).
           apply (list_remove_elem v _ u Hnd) in Hu as [Hu Hne].
           by destruct (Hne (Hall u Hu)).
      * split.
        -- intros [He|Hw]; [right|left].
           ++ intros u Hu. rewrite He in Hu. by apply elem_of_nil in Hu.
           ++ split; [done|]. by intros ->.
        -- intros [[? ?]|Hall]; [by right|left].
           destruct (Voting.eligible_voters s) as [|u l]; [done|].
           exfalso. apply Hv. rewrite <- (Hall u); by left.
Qed.

(** X12. [get_candidate_performance] over the recorded sessions: a
    candidate never has more wins than participations, nor more
    participations than there are sessions, so the win rate lies between 0
    and 1; a candidate that took part in no session has no wins and no
    votes, and both rates are 0. *)
Theorem candidate_performance_bounds (candidate : string) (s : Voting.t) :
  let p := VotingAdmin.get_candidate_performance candidate s in
  VotingAdmin.wins p <= VotingAdmin.participations p /\
  VotingAdmin.participations p <= length (Voting.vote_history s) /\
  (0 <= VotingAdmin.win_rate p <= 1)%Q /\
  (VotingAdmin.participations p = 0 ->
   VotingAdmin.wins p = 0 /\ VotingAdmin.perf_total_votes p = 0 /\
   VotingAdmin.win_rate p = 0%Q /\ VotingAdmin.avg_votes p = 0%Q).
Proof.
  intros p. subst p. unfold VotingAdmin.get_candidate_performance.
  pose proof (foldl_performance candidate (Voting.vote_history s) 0 0 0
                ltac:(lia)) as H.
  destruct (foldl _ _ (Voting.vote_history s)) as [[w total] parts].
  destruct H as (Hw & _ & Hp & Hz). simpl.
  split; [done|]. split; [lia|]. split.
  - destruct (Nat.ltb_spec 0 parts) as [Hpos|Hzero]; [|lra].
    assert (Hq : (0 < inject_Z (Z.of_nat parts))%Q).
    { change 0%Q with (inject_Z 0). rewrite <- Zlt_Qlt. lia. }
    split.
    + apply Qle_shift_div_l; [done|]. rewrite Qmult_0_l.
      change 0%Q with (inject_Z 0). rewrite <- Zle_Qle. lia.
    + apply Qle_shift_div_r; [done|]. rewrite Qmult_1_l.
      rewrite <- Zle_Qle. lia.
  - intros ->. destruct (Hz eq_refl) as [-> ->]. done.
Qed.

(** ** Bots: how likely an answer is, and what the counters count *)
Section BotLiveliness.
Import Bot.

(** The state that feeds the response probability stays in range: the
    conversation energy between 1 and 1.5, the urgency and the count of
    missed opportunities not negative. *)
Definition lively (b : t) : Prop :=
  (1 <= conversation_energy b)%Q /\ (conversation_energy b <= 1.5)%Q /\
  (0 <= response_urgency b)%Q /\ (0 <= missed_opportunities b)%Z.

Lemma lively_with_stats s b : lively b -> lively (with_stats s b).
Proof. done. Qed.

Lemma generate_lively g c b cl :
  lively b -> lively (generate_autonomous_response g c b cl).1.2.
Proof.
  intros (H1 & H2 & H3 & H4). unfold generate_autonomous_response.
  destruct g as [text|err]; [|done].
  destruct (PyStr.has_text text); [|done].
  destruct (ChatLog.add_message _ _ _ _ _ _ _) as [cl' m].
  unfold lively. simpl.
  set (e := conversation_energy b) in *.
  set (u := response_urgency b) in *.
  destruct (Q.min_spec 1.5 (e + 0.1)) as [[? ->]|[? ->]];
  destruct (Q.max_spec 0 (u - 0.3)) as [[? ->]|[? ->]];
  repeat split; try lra; lia.
Qed.

Lemma miss_lively b : lively b -> lively (miss_opportunity b).
Proof.
  intros (H1 & H2 & H3 & H4). unfold lively, miss_opportunity. simpl.
  repeat split; try lra; lia.
Qed.

Lemma should_respond_lively m h now d b :
  lively b -> lively (should_respond_autonomously m h now d b).2.
Proof.
  intros (H1 & H2 & H3 & H4). unfold should_respond_autonomously.
  destruct (direct_mention _); [done|].
  destruct (Qltb _ _); [done|].
  unfold lively. simpl. repeat split; try done; lia.
Qed.

Lemma process_lively message e b cl :
  lively b -> lively (process_new_message message e b cl).1.2.
Proof.
  intros Hl. unfold process_new_message.
  destruct (in_cooldown _ _); [by apply miss_lively|].
  pose proof (should_respond_lively message (ChatLog.messages cl)
                (now_scan e) (draw e) b Hl) as H1.
  destruct (should_respond_autonomously _ _ _ _ _) as [go b1].
  destruct go; [|done].
  pose proof (generate_lively (gen e) (clk e) b1 cl H1) as H2.
  by destruct (generate_autonomous_response _ _ _ _) as [[a b2] cl2].
Qed.

Lemma spontaneous_lively e b cl :
  lively b -> lively (check_spontaneous_contribution e b cl).1.2.
Proof.
  intros Hl. unfold check_spontaneous_contribution.
  pose proof (generate_lively (gen e) (clk e) b cl Hl) as H2.
  destruct (negb _); [done|].
  destruct (in_cooldown _ _); [by apply miss_lively|].
  destruct (last _); [|done].
  destruct (Qltb (threshold e) _).
  - destruct (_ =? 0)%nat; [|done]. destruct (Qltb _ _); [|done].
    by destruct (generate_autonomous_response _ _ _ _) as [[a b2] cl2].
  - destruct (_ && _); [|done].
    by destruct (generate_autonomous_response _ _ _ _) as [[a b2] cl2].
Qed.

Lemma cycle_lively e b cl : lively b -> lively (monitor_cycle e b cl).1.2.
Proof.
  intros Hl. unfold monitor_cycle.
  destruct (message_queue b) as [q|]; [|by apply spontaneous_lively].
  destruct (ChatLog.queue_get q cl) as [cl1 [message|]].
  - case_bool_decide; [done|]. by apply process_lively.
  - by apply spontaneous_lively.
Qed.

Lemma step_lively b cl ev : lively b -> lively (step b cl ev).1.2.
Proof.
  intros Hl. destruct ev; cbn [step].
  - unfold start_autonomous_monitoring. by destruct (ChatLog.subscribe cl).
  - destruct (is_monitoring b); [|done].
    pose proof (cycle_lively e b cl Hl).
    by destruct (monitor_cycle e b cl) as [[o b1] cl1].
  - unfold stop_monitoring.
    by destruct (message_queue b), (has_chat_log b).
  - unfold lively. simpl. repeat split; try lra; lia.
  - done.
  - simpl. unfold receive_message. by case_bool_decide.
  - simpl. by destruct gen0.
  - done.
Qed.

Lemma run_lively evs : forall b cl, lively b -> lively (run b cl evs).1.2.
Proof.
  induction evs as [|ev evs IH]; intros b cl Hl; simpl; [done|].
  pose proof (step_lively b cl ev Hl) as H1.
  destruct (step b cl ev) as [[o b1] cl1].
  specialize (IH b1 cl1 H1).
  by destruct (run b1 cl1 evs) as [[ps b2] cl2].
Qed.

Lemma init_lively n mo pr pe st te mt bq b :
  init n mo pr pe st te mt bq = inr b -> lively b.
Proof.
  unfold init. destruct (_ || _); [|discriminate].
  intros [= <-]. unfold lively. simpl. repeat split; try lra; lia.
Qed.

Lemma multiplier_range b tr :
  (1 <= get_personality_multiplier b tr <= 1.6)%Q.
Proof.
  unfold get_personality_multiplier.
  repeat match goal with
         | |- context [if ?c then _ else _] => destruct c
         end; lra.
Qed.

(** The chain of adjustments of [_should_respond_autonomously], on
    arbitrary signals. *)
Lemma probability_chain (c1 c2 c3 c4 c5 c6 c7 : bool) (mine : nat)
  (mult energy urgency : Q) :
  (1 <= mult)%Q -> (1 <= energy)%Q -> (0 <= urgency)%Q ->
  let p0 : Q := 0.80%Q in
  let p1 := (if c1 then p0 + 0.8 else p0)%Q in
  let p2 := (if c2 then p1 + 0.7 else p1)%Q in
  let p3 := (if c3 then p2 + 0.5 else p2)%Q in
  let p4 := (if c4 then p3 + 0.6 else p3)%Q in
  let p5 := (if c5 then p4 + 0.6 else p4)%Q in
  let p6 := (if c6 then p5 + 0.5 else p5)%Q in
  let p7 := (if (mine =? 0)%nat then p6 + 0.15
             else if (3 <=? mine)%nat then p6 * 0.7 else p6)%Q in
  let p8 := (p7 * mult)%Q in
  let p9 := (p8 + energy * 0.2)%Q in
  let p10 := (p9 + urgency * 0.3)%Q in
  let p11 := (if c7 then p10 + 0.2 else p10)%Q in
  (0.75 < Qmin p11 0.95)%Q /\ (Qmin p11 0.95 <= 0.95)%Q /\
  (mine < 3 -> (Qmin p11 0.95 == 0.95)%Q).
Proof.
  intros Hm He Hu p0 p1 p2 p3 p4 p5 p6 p7 p8 p9 p10 p11.
  assert (H6 : (0.8 <= p6)%Q).
  { subst p6 p5 p4 p3 p2 p1 p0.
    destruct c1, c2, c3, c4, c5, c6; lra. }
  assert (H7 : (0.56 <= p7)%Q /\ (mine < 3 -> (0.8 <= p7)%Q)).
  { subst p7. destruct (Nat.eqb_spec mine 0); [split; [lra|intros; lra]|].
    destruct (Nat.leb_spec 3 mine); split; try lra; intros; try lra; lia. }
  destruct H7 as [H7 H7'].
  assert (H8 : (p7 <= p8)%Q).
  { subst p8. rewrite <- (Qmult_1_r p7) at 1.
    apply Qmult_le_l; lra. }
  assert (H11 : (p8 + 0.2 <= p11)%Q).
  { subst p11 p10 p9. destruct c7; lra. }
  destruct (Q.min_spec p11 0.95) as [[? ->]|[? ->]].
  - split; [lra|]. split; [lra|]. intros Hlt. specialize (H7' Hlt). lra.
  - split; [lra|]. split; [lra|]. intros _. reflexivity.
Qed.

Lemma response_probability_range b tr content ctx :
  lively b ->
  (0.75 < response_probability b tr content ctx)%Q /\
  (response_probability b tr content ctx <= 0.95)%Q /\
  (count_sender (name (config b)) ctx < 3 ->
   (response_probability b tr content ctx == 0.95)%Q).
Proof.
  intros (H1 & _ & H3 & _).
  destruct (multiplier_range b tr) as [Hm _].
  exact (probability_chain _ _ _ _ _ _ _ _ _ _ _ Hm H1 H3).
Qed.

(** *** The counters *)

Lemma generate_counts g c b cl :
  let r := generate_autonomous_response g c b cl in
  let posted := match r.1.1 with Posted _ => 1 | _ => 0 end in
  total_responses r.1.2 = total_responses b + posted /\
  autonomous_responses (stats r.1.2)
    = autonomous_responses (stats b) + posted /\
  name (config r.1.2) = name (config b).
Proof.
  unfold generate_autonomous_response.
  destruct g as [text|err]; [|simpl; repeat split; first [lia|done]].
  destruct (PyStr.has_text text); [|simpl; repeat split; first [lia|done]].
  destruct (ChatLog.add_message _ _ _ _ _ _ _) as [cl' m]. simpl. repeat split; first [lia|done].
Qed.

(** What a cycle does to the counters: both go up by one when the cycle
    posts, and stay otherwise. *)
Definition counts_step (o : Outcome) (b b' : t) : Prop :=
  let posted := match o with Attempted (Posted _) => 1 | _ => 0 end in
  total_responses b' = total_responses b + posted /\
  autonomous_responses (stats b')
    = autonomous_responses (stats b) + posted /\
  name (config b') = name (config b).

Lemma should_respond_counts m h now d b :
  let b' := (should_respond_autonomously m h now d b).2 in
  total_responses b' = total_responses b /\
  autonomous_responses (stats b') = autonomous_responses (stats b) /\
  name (config b') = name (config b).
Proof.
  unfold should_respond_autonomously.
  destruct (direct_mention _); [done|]. by destruct (Qltb _ _).
Qed.

Lemma process_counts message e b cl :
  let r := process_new_message message e b cl in
  counts_step r.1.1 b r.1.2.
Proof.
  unfold process_new_message, counts_step.
  destruct (in_cooldown _ _); [simpl; repeat split; first [lia|done]|].
  pose proof (should_respond_counts message (ChatLog.messages cl)
                (now_scan e) (draw e) b) as H1.
  destruct (should_respond_autonomously _ _ _ _ _) as [go b1].
  simpl in H1. destruct H1 as (H1 & H2 & H3).
  destruct go; [|simpl; repeat split; first [lia|done]].
  pose proof (generate_counts (gen e) (clk e) b1 cl) as Hg.
  destruct (generate_autonomous_response _ _ _ _) as [[a b2] cl2].
  simpl in *. destruct Hg as (? & ? & ?).
  destruct a; repeat split; try lia; congruence.
Qed.

Lemma spontaneous_counts e b cl :
  let r := check_spontaneous_contribution e b cl in
  counts_step r.1.1 b r.1.2.
Proof.
  unfold check_spontaneous_contribution, counts_step.
  pose proof (generate_counts (gen e) (clk e) b cl) as Hg.
  destruct (negb _); [simpl; repeat split; first [lia|done]|].
  destruct (in_cooldown _ _); [simpl; repeat split; first [lia|done]|].
  destruct (last _); [|simpl; repeat split; first [lia|done]].
  destruct (Qltb (threshold e) _).
  - destruct (_ =? 0)%nat; [|simpl; repeat split; first [lia|done]].
    destruct (Qltb _ _); [|simpl; repeat split; first [lia|done]].
    destruct (generate_autonomous_response _ _ _ _) as [[a b2] cl2].
    simpl in *. destruct Hg as (? & ? & ?).
    destruct a; repeat split; try lia; congruence.
  - destruct (_ && _); [|simpl; repeat split; first [lia|done]].
    destruct (generate_autonomous_response _ _ _ _) as [[a b2] cl2].
    simpl in *. destruct Hg as (? & ? & ?).
    destruct a; repeat split; try lia; congruence.
Qed.

Lemma cycle_counts e b cl :
  let r := monitor_cycle e b cl in counts_step r.1.1 b r.1.2.
Proof.
  unfold monitor_cycle.
  destruct (message_queue b) as [q|]; [|apply spontaneous_counts].
  destruct (ChatLog.queue_get q cl) as [cl1 [message|]].
  - case_bool_decide; [unfold counts_step; simpl; repeat split; first [lia|done]|].
    apply process_counts.
  - apply spontaneous_counts.
Qed.

Lemma step_counts b cl ev :
  let r := step b cl ev in
  total_responses r.1.2
    = total_responses b + length (post_of r.1.1 b r.1.2) /\
  autonomous_responses (stats r.1.2)
    = autonomous_responses (stats b) + length (post_of r.1.1 b r.1.2) /\
  name (config r.1.2) = name (config b) /\
  Forall (fun p => ChatLog.sender (post_message p) = name (config b))
         (post_of r.1.1 b r.1.2).
Proof.
  destruct ev; cbn [step].
  - unfold start_autonomous_monitoring. destruct (ChatLog.subscribe cl).
    simpl. repeat split; try lia. constructor.
  - destruct (is_monitoring b) eqn:Hmon.
    + pose proof (cycle_counts e b cl) as H.
      pose proof (monitor_cycle_spec e b cl) as Hs.
      unfold cycle_spec in Hs.
      destruct (monitor_cycle e b cl) as [[o b1] cl1].
      unfold counts_step in H. simpl in *.
      destruct H as (H1 & H2 & H3).
      destruct o as [| | | | |[m| |err]]; simpl in *;
        repeat split; try lia; try done; try constructor; try constructor.
      unfold posted_step in Hs. tauto.
    + simpl. repeat split; try lia. constructor.
  - unfold stop_monitoring.
    destruct (message_queue b), (has_chat_log b); simpl;
      repeat split; try lia; constructor.
  - simpl. repeat split; try lia. constructor.
  - simpl. repeat split; try lia. constructor.
  - simpl. unfold receive_message. case_bool_decide; simpl;
      repeat split; try lia; constructor.
  - simpl. destruct gen0; simpl; repeat split; try lia; constructor.
  - simpl. repeat split; try lia. constructor.
Qed.

Lemma run_counts evs : forall b cl,
  let r := run b cl evs in
  total_responses r.1.2 = total_responses b + length r.1.1 /\
  autonomous_responses (stats r.1.2)
    = autonomous_responses (stats b) + length r.1.1 /\
  name (config r.1.2) = name (config b) /\
  Forall (fun p => ChatLog.sender (post_message p) = name (config b)) r.1.1.
Proof.
  induction evs as [|ev evs IH]; intros b cl; simpl.
  - repeat split; try lia. constructor.
  - pose proof (step_counts b cl ev) as H1.
    destruct (step b cl ev) as [[o b1] cl1].
    specialize (IH b1 cl1).
    destruct (run b1 cl1 evs) as [[ps b2] cl2]. simpl in *.
    destruct H1 as (H1 & H2 & H3 & H4). destruct IH as (I1 & I2 & I3 & I4).
    rewrite length_app. repeat split; try lia; try congruence.
    apply Forall_app. split; [done|].
    eapply Forall_impl; [exact I4|]. simpl. intros p Hp. congruence.
Qed.

End BotLiveliness.

(** X13. How likely an answer is.  For a bot built by [__init__], after
    any events: the probability that [_should_respond_autonomously]
    compares its random draw with lies above 0.75 and is at most 0.95, so
    a draw below 0.75 always gives an answer; and unless the bot wrote
    three or more of the last ten messages the probability is 0.95
    exactly, whatever the triggers, the personality and the urgency: then
    the bot answers exactly when it is mentioned or the draw is below
    0.95.  The bot's name and the text of the message are ASCII, where
    [Bot.mentions] is the direct-mention test the code makes. *)
Theorem answer_probability_is_pinned
  (n mo pr pe st : string) (te : Q) (mt : Z) (bq : list string)
  (b0 : Bot.t) (cl0 : ChatLog.t) (evs : list Bot.Event)
  (message : ChatLog.Message) (history : list ChatLog.Message)
  (now draw : Q) :
  Bot.init n mo pr pe st te mt bq = inr b0 ->
  ChatLogQueries.is_ascii n ->
  ChatLogQueries.is_ascii (ChatLog.content message) ->
  let b := (Bot.run b0 cl0 evs).1.2 in
  let recent :=
    if (10 <=? length history)%nat then PyStr.last_n 10 history
    else history in
  let mentioned :=
    Bot.mentions b (PyStr.lower (ChatLog.content message)) in
  let answer :=
    (Bot.should_respond_autonomously message history now draw b).1 in
  ((draw <= 0.75)%Q -> answer = true) /\
  (mentioned = true -> answer = true) /\
  ((0.95 <= draw)%Q -> mentioned = false -> answer = false) /\
  (Bot.count_sender (Bot.name (Bot.config b)) recent < 3 ->
   (answer = true <-> mentioned = true \/ (draw < 0.95)%Q)).
Proof.
  intros Hinit _ _ b recent mentioned answer.
  assert (Hl : lively b).
  { subst b. apply run_lively. by eapply init_lively. }
  subst answer. unfold Bot.should_respond_autonomously.
  fold recent.
  set (tr := Bot.analyze_response_triggers _ _ _ _ _).
  assert (Hm : Bot.direct_mention tr = mentioned) by done.
  rewrite Hm.
  set (b1 := Bot.with_stats _ b).
  assert (Hl1 : lively b1) by done.
  destruct (response_probability_range b1 tr
              (PyStr.lower (ChatLog.content message)) recent Hl1)
    as (Hlo & Hhi & Hpin).
  set (p := Bot.response_probability b1 tr _ recent) in *.
  destruct mentioned.
  { repeat split; try done. intros _. by left. }
  destruct (Qltb draw p) eqn:Ed; simpl.
  - apply Qltb_lt in Ed. repeat split; try done.
    + intros Hge _. lra.
    + intros _. right. lra.
  - apply Qltb_ge in Ed. repeat split; try done.
    + intros Hle. lra.
    + intros [?|Hlt]; [done|].
      assert (Hp : (p == 0.95)%Q) by by apply Hpin.
      lra.
Qed.

(** X13 at work: an analytical bot that has not spoken yet and is not
    mentioned still answers on a draw of 0.9. *)
Lemma answer_probability_is_pinned_witness :
  exists b0,
    Bot.init "Skeptic" "gpt-4" "openai" "analytical" "con" 0.8 120
      ["Where's the data to support this?"] = inr b0 /\
    let message := ChatLog.mkMessage "Ann" "Let us begin" 1 1 "chat" [] in
    (Bot.should_respond_autonomously message [message] 2 0.9 b0).1 = true.
Proof.
  eexists.
  assert (Hi : Bot.init "Skeptic" "gpt-4" "openai" "analytical" "con" 0.8 120
                 ["Where's the data to support this?"] = inr _) by reflexivity.
  split; [exact Hi|]. intros message.
  destruct (answer_probability_is_pinned _ _ _ _ _ _ _ _ _
              (ChatLog.init 10) [] message [message] 2 0.9 Hi)
    as (_ & _ & _ & Hpin).
  { unfold ChatLogQueries.is_ascii. simpl. repeat constructor. }
  { unfold ChatLogQueries.is_ascii. simpl. repeat constructor. }
  apply Hpin.
  - vm_compute. lia.
  - right. reflexivity.
Defined.

(** X14. What the counters count.  For a bot built by [__init__], after
    any events, [total_responses] and the statistic
    [autonomous_responses] both equal the number of messages the bot's
    monitoring loop has posted, and each of these messages carries the
    bot's name as its sender. *)
Theorem counters_count_the_posts
  (n mo pr pe st : string) (te : Q) (mt : Z) (bq : list string)
  (b0 : Bot.t) (cl0 : ChatLog.t) (evs : list Bot.Event) :
  Bot.init n mo pr pe st te mt bq = inr b0 ->
  let posts := (Bot.run b0 cl0 evs).1.1 in
  let b := (Bot.run b0 cl0 evs).1.2 in
  Bot.total_responses b = length posts /\
  Bot.autonomous_responses (Bot.stats b) = length posts /\
  Bot.name (Bot.config b) = n /\
  Forall (fun p => ChatLog.sender (Bot.post_message p) = n) posts.
Proof.
  intros Hinit posts b.
  destruct (run_counts evs b0 cl0) as (H1 & H2 & H3 & H4).
  fold posts b in H1, H2, H3, H4.
  revert Hinit. unfold Bot.init. destruct (_ || _); [|discriminate].
  intros [= <-]. simpl in *. repeat split; try done; lia.
Qed.

(** X14 at work: a bot that is started and then posts once on a silent
    log. *)
Lemma counters_count_the_posts_witness :
  exists b0,
    Bot.init "Skeptic" "gpt-4" "openai" "analytical" "con" 0.8 120 [] = inr b0 /\
    let cl0 := (ChatLog.add_message "Ann" "Let us begin" "chat" [] 0 0
                  (ChatLog.init 10)).1 in
    let e := Bot.mkCycleEnv 20 20 0 8 20 1 (Bot.Generated "Where is the data?")
               (Bot.mkGenClock 20 21 21 21 21) in
    let r := Bot.run b0 cl0 [Bot.EvStart "AI"; Bot.EvCycle e] in
    length r.1.1 = 1 /\ Bot.total_responses r.1.2 = 1.
Proof.
  eexists.
  assert (Hi : Bot.init "Skeptic" "gpt-4" "openai" "analytical" "con" 0.8 120 []
               = inr _) by reflexivity.
  split; [exact Hi|]. intros cl0 e r.
  destruct (counters_count_the_posts _ _ _ _ _ _ _ _ _ cl0
              [Bot.EvStart "AI"; Bot.EvCycle e] Hi) as (Ht & _).
  fold r in Ht. split; [|rewrite Ht]; by vm_compute.
Defined.

(** ** Humans: what reaches the chat log *)
Section HumanFacts.
Import Human.

Lemma length_append (s1 s2 : string) :
  String.length (s1 +:+ s2) = String.length s1 + String.length s2.
Proof. induction s1 as [|c s1 IH]; simpl; [done|]. by rewrite IH. Qed.

Lemma length_substring_0 (n : nat) (s : string) :
  String.length (String.substring 0 n s) = min n (String.length s).
Proof.
  revert n. induction s as [|c s IH]; intros [|n]; simpl; try done.
  by rewrite IH.
Qed.

Lemma has_text_lstrip s : PyStr.has_text (lstrip s) = PyStr.has_text s.
Proof.
  induction s as [|c s IH]; [done|]. cbn [lstrip PyStr.has_text].
  destruct (PyStr.is_space c) eqn:E; cbn [negb orb]; [exact IH|].
  cbn [PyStr.has_text]. by rewrite E.
Qed.

Lemma rstrip_text s : PyStr.has_text s = true -> rstrip s <> "".
Proof.
  induction s as [|c s IH]; simpl; [done|].
  destruct (PyStr.has_text s).
  - intros _. destruct (rstrip s); [by destruct IH|done].
  - rewrite orb_false_r. intros Hc.
    destruct (rstrip s); [|done].
    by destruct (PyStr.is_space c).
Qed.

Lemma rstrip_blank s : PyStr.has_text s = false -> rstrip s = "".
Proof.
  induction s as [|c s IH]; simpl; [done|].
  intros [Hc Hs]%orb_false_iff. rewrite (IH Hs).
  by destruct (PyStr.is_space c).
Qed.

Lemma length_rstrip s : String.length (rstrip s) <= String.length s.
Proof.
  induction s as [|c s IH]; simpl; [done|].
  destruct (rstrip s); [destruct (PyStr.is_space c); simpl; lia|simpl in *; lia].
Qed.

Lemma length_lstrip s : String.length (lstrip s) <= String.length s.
Proof.
  induction s as [|c s IH]; simpl; [done|].
  destruct (PyStr.is_space c); simpl; lia.
Qed.

Lemma strip_text s : PyStr.has_text s = true -> strip s <> "".
Proof. intros H. apply rstrip_text. by rewrite has_text_lstrip. Qed.

Lemma strip_blank s : PyStr.has_text s = false -> strip s = "".
Proof. intros H. apply rstrip_blank. by rewrite has_text_lstrip. Qed.

Lemma length_strip s : String.length (strip s) <= String.length s.
Proof.
  unfold strip. etrans; [apply length_rstrip|apply length_lstrip].
Qed.

Lemma length_nonempty s : s <> "" -> 1 <= String.length s.
Proof. destruct s; [done|simpl; lia]. Qed.

(** The note that [_validate_response] appends has 28 characters. *)
Lemma validate_response_cases response h :
  let r := strip response in
  let v := validate_response response h in
  (PyStr.has_text response = false /\ v = "") \/
  (PyStr.has_text response = true /\ r <> "" /\
   ((String.length r < 10 /\
     (Z.of_nat (String.length r) <= max_message_length h)%Z /\
     v = r +:+ " [Note: Very short response]") \/
    (10 <= String.length r /\
     (Z.of_nat (String.length r) <= max_message_length h)%Z /\ v = r) \/
    ((max_message_length h < Z.of_nat (String.length r))%Z /\
     10 <= String.length v /\
     ((3 <= max_message_length h)%Z ->
      Z.of_nat (String.length v) = Z.max (max_message_length h)
                                         (if (max_message_length h <? 10)%Z
                                          then max_message_length h + 28
                                          else max_message_length h))))).
Proof.
  intros r v. subst r v. unfold validate_response.
  destruct (PyStr.has_text response) eqn:Ht; simpl; [right|by left].
  split; [done|]. split; [by apply strip_text|].
  set (r := strip response).
  destruct (Z.ltb_spec (max_message_length h) (Z.of_nat (String.length r)))
    as [Hlong|Hfits].
  - right. right. split; [done|].
    set (cut := slice_to (max_message_length h - 3) r +:+ "...").
    assert (Hcut : (3 <= max_message_length h)%Z ->
                   Z.of_nat (String.length cut) = max_message_length h).
    { intros H3. subst cut. rewrite length_append. unfold slice_to.
      rewrite length_substring_0. simpl.
      destruct (Z.ltb_spec (max_message_length h - 3) 0); lia. }
    assert (Hcut3 : 3 <= String.length cut).
    { subst cut. rewrite length_append. simpl. lia. }
    destruct (Nat.ltb_spec (String.length cut) 10) as [Hshort|Hok].
    + rewrite length_append. simpl. split; [lia|].
      intros H3. specialize (Hcut H3).
      destruct (Z.ltb_spec (max_message_length h) 10); lia.
    + split; [done|]. intros H3. specialize (Hcut H3).
      destruct (Z.ltb_spec (max_message_length h) 10); lia.
  - destruct (Nat.ltb_spec (String.length r) 10) as [Hshort|Hok].
    + left. done.
    + right. left. done.
Qed.

(** A message that the participation loop of human [h] puts on the chat
    log. *)
Definition spoken (h : t) (m : ChatLog.Message) : Prop :=
  ChatLog.sender m = name h /\ ChatLog.message_type m = "chat" /\
  10 <= String.length (ChatLog.content m).

Lemma validate_response_length response h :
  validate_response response h <> "" ->
  10 <= String.length (validate_response response h).
Proof.
  destruct (validate_response_cases response h)
    as [[_ ->]|(_ & _ & [(H1 & _ & ->)|[(H1 & _ & ->)|(_ & H1 & _)]])];
    try done.
  intros _. rewrite length_append. simpl. lia.
Qed.

(** One input line: either nothing reaches the log, or exactly one
    message does. *)
Lemma participation_body_spec line now_rt now h cl :
  let r := participation_body line now_rt now h cl in
  name r.1.2 = name h /\
  responses_given (stats h) <= responses_given (stats r.1.2) /\
  ((r.2 = cl /\ stats r.1.2 = stats h /\
    (r.1.1 = true -> is_active r.1.2 = false) /\
    (r.1.1 = false -> r.1.2 = h)) \/
   (r.1.1 = false /\ is_active r.1.2 = is_active h /\
    responses_given (stats r.1.2) = S (responses_given (stats h)) /\
    exists text,
      ChatLog.step cl (ChatLog.OpAdd (name h) text "chat" [] now_rt now)
        = (r.2, [(ChatLog.add_message (name h) text "chat" [] now_rt now cl).2])
      /\ spoken h (ChatLog.add_message (name h) text "chat" [] now_rt now cl).2)).
Proof.
  unfold participation_body.
  case_bool_decide; [simpl; split; [done|]; split; [lia|]; by left|].
  case_bool_decide; [simpl; split; [done|]; split; [lia|]; by left|].
  case_bool_decide; [simpl; split; [done|]; split; [lia|]; by left|].
  destruct (String.length (strip line) <? 3);
    [simpl; split; [done|]; split; [lia|]; by left|].
  case_bool_decide as Hv; [simpl; split; [done|]; split; [lia|]; by left|].
  pose proof (validate_response_length _ _ Hv) as Hlen.
  set (text := validate_response (strip line) h) in *.
  destruct (ChatLog.add_message (name h) text "chat" [] now_rt now cl)
    as [cl' m] eqn:E.
  simpl. split; [done|]. split; [lia|]. right.
  split; [done|]. split; [done|]. split; [done|].
  exists text. simpl. rewrite E. simpl. split; [done|].
  revert E. unfold ChatLog.add_message.
  destruct (ChatLog.get_response_time _ _ _) as [? rt].
  destruct (ChatLog.notify_subscribers _ _ _) as [subs hp].
  intros [= <- <-]. by repeat split.
Qed.

Lemma unsubscribe_frame a cl :
  ChatLog.messages (ChatLog.unsubscribe a cl) = ChatLog.messages cl /\
  ChatLog.message_counter (ChatLog.unsubscribe a cl)
    = ChatLog.message_counter cl /\
  ChatLog.maxlen (ChatLog.unsubscribe a cl) = ChatLog.maxlen cl.
Proof. unfold ChatLog.unsubscribe. by case_bool_decide. Qed.

Lemma participation_loop_spec lines queue : forall h cl,
  length (ChatLog.messages cl) <= ChatLog.maxlen cl ->
  let r := participation_loop lines queue h cl in
  exists ms,
    ChatLog.messages r.2 = last_n (ChatLog.maxlen cl) (ChatLog.messages cl ++ ms) /\
    ChatLog.message_counter r.2 = ChatLog.message_counter cl + length ms /\
    responses_given (stats r.1.2) = responses_given (stats h) + length ms /\
    length ms + length r.1.1.2 <= length lines /\
    Forall (spoken h) ms /\
    match r.1.1.1 with
    | Exited => is_active r.1.2 = false
    | AwaitingInput => is_active r.1.2 = true /\ r.1.1.2 = []
    end.
Proof.
  induction lines as [|[line [now_rt now]] lines IH]; intros h cl Hlen.
  - simpl. destruct (is_active h) eqn:Ha; simpl.
    + exists []. rewrite app_nil_r, last_n_all by done.
      repeat split; try done; lia.
    + exists []. destruct (unsubscribe_frame queue cl) as (-> & -> & _).
      rewrite app_nil_r, last_n_all by done.
      repeat split; try done; lia.
  - cbn [participation_loop]. destruct (is_active h) eqn:Ha.
    + pose proof (participation_body_spec line now_rt now h cl) as Hb.
      destruct (participation_body line now_rt now h cl) as [[leave h1] cl1].
      simpl in Hb. destruct Hb as (Hn & Hmono & Hb).
      destruct Hb as [(-> & Hst & Hleave & Hstay)|(-> & Hact & Hst & text & Hstep & Hsp)].
      * destruct leave.
        -- exists []. simpl.
           destruct (unsubscribe_frame queue cl) as (-> & -> & _).
           rewrite app_nil_r, last_n_all by done.
           rewrite Hst. repeat split; try done; try lia. by apply Hleave.
        -- rewrite (Hstay eq_refl). specialize (IH h cl Hlen).
           destruct IH as (ms & ? & ? & ? & ? & ? & ?).
           exists ms. simpl. repeat split; try done; lia.
      * destruct (step_window cl
                    (ChatLog.OpAdd (name h) text "chat" [] now_rt now) _ _ Hstep)
          as (Hmax & Hcnt & _ & Hw).
        specialize (Hw Hlen).
        assert (Hlen1 : length (ChatLog.messages cl1) <= ChatLog.maxlen cl1).
        { rewrite Hw, Hmax, length_last_n. lia. }
        specialize (IH h1 cl1 Hlen1).
        destruct IH as (ms & H1 & H2 & H3 & H4 & H5 & H6).
        set (m := (ChatLog.add_message (name h) text "chat" [] now_rt now cl).2)
          in *.
        exists (m :: ms). simpl in *.
        split.
        { rewrite H1, Hw, Hmax, last_n_app_last_n.
          by rewrite <- app_assoc. }
        split; [lia|]. split; [lia|]. split; [lia|].
        split; [|done].
        constructor; [done|].
        eapply Forall_impl; [exact H5|].
        intros x (? & ? & ?). unfold spoken. rewrite <- Hn. done.
    + simpl. exists [].
      destruct (unsubscribe_frame queue cl) as (-> & -> & _).
      rewrite app_nil_r, last_n_all by done. simpl.
      repeat split; try done; lia.
Qed.

End HumanFacts.

(** X15. What [_validate_response] returns.  A blank response gives the
    empty string and nothing else does.  Any other result has at least 10
    characters: a response shorter than that gets the 28-character note
    appended.  A stripped response of 10 characters or more that fits the
    length limit is returned as it is.  With a limit of 37 or more (the
    default is 500) the result never exceeds the limit: a longer response
    is cut to the limit, the last three characters being "...".  The
    response is ASCII text, for which [String.length] is [len()] and
    [Human.strip] is [str.strip()]. *)
Theorem validated_response_length (response : string) (h : Human.t) :
  ChatLogQueries.is_ascii response ->
  let v := Human.validate_response response h in
  (v = "" <-> PyStr.has_text response = false) /\
  (v <> "" -> 10 <= String.length v) /\
  (10 <= String.length (Human.strip response) ->
   (Z.of_nat (String.length (Human.strip response))
      <= Human.max_message_length h)%Z ->
   v = Human.strip response) /\
  ((37 <= Human.max_message_length h)%Z ->
   (Z.of_nat (String.length v) <= Human.max_message_length h)%Z /\
   ((Human.max_message_length h
       < Z.of_nat (String.length (Human.strip response)))%Z ->
    Z.of_nat (String.length v) = Human.max_message_length h)).
Proof.
  intros _ v.
  pose proof (validate_response_cases response h) as H. simpl in H.
  fold v in H.
  split; [|split; [|split]].
  - destruct H as [[Ht ->]|(Ht & Hr & H)]; [done|].
    split; [|congruence]. intros Hv. exfalso.
    destruct H as [(_ & _ & Hv')|[(_ & _ & Hv')|(_ & Hv' & _)]].
    + rewrite Hv in Hv'. by destruct (Human.strip response).
    + congruence.
    + rewrite Hv in Hv'. simpl in Hv'. lia.
  - intros Hv. by apply validate_response_length.
  - intros Hlong Hfits.
    destruct H as [[Ht _]|(_ & _ & [(Hs & _)|[(_ & _ & Hv)|(Hl & _)]])].
    + rewrite (strip_blank _ Ht) in Hlong. simpl in Hlong. lia.
    + lia.
    + done.
    + lia.
  - intros Hmax.
    destruct H as [[Ht ->]|(_ & _ & [(Hs & Hf & ->)|[(_ & Hf & ->)|(Hl & _ & Hv)]])].
    + rewrite (strip_blank _ Ht). simpl. split; lia.
    + rewrite length_append. simpl. split; lia.
    + split; lia.
    + specialize (Hv ltac:(lia)).
      destruct (Z.ltb_spec (Human.max_message_length h) 10); split; lia.
Qed.

(** X15 at work: with the default limit of 500, "  ok  " comes back with
    the note, 30 characters long. *)
Lemma validated_response_length_witness :
  let h := Human.mkHuman "Ann" Human.Cli 500 true []
             (Human.mkStats 0 0 0 0) in
  Human.validate_response "  ok  " h = "ok [Note: Very short response]" /\
  (Z.of_nat (String.length (Human.validate_response "  ok  " h)) <= 500)%Z.
Proof.
  intros h. split; [reflexivity|].
  destruct (validated_response_length "  ok  " h) as (_ & _ & _ & Hmax).
  { unfold ChatLogQueries.is_ascii. simpl. repeat constructor. }
  apply Hmax. simpl. lia.
Defined.

(** X16. What a human's participation loop puts on the chat log, on a log
    built from [__init__] and for any sequence of input lines: at most one
    message per line read; every one of them carries the human's name, the
    type "chat" and a text of at least 10 characters, so no command and no
    bare short input is ever posted; the chat log's counter and the
    human's [responses_given] both grow by the number of messages posted;
    and the loop is left only with [is_active] false (after quit or exit),
    the lines after that staying unread. *)
Theorem human_loop_posts_whole_messages
  (N : nat) (ops : list ChatLog.Op) (lines : list (string * (Q * Q)))
  (queue : nat) (h : Human.t) :
  let cl := (ChatLog.run (ChatLog.init N) ops).1 in
  let r := Human.participation_loop lines queue h cl in
  exists ms,
    ChatLog.messages r.2 = last_n N (ChatLog.messages cl ++ ms) /\
    ChatLog.message_counter r.2 = ChatLog.message_counter cl + length ms /\
    Human.responses_given (Human.stats r.1.2)
      = Human.responses_given (Human.stats h) + length ms /\
    length ms + length r.1.1.2 <= length lines /\
    Forall (fun m => ChatLog.sender m = Human.name h /\
                     ChatLog.message_type m = "chat" /\
                     10 <= String.length (ChatLog.content m)) ms /\
    match r.1.1.1 with
    | Human.Exited => Human.is_active r.1.2 = false
    | Human.AwaitingInput =>
        Human.is_active r.1.2 = true /\ r.1.1.2 = []
    end.
Proof.
  intros cl r.
  destruct (ChatLog.run (ChatLog.init N) ops) as [cl0 ms0] eqn:E.
  destruct (run_window _ _ _ _ E) as (Hmax & _ & _ & Hw); [simpl; lia|].
  simpl in cl, Hmax, Hw. subst cl.
  assert (Hlen : length (ChatLog.messages cl0) <= ChatLog.maxlen cl0).
  { rewrite Hw, Hmax, length_last_n. lia. }
  destruct (participation_loop_spec lines queue h cl0 Hlen)
    as (ms & H1 & H2 & H3 & H4 & H5 & H6).
  exists ms. rewrite Hmax in H1. done.
Qed.

(** ** Moderator: broadcasts, responses, the turn order, the last phases *)
Section ModeratorBroadcasts.
Import Moderator.

Lemma add_message_fields who text mtype meta t1 t2 cl :
  let r := ChatLog.add_message who text mtype meta t1 t2 cl in
  ChatLog.sender r.2 = who /\ ChatLog.content r.2 = text /\
  ChatLog.message_type r.2 = mtype /\
  ChatLog.message_id r.2 = S (ChatLog.message_counter cl) /\
  ChatLog.message_counter r.1 = S (ChatLog.message_counter cl) /\
  ChatLog.maxlen r.1 = ChatLog.maxlen cl /\
  ChatLog.stats r.1 = ChatLog.update_stats who r.2 (ChatLog.messages r.1)
                        (ChatLog.stats cl) /\
  (1 <= ChatLog.maxlen cl -> last (ChatLog.messages r.1) = Some r.2).
Proof.
  unfold ChatLog.add_message.
  destruct (ChatLog.get_response_time _ _ _) as [? rt].
  destruct (ChatLog.notify_subscribers _ _ _) as [subs h]. simpl.
  repeat split; try done.
  intros Hmax. unfold ChatLog.deque_append.
  destruct (Nat.ltb_spec (ChatLog.maxlen cl)
              (length (ChatLog.messages cl ++ [ChatLog.mkMessage who text t2
                         (S (ChatLog.message_counter cl)) mtype meta]))).
  - destruct (ChatLog.messages cl) as [|x l]; simpl in *; [lia|].
    rewrite drop_0. by rewrite last_snoc.
  - by rewrite last_snoc.
Qed.

Lemma last_keep_15 {A} (l : list A) (x : A) :
  let h := l ++ [x] in
  let h' := if (20 <? length h)%nat then PyStr.last_n 15 h else h in
  last h' = Some x /\ length h' <= 20.
Proof.
  intros h h'. subst h h'. rewrite length_app. simpl.
  destruct (Nat.ltb_spec 20 (length l + 1)).
  - unfold PyStr.last_n. rewrite length_app. simpl.
    rewrite drop_app_le by lia. rewrite last_snoc.
    split; [done|]. rewrite length_app, length_drop. simpl. lia.
  - rewrite last_snoc. rewrite length_app. simpl. split; [done|lia].
Qed.

Lemma last_keep_30 {A} (l : list A) (x : A) :
  let h := l ++ [x] in
  let h' := if (30 <? length h)%nat then PyStr.last_n 30 h else h in
  last h' = Some x /\ length h' <= 30.
Proof.
  intros h h'. subst h h'. rewrite length_app. simpl.
  destruct (Nat.ltb_spec 30 (length l + 1)).
  - unfold PyStr.last_n. rewrite length_app. simpl.
    rewrite drop_app_le by lia. rewrite last_snoc.
    split; [done|]. rewrite length_app, length_drop. simpl. lia.
  - rewrite last_snoc. rewrite length_app. simpl. split; [done|lia].
Qed.

(** What [receive_message] leaves in a participant's history. *)
Definition delivered (msg : ChatLog.Message) (p p' : Participant) : Prop :=
  match p, p' with
  | PBot b, PBot b' =>
      Bot.config b' = Bot.config b /\
      if bool_decide (ChatLog.sender msg = Bot.name (Bot.config b))
      then b' = b
      else last (Bot.conversation_history b')
             = Some ("user", ChatLog.sender msg +:+ ": " +:+ ChatLog.content msg)
           /\ length (Bot.conversation_history b') <= 20
  | PHuman h, PHuman h' =>
      Human.name h' = Human.name h /\
      if bool_decide (ChatLog.sender msg = Human.name h)
      then h' = h
      else last (Human.conversation_history h') = Some msg
           /\ length (Human.conversation_history h') <= 30
  | _, _ => False
  end.

Lemma receive_delivered msg p : delivered msg p (receive msg p).
Proof.
  destruct p as [b|h]; simpl.
  - unfold Bot.receive_message. case_bool_decide; [done|]. simpl.
    split; [done|]. apply last_keep_15.
  - unfold Human.receive_message. case_bool_decide; [done|]. simpl.
    split; [done|]. apply last_keep_30.
Qed.

(** *** The participants dictionary that [__init__] builds *)

Lemma foldl_participants ps : forall d,
  NoDup (map fst d) ->
  (forall k p, (k, p) ∈ d -> participant_name p = k) ->
  let d' := foldl (fun d p => Voting.dict_set (participant_name p) p d) d ps in
  NoDup (map fst d') /\
  (forall k p, (k, p) ∈ d' -> participant_name p = k /\ ((k, p) ∈ d \/ p ∈ ps)) /\
  (forall p, p ∈ ps -> participant_name p ∈ map fst d') /\
  (forall k, k ∈ map fst d -> k ∈ map fst d') /\
  length d' <= length d + length ps.
Proof.
  induction ps as [|p ps IH]; intros d Hnd Hkeys; simpl.
  - repeat split; try done; try lia.
    + by apply Hkeys.
    + by left.
    + intros p Hp. by apply elem_of_nil in Hp.
  - destruct (IH (Voting.dict_set (participant_name p) p d)) as
      (H1 & H2 & H3 & H4 & H5).
    { by apply dict_set_nodup. }
    { intros k q Hin. apply dict_set_elem in Hin as [[= -> ->]|Hin]; [done|].
      by apply Hkeys. }
    assert (Hkeep : forall k, k ∈ map fst d ->
              k ∈ map fst (Voting.dict_set (participant_name p) p d)).
    { intros k Hk. rewrite dict_set_keys. case_bool_decide; [done|].
      apply elem_of_app. by left. }
    assert (Hnew : participant_name p
                     ∈ map fst (Voting.dict_set (participant_name p) p d)).
    { rewrite dict_set_keys. case_bool_decide; [done|].
      apply elem_of_app. right. by left. }
    assert (Hlen : length (Voting.dict_set (participant_name p) p d)
                   <= S (length d)).
    { rewrite <- (length_map fst), dict_set_keys.
      case_bool_decide; rewrite ?length_app, !length_map; simpl; lia. }
    split; [done|]. split; [|split; [|split]].
    + intros k q Hin. destruct (H2 k q Hin) as [Hn [Hd|Hps]].
      * split; [done|].
        apply dict_set_elem in Hd as [[= -> ->]|Hd]; [right; by left|by left].
      * split; [done|]. right. by right.
    + intros q [->|Hq]%elem_of_cons; [by apply H4|by apply H3].
    + intros k Hk. by apply H4, Hkeep.
    + lia.
Qed.

(** The chat log after a broadcast is the chat log after its
    [add_message]; the other fields of the moderator that are not the
    participants stay. *)
Lemma broadcast_chat_log text st m :
  chat_log (broadcast_message text st m)
    = (ChatLog.add_message "moderator" text "moderator" [] st.1 st.2
         (chat_log m)).1.
Proof.
  unfold broadcast_message.
  by destruct (ChatLog.add_message _ _ _ _ _ _ _) as [cl msg].
Qed.

End ModeratorBroadcasts.

(** X17. A broadcast reaches the log and every participant: the chat log
    gets one message of type "moderator" from the sender "moderator",
    with the next identifier; the participants stay the same, in the same
    order; and each of them other than one named "moderator" has the
    message as the last entry of its conversation history (a bot as the
    user entry "moderator: text"), which holds at most 20 entries for a
    bot and at most 30 for a human afterwards, however long it was. *)
Theorem broadcast_reaches_every_participant
  (text : string) (st : Moderator.Stamp) (m : Moderator.t) :
  let sent :=
    ChatLog.add_message "moderator" text "moderator" [] st.1 st.2
      (Moderator.chat_log m) in
  let m' := Moderator.broadcast_message text st m in
  Moderator.chat_log m' = sent.1 /\
  ChatLog.sender sent.2 = "moderator" /\
  ChatLog.message_type sent.2 = "moderator" /\
  ChatLog.content sent.2 = text /\
  ChatLog.message_id sent.2
    = S (ChatLog.message_counter (Moderator.chat_log m)) /\
  Moderator.state m' = Moderator.state m /\
  Forall2 (fun np np' => np'.1 = np.1 /\ delivered sent.2 np.2 np'.2)
          (Moderator.participants m) (Moderator.participants m').
Proof.
  intros sent m'. subst m'. unfold Moderator.broadcast_message.
  destruct (add_message_fields "moderator" text "moderator" [] st.1 st.2
              (Moderator.chat_log m)) as (Hs & Hc & Hty & Hid & _).
  fold sent in Hs, Hc, Hty, Hid.
  destruct sent as [cl msg] eqn:E. subst sent. rewrite E. simpl in *.
  repeat split; try done.
  induction (Moderator.participants m) as [|[k p] ps IH]; simpl.
  - constructor.
  - constructor; [|done]. simpl. split; [done|]. apply receive_delivered.
Qed.

(** X18. The chat log's statistics recognise the moderator only under the
    sender name "Moderator", and the moderator broadcasts as "moderator":
    every broadcast is counted as a human response, never as a moderator
    message, although the web type of the same message is "moderator". *)
Theorem broadcasts_count_as_human_responses
  (text : string) (st : Moderator.Stamp) (m : Moderator.t) :
  let s := ChatLog.stats (Moderator.chat_log m) in
  let s' := ChatLog.stats
              (Moderator.chat_log (Moderator.broadcast_message text st m)) in
  ChatLog.total_messages s' = S (ChatLog.total_messages s) /\
  ChatLog.human_responses s' = S (ChatLog.human_responses s) /\
  ChatLog.moderator_messages s' = ChatLog.moderator_messages s /\
  ChatLog.bot_responses s' = ChatLog.bot_responses s /\
  ChatLogQueries.get_web_message_type "moderator" "moderator" = "moderator".
Proof.
  intros s s'. subst s s'. unfold Moderator.broadcast_message.
  destruct (add_message_fields "moderator" text "moderator" [] st.1 st.2
              (Moderator.chat_log m)) as (_ & _ & _ & _ & _ & _ & Hst & _).
  destruct (ChatLog.add_message _ _ _ _ _ _ _) as [cl msg]. simpl in *.
  rewrite Hst. unfold ChatLog.update_stats.
  rewrite bool_decide_false.
  2:{ unfold ChatLog.bot_names. intros H.
      repeat (apply elem_of_cons in H as [H|H]; [discriminate|]).
      by apply elem_of_nil in H. }
  rewrite bool_decide_false by discriminate. done.
Qed.

(** X19. [_process_response]: a response within [max_message_length] is
    put on the chat log as it is, as one message from the participant; a
    longer one is cut to the first [max_message_length] characters with
    "..." appended, so the stored text is three characters longer than the
    limit, and a truncation notice from the moderator is put on the log
    before it.  The response is ASCII text, for which [String.length] is
    [len()] and [String.substring] cuts where the slice does. *)
Theorem overlong_response_is_cut
  (who response : string) (st_note st : Moderator.Stamp) (m : Moderator.t) :
  ChatLogQueries.is_ascii response ->
  1 <= ChatLog.maxlen (Moderator.chat_log m) ->
  let limit := Moderator.max_message_length m in
  let m' := Moderator.process_response who response st_note st m in
  exists posted,
    last (ChatLog.messages (Moderator.chat_log m')) = Some posted /\
    ChatLog.sender posted = who /\
    ChatLog.message_type posted = "chat" /\
    (String.length response <= limit ->
     ChatLog.content posted = response /\
     ChatLog.message_id posted
       = S (ChatLog.message_counter (Moderator.chat_log m))) /\
    (limit < String.length response ->
     ChatLog.content posted = String.substring 0 limit response +:+ "..." /\
     String.length (ChatLog.content posted) = limit + 3 /\
     ChatLog.message_id posted
       = S (S (ChatLog.message_counter (Moderator.chat_log m)))).
Proof.
  intros _ Hmax limit m'. subst m' limit. unfold Moderator.process_response.
  destruct (Nat.ltb_spec (Moderator.max_message_length m)
              (String.length response)) as [Hlong|Hfits].
  - pose proof (broadcast_chat_log
                  ("⚠️ " +:+ who +:+ "'s response was truncated due to length")
                  st_note m) as Hcl.
    set (m1 := Moderator.broadcast_message _ st_note m) in *.
    destruct (add_message_fields "moderator"
                ("⚠️ " +:+ who +:+ "'s response was truncated due to length")
                "moderator" [] st_note.1 st_note.2 (Moderator.chat_log m))
      as (_ & _ & _ & _ & Hcnt1 & Hmax1 & _).
    rewrite <- Hcl in Hcnt1, Hmax1.
    destruct (add_message_fields who
                (String.substring 0 (Moderator.max_message_length m) response
                   +:+ "...") "chat" [] st.1 st.2 (Moderator.chat_log m1))
      as (Hs & Hc & Hty & Hid & _ & _ & _ & Hlast).
    destruct (ChatLog.add_message who _ "chat" [] st.1 st.2
                (Moderator.chat_log m1)) as [cl msg].
    simpl in *. exists msg.
    split; [apply Hlast; lia|]. split; [done|]. split; [done|].
    split; [lia|]. intros _. split; [done|]. split; [|congruence].
    rewrite Hc, length_append, length_substring_0. simpl. lia.
  - destruct (add_message_fields who response "chat" [] st.1 st.2
                (Moderator.chat_log m))
      as (Hs & Hc & Hty & Hid & _ & _ & _ & Hlast).
    destruct (ChatLog.add_message who response "chat" [] st.1 st.2
                (Moderator.chat_log m)) as [cl msg].
    simpl in *. exists msg.
    split; [by apply Hlast|]. split; [done|]. split; [done|].
    split; [done|]. lia.
Qed.

(** X19 at work: with a limit of 5, "abcdefgh" is stored as "abcde...",
    after the notice. *)
Lemma overlong_response_is_cut_witness :
  let m := Moderator.init "AI" [] (ChatLog.init 10)
             (demo_bot "Moderator" "facilitator" "neutral")
             120 90 5 true 60 0 in
  map ChatLog.content
    (ChatLog.messages
       (Moderator.chat_log
          (Moderator.process_response "Ann" "abcdefgh" (1, 1)%Q (2, 2)%Q m)))
    = ["⚠️ Ann's response was truncated due to length"; "abcde..."] /\
  exists posted,
    last (ChatLog.messages
            (Moderator.chat_log
               (Moderator.process_response "Ann" "abcdefgh" (1, 1)%Q (2, 2)%Q m)))
      = Some posted /\
    String.length (ChatLog.content posted) = 8.
Proof.
  intros m. split; [reflexivity|].
  destruct (overlong_response_is_cut "Ann" "abcdefgh" (1, 1)%Q (2, 2)%Q m)
    as (posted & Hlast & _ & _ & _ & Hcut);
    [unfold ChatLogQueries.is_ascii; simpl; repeat constructor|simpl; lia|].
  exists posted. split; [exact Hlast|].
  destruct Hcut as (_ & Hlen & _); [simpl; lia|]. exact Hlen.
Defined.

(** X20. The participants dictionary and the turn order that [__init__]
    builds: the turn order lists every participant's name once, in the
    order of first appearance; each name in it is the key of a participant
    with that name, taken from the list given, so the lookup at the start
    of a structured turn finds the speaker; participants with the same
    name share one entry. *)
Theorem turn_order_names_the_participants
  (topic : string) (ps : list Moderator.Participant) (cl : ChatLog.t)
  (mb : Bot.t) (max_response_time warning_time : Q)
  (max_message_length : nat) (autonomous : bool) (silence_timeout now : Q) :
  let m := Moderator.init topic ps cl mb max_response_time warning_time
             max_message_length autonomous silence_timeout now in
  let order := Moderator.turn_order (Moderator.state m) in
  NoDup order /\
  order = map fst (Moderator.participants m) /\
  length order <= length ps /\
  (forall p, p ∈ ps -> Moderator.participant_name p ∈ order) /\
  (forall who, who ∈ order ->
     exists p, Voting.dict_get who (Moderator.participants m) = Some p /\
               Moderator.participant_name p = who /\ p ∈ ps) /\
  Moderator.phase (Moderator.state m) = Moderator.INTRODUCTION /\
  Moderator.autonomous_tasks m = [].
Proof.
  intros m order. subst order m. unfold Moderator.init. simpl.
  destruct (foldl_participants ps []) as (Hnd & Hkeys & Hall & _ & Hlen).
  { constructor. }
  { intros k p Hin. by apply elem_of_nil in Hin. }
  simpl in *.
  set (d := foldl _ [] ps) in *.
  split; [done|]. split; [done|]. split; [by rewrite length_map|].
  split; [done|]. split; [|done].
  intros who Hwho.
  destruct (Voting.dict_get who d) as [p|] eqn:E.
  - exists p. split; [done|].
    apply dict_get_elem in E; [|done].
    destruct (Hkeys who p E) as [Hn [Hin|Hin]]; [by apply elem_of_nil in Hin|].
    done.
  - apply dict_get_None in E. done.
Qed.

(** ** The session: how the voting and results phases end [run_debate] *)
Section SessionEnd.
Import Moderator.

Context (introduction_phase opening_statements_phase
         autonomous_discussion_phase traditional_discussion_phase
         closing_statements_phase : t -> Outcome unit).
Context (ve : Session.VotingEnv) (re : Session.ResultsEnv) (vs : Voting.t).

(** The phases before the vote. *)
Definition earlier_phases (m : t) : Outcome unit :=
  bind (introduction_phase m) (fun _ m1 =>
  bind (opening_statements_phase m1) (fun _ m2 =>
  bind (if autonomous_mode m2 then autonomous_discussion_phase m2
        else traditional_discussion_phase m2) (fun _ m3 =>
  closing_statements_phase m3))).

#[local] Abbreviation session_phases :=
  (phases introduction_phase opening_statements_phase
     autonomous_discussion_phase traditional_discussion_phase
     closing_statements_phase
     (fun m => (Session.voting_phase ve vs m).1) (Session.results_phase re)).

Lemma session_phases_split m :
  session_phases m =
  bind (earlier_phases m) (fun _ m4 =>
  bind (Session.voting_phase ve vs m4).1 (fun results m5 =>
  bind (Session.results_phase re results m5) (fun _ m6 =>
  Returns results m6))).
Proof.
  unfold phases, earlier_phases.
  destruct (introduction_phase m) as [[] m1|e m1]; simpl; [|done].
  destruct (opening_statements_phase m1) as [[] m2|e m2]; simpl; [|done].
  destruct (if autonomous_mode m2 then autonomous_discussion_phase m2
            else traditional_discussion_phase m2) as [[] m3|e m3]; simpl;
    [|done].
  by destruct (closing_statements_phase m3) as [[] m4|e m4].
Qed.

Lemma voting_phase_enabled m :
  Voting.enabled vs = true ->
  forall m', (Session.voting_phase ve vs m).1 <> Returns None m'.
Proof.
  intros He m'. unfold Session.voting_phase. rewrite He. simpl.
  destruct (Voting.start_voting _ _ _ _) as [err|vs1]; [done|].
  destruct (Voting.end_voting _ _) as [err|[vs3 r]]; done.
Qed.

Lemma session_phases_enabled m :
  Voting.enabled vs = true ->
  forall results m', session_phases m <> Returns results m'.
Proof.
  intros He results m'. rewrite session_phases_split.
  destruct (earlier_phases m) as [[] m4|e m4]; simpl; [|done].
  pose proof (voting_phase_enabled m4 He) as Hv.
  destruct (Session.voting_phase ve vs m4).1 as [[r|] m5|e m5]; simpl;
    [done| |done].
  by destruct (Hv m5).
Qed.

Lemma voting_phase_results m :
  Voting.enabled vs = true -> Voting.is_active vs = false ->
  exists r,
    (Session.voting_phase ve vs m).1
    = Returns (Some r)
        (broadcast_message (Session.voting_open_text (Session.voting_time ve))
           (Session.st_voting ve) (with_phase VOTING m)).
Proof.
  intros He Ha. unfold Session.voting_phase. rewrite He. simpl.
  destruct (Voting.start_voting _ _ _ _) as [err|vs1] eqn:Es.
  { revert Es. unfold Voting.start_voting. by rewrite He, Ha. }
  apply start_voting_spec in Es as (_ & Ha1 & _).
  destruct (cast_all_frame (Session.ballots ve) vs1) as (Ha2 & _).
  unfold Voting.end_voting. rewrite Ha2, Ha1. simpl. by eexists.
Qed.

End SessionEnd.

(** X21. How the last two phases end [run_debate], whatever the phases
    before them do.  With voting enabled [run_debate] never returns its
    results: the voting phase hands a [VotingResults] object to the results
    phase, whose first statement calls [.get] on it, so that once the
    earlier phases have returned and a vote can start, [run_debate]
    broadcasts the error "'VotingResults' object has no attribute 'get'",
    runs its cleanup and lets the exception propagate.  With voting
    disabled the voting phase returns the empty dictionary, the results
    phase makes its three broadcasts, and [run_debate] returns the empty
    results once its cleanup has ended. *)
Theorem voting_decides_how_the_session_ends
  (introduction_phase opening_statements_phase autonomous_discussion_phase
   traditional_discussion_phase closing_statements_phase
     : Moderator.t -> Moderator.Outcome unit)
  (ve : Session.VotingEnv) (re : Session.ResultsEnv) (vs : Voting.t)
  (st : Moderator.Stamp) (lines : list (string * Moderator.Stamp))
  (m : Moderator.t) :
  let run :=
    Moderator.run_debate introduction_phase opening_statements_phase
      autonomous_discussion_phase traditional_discussion_phase
      closing_statements_phase
      (fun m => (Session.voting_phase ve vs m).1) (Session.results_phase re)
      st lines m in
  (Voting.enabled vs = true ->
   forall results m', run <> Moderator.Completed results m') /\
  (forall m4,
     earlier_phases introduction_phase opening_statements_phase
       autonomous_discussion_phase traditional_discussion_phase
       closing_statements_phase m = Moderator.Returns tt m4 ->
     (Voting.enabled vs = true -> Voting.is_active vs = false ->
      run =
        match
          Moderator.finally lines
            (Moderator.broadcast_message
               (Moderator.error_text Session.no_get) st
               (Moderator.with_phase Moderator.RESULTS
                  (Moderator.broadcast_message
                     (Session.voting_open_text (Session.voting_time ve))
                     (Session.st_voting ve)
                     (Moderator.with_phase Moderator.VOTING m4))))
        with
        | (Moderator.Ended, m'') =>
            Moderator.Propagated (Moderator.PyException Session.no_get) m''
        | (Moderator.Pending, m'') => Moderator.InCleanup m''
        end) /\
     (Voting.enabled vs = false ->
      exists m6,
        Session.results_phase re None
          (Moderator.broadcast_message Session.voting_disabled_text
             (Session.st_voting ve)
             (Moderator.with_phase Moderator.VOTING m4))
          = Moderator.Returns tt m6 /\
        Moderator.phase (Moderator.state m6) = Moderator.RESULTS /\
        run =
          match Moderator.finally lines m6 with
          | (Moderator.Ended, m'') => Moderator.Completed None m''
          | (Moderator.Pending, m'') => Moderator.InCleanup m''
          end)).
Proof.
  intros run. subst run. unfold Moderator.run_debate. split.
  - intros He results m'.
    pose proof (session_phases_enabled introduction_phase
                  opening_statements_phase autonomous_discussion_phase
                  traditional_discussion_phase closing_statements_phase
                  ve re vs m He) as Hp.
    destruct (Moderator.phases _ _ _ _ _ _ _ m) as [r m1|[msg|msg] m1].
    + by destruct (Hp r m1).
    + by destruct (Moderator.finally lines _) as [[] ?].
    + by destruct (Moderator.finally lines _) as [[] ?].
  - intros m4 Hearlier. rewrite session_phases_split, Hearlier. simpl. split.
    + intros He Ha.
      destruct (voting_phase_results ve vs m4 He Ha) as [r ->]. done.
    + intros He. unfold Session.voting_phase. rewrite He. simpl.
      eexists. split; [reflexivity|]. split; [|done].
      unfold Moderator.broadcast_message.
      repeat (destruct (ChatLog.add_message _ _ _ _ _ _ _) as [? ?]; simpl).
      done.
Qed.

(** X21 at work: the session of the examples with the human on the
    websocket interface, every phase before the vote passing, and voting
    enabled: the exception propagates and the last message on the chat log
    is the error. *)
Lemma voting_decides_how_the_session_ends_witness :
  let ve := Session.mkVotingEnv 300 (10, 10)%Q 11
              [Voting.mkBallot "Socrates" "Human_1" (Some "clear") 12 12] 400 in
  let re := Session.mkResultsEnv (fun _ => "statistics")
              (401, 401)%Q (402, 402)%Q (403, 403)%Q in
  let vs := Voting.init true 300 true true false in
  let run :=
    Moderator.run_debate phase_passes phase_passes phase_passes phase_passes
      phase_passes
      (fun m => (Session.voting_phase ve vs m).1) (Session.results_phase re)
      (404, 404)%Q [] (demo_session Human.Web) in
  (forall results m', run <> Moderator.Completed results m') /\
  exists m',
    run = Moderator.Propagated (Moderator.PyException Session.no_get) m' /\
    Moderator.phase (Moderator.state m') = Moderator.FINISHED /\
    last (map ChatLog.content (ChatLog.messages (Moderator.chat_log m')))
      = Some (Moderator.error_text Session.no_get).
Proof.
  intros ve re vs run.
  destruct (voting_decides_how_the_session_ends phase_passes phase_passes
              phase_passes phase_passes phase_passes ve re vs
              (404, 404)%Q [] (demo_session Human.Web)) as [Hnever _].
  split; [by apply Hnever|].
  eexists. split; [vm_compute; reflexivity|]. split; reflexivity.
Defined.

(** ** Moderator: what the facilitation loop takes for activity, and turns
    that are answered in time *)
Section ModeratorFacilitation.
Import Moderator.

Lemma run_full ops cl :
  length (ChatLog.messages cl) = ChatLog.maxlen cl ->
  length (ChatLog.messages (ChatLog.run cl ops).1) = ChatLog.maxlen cl /\
  ChatLog.maxlen (ChatLog.run cl ops).1 = ChatLog.maxlen cl.
Proof.
  intros H. destruct (ChatLog.run cl ops) as [cl' ms] eqn:E.
  destruct (run_window ops cl cl' ms E) as (Hm & _ & _ & Hw); [lia|].
  simpl. split; [|done]. rewrite Hw, length_last_n, length_app. lia.
Qed.

(** What a broadcast does to the window and the counter, and the settings
    of the facilitation that it leaves alone. *)
Lemma broadcast_log text st m :
  let m' := broadcast_message text st m in
  ChatLog.maxlen (chat_log m') = ChatLog.maxlen (chat_log m) /\
  ChatLog.message_counter (chat_log m')
    = S (ChatLog.message_counter (chat_log m)) /\
  (length (ChatLog.messages (chat_log m)) = ChatLog.maxlen (chat_log m) ->
   length (ChatLog.messages (chat_log m')) = ChatLog.maxlen (chat_log m)) /\
  last_activity_time m' = last_activity_time m /\
  last_moderator_prompt m' = last_moderator_prompt m /\
  silence_timeout m' = silence_timeout m.
Proof.
  intros m'. subst m'. unfold broadcast_message, ChatLog.add_message.
  destruct (ChatLog.get_response_time _ _ _) as [? rt].
  destruct (ChatLog.notify_subscribers _ _ _) as [subs h]. simpl.
  repeat split; try done.
  intros Hfull. rewrite deque_append_last_n by lia.
  rewrite length_last_n, length_app. simpl. lia.
Qed.

Lemma time_updates_log remaining st m :
  let m' := provide_time_updates remaining st m in
  ChatLog.maxlen (chat_log m') = ChatLog.maxlen (chat_log m) /\
  (length (ChatLog.messages (chat_log m)) = ChatLog.maxlen (chat_log m) ->
   length (ChatLog.messages (chat_log m')) = ChatLog.maxlen (chat_log m)) /\
  last_activity_time m' = last_activity_time m.
Proof.
  intros m'. subst m'. unfold provide_time_updates.
  repeat match goal with
  | |- context [if ?c then _ else _] => destruct c
  end;
  try (by destruct (broadcast_log five_minutes st m) as (?&?&?&?&?));
  try (by destruct (broadcast_log two_minutes st m) as (?&?&?&?&?));
  try (by destruct (broadcast_log one_minute st m) as (?&?&?&?&?));
  done.
Qed.

Lemma facilitate_loop_full start_time total_time ticks : forall count m,
  length (ChatLog.messages (chat_log m)) = ChatLog.maxlen (chat_log m) ->
  ChatLog.maxlen (chat_log m) <= count ->
  let m' := (facilitate_loop start_time total_time ticks count m).2 in
  last_activity_time m' = last_activity_time m /\
  length (ChatLog.messages (chat_log m')) = ChatLog.maxlen (chat_log m).
Proof.
  induction ticks as [|k ticks IH]; intros count m Hfull Hcount; simpl;
    [done|].
  destruct (Qltb (t_cond k - start_time) total_time); [|done].
  destruct (run_full (traffic k) (chat_log m) Hfull) as [Hlen Hmax].
  set (m1 := with_chat_log (ChatLog.run (chat_log m) (traffic k)).1 m).
  change (ChatLog.messages (ChatLog.run (chat_log m) (traffic k)).1)
    with (ChatLog.messages (chat_log m1)).
  assert (Hlen1 : length (ChatLog.messages (chat_log m1))
                  = ChatLog.maxlen (chat_log m1)) by (simpl; lia).
  assert (Hmax1 : ChatLog.maxlen (chat_log m1) = ChatLog.maxlen (chat_log m))
    by done.
  replace (count <? length (ChatLog.messages (chat_log m1)))%nat with false
    by (symmetry; apply Nat.ltb_ge; lia).
  cbv beta iota.
  match goal with
  | |- context [if ?c then ?a else m1] => set (m3 := if c then a else m1)
  end.
  assert (H3 : ChatLog.maxlen (chat_log m3) = ChatLog.maxlen (chat_log m) /\
               length (ChatLog.messages (chat_log m3))
                 = ChatLog.maxlen (chat_log m3) /\
               last_activity_time m3 = last_activity_time m).
  { subst m3. destruct (_ && _); [|by rewrite Hmax1].
    unfold provide_simple_prompt.
    destruct (broadcast_log (default "" (simple_prompts !! choice k))
                (st_prompt k) m1) as (Hm & _ & Hl & _).
    simpl. rewrite Hm, Hl by done. by rewrite Hmax1. }
  destruct H3 as (Hm3 & Hl3 & Ha3).
  destruct (time_updates_log (total_time - (t_now k - start_time))
              (st_update k) m3) as (Hm4 & Hl4 & Ha4).
  destruct (IH count (provide_time_updates
                        (total_time - (t_now k - start_time)) (st_update k) m3))
    as [Ha Hl].
  { rewrite Hl4, Hm4 by done. done. }
  { rewrite Hm4, Hm3. done. }
  split; [by rewrite Ha, Ha4, Ha3|]. by rewrite Hl, Hm4, Hm3.
Qed.

End ModeratorFacilitation.

(** X22. What the facilitation loop takes for activity.  A pass records
    its clock reading as the time of the last activity exactly when the
    chat log then stores more messages than the loop has counted so far.
    The chat log stores at most [maxlen] messages, so once it is full no
    pass sees activity any more: the time of the last activity keeps its
    value through any number of passes, whatever the participants write
    in the meantime. *)
Theorem activity_is_growth_of_the_stored_log
  (start_time total_time : Q) (m : Moderator.t) :
  (forall k,
     Qltb (Moderator.t_cond k - start_time) total_time = true ->
     Moderator.last_activity_time
       (Moderator.facilitate_autonomous_discussion start_time total_time
          [k] m).2
     = if (length (ChatLog.messages (Moderator.chat_log m))
           <? length (ChatLog.messages
                        (ChatLog.run (Moderator.chat_log m)
                           (Moderator.traffic k)).1))%nat
       then Moderator.t_now k
       else Moderator.last_activity_time m) /\
  (length (ChatLog.messages (Moderator.chat_log m))
     = ChatLog.maxlen (Moderator.chat_log m) ->
   forall ticks,
     Moderator.last_activity_time
       (Moderator.facilitate_autonomous_discussion start_time total_time
          ticks m).2
     = Moderator.last_activity_time m).
Proof.
  split.
  - intros k Hin. unfold Moderator.facilitate_autonomous_discussion. simpl.
    rewrite Hin.
    set (m1 := Moderator.with_chat_log _ m).
    change (ChatLog.messages (ChatLog.run (Moderator.chat_log m)
                                (Moderator.traffic k)).1)
      with (ChatLog.messages (Moderator.chat_log m1)).
    destruct (length (ChatLog.messages (Moderator.chat_log m))
              <? length (ChatLog.messages (Moderator.chat_log m1)))%nat.
    + set (m2 := Moderator.with_activity _ _ m1).
      match goal with
      | |- context [if ?c then ?a else m2] => set (m3 := if c then a else m2)
      end.
      assert (H3 : Moderator.last_activity_time m3 = Moderator.t_now k).
      { subst m3. by destruct (_ && _). }
      destruct (time_updates_log
                  (total_time - (Moderator.t_now k - start_time))
                  (Moderator.st_update k) m3) as (_ & _ & Ha).
      simpl. by rewrite Ha.
    + match goal with
      | |- context [if ?c then ?a else m1] => set (m3 := if c then a else m1)
      end.
      assert (H3 : Moderator.last_activity_time m3
                   = Moderator.last_activity_time m).
      { subst m3. by destruct (_ && _). }
      destruct (time_updates_log
                  (total_time - (Moderator.t_now k - start_time))
                  (Moderator.st_update k) m3) as (_ & _ & Ha).
      simpl. by rewrite Ha.
  - intros Hfull ticks. unfold Moderator.facilitate_autonomous_discussion.
    by destruct (facilitate_loop_full start_time total_time ticks
                   (length (ChatLog.messages (Moderator.chat_log m))) m
                   Hfull) as [Ha _]; [lia|].
Qed.

(** X22 at work: a chat log of capacity 2 that holds two messages.  A
    participant writes at 90 s, during the sleep of the pass at 100 s; the
    time of the last activity is still that of the start, and the pass
    sends a prompt for the silence. *)
Lemma activity_is_growth_of_the_stored_log_witness :
  let cl :=
    (ChatLog.run (ChatLog.init 2)
       [ChatLog.OpAdd "Ann" "first" "chat" [] 1 1;
        ChatLog.OpAdd "Bob" "second" "chat" [] 2 2]).1 in
  let m := Moderator.init "AI" [] cl
             (demo_bot "Moderator" "facilitator" "neutral")
             120 90 5000 true 60 0 in
  let k := Moderator.mkTick 85 [ChatLog.OpAdd "Ann" "third" "chat" [] 90 90]
             100 0 (100, 100)%Q (100, 100)%Q in
  let m' := (Moderator.facilitate_autonomous_discussion 0 900 [k] m).2 in
  map ChatLog.content (ChatLog.messages (Moderator.chat_log m'))
    = ["third"; "🎯 What are your thoughts on the discussion so far?"] /\
  Moderator.last_activity_time m' = Moderator.last_activity_time m.
Proof.
  intros cl m k m'. split; [reflexivity|].
  destruct (activity_is_growth_of_the_stored_log 0 900 m) as [_ Hfull].
  apply (Hfull eq_refl [k]).
Defined.

Section ModeratorTurnsInTime.
Import Moderator.

(** The timer loop when it is left because the task is done: nothing was
    cancelled, and the loop has sent one reminder at most, and none if one
    had been sent before. *)
Lemma timer_loop_done who time_limit e : forall ps warning_sent m cancels m2,
  timer_loop who time_limit e ps warning_sent m = (TaskDone, cancels, m2) ->
  cancels = 0 /\ same_session m m2 /\
  ChatLog.maxlen (chat_log m2) = ChatLog.maxlen (chat_log m) /\
  ChatLog.message_counter (chat_log m)
    <= ChatLog.message_counter (chat_log m2)
    <= ChatLog.message_counter (chat_log m) + (if warning_sent then 0 else 1).
Proof.
  induction ps as [|p ps IH]; intros warning_sent m cancels m2; simpl;
    [done|].
  destruct (poll_done p).
  { intros [= <- <-]. split; [done|]. split; [apply same_session_refl|].
    split; [done|]. lia. }
  destruct (Qleb _ 0).
  { by destruct (reaction e). }
  destruct (negb warning_sent && _) eqn:Ew.
  - apply andb_true_iff in Ew as [Hw _].
    apply negb_true_iff in Hw. subst warning_sent.
    intros Hloop. apply IH in Hloop as (Hc & Hs & Hm & Hn).
    unfold send_warning in *.
    set (text := ("⏰ " +:+ who +:+ ": " +:+ _ +:+ " seconds remaining")) in *.
    destruct (broadcast_log text (poll_stamp p) m) as (Hm1 & Hc1 & _).
    split; [done|].
    split; [exact (same_session_trans _ _ _
                     (broadcast_same text (poll_stamp p) m) Hs)|].
    split; [congruence|]. lia.
  - intros Hloop. apply IH in Hloop as (Hc & Hs & Hm & Hn).
    split; [done|]. split; [done|]. split; [done|].
    destruct warning_sent; lia.
Qed.

(** The participant's message is the last one after [_process_response],
    with the first or the second identifier after the counter. *)
Lemma process_response_last who text st1 st2 m :
  1 <= ChatLog.maxlen (chat_log m) ->
  exists posted,
    last (ChatLog.messages (chat_log (process_response who text st1 st2 m)))
      = Some posted /\
    ChatLog.sender posted = who /\
    ChatLog.message_type posted = "chat" /\
    (String.length text <= max_message_length m ->
     ChatLog.content posted = text /\
     ChatLog.message_id posted = S (ChatLog.message_counter (chat_log m))).
Proof.
  intros Hmax. unfold process_response.
  destruct (Nat.ltb_spec (max_message_length m) (String.length text))
    as [Hlong|Hfits].
  - set (note := "⚠️ " +:+ who +:+ "'s response was truncated due to length").
    destruct (broadcast_log note st1 m) as (Hm1 & _).
    destruct (add_message_fields who
                (String.substring 0 (max_message_length m) text +:+ "...")
                "chat" [] st2.1 st2.2
                (chat_log (broadcast_message note st1 m)))
      as (Hs & Hc & Hty & _ & _ & _ & _ & Hlast).
    destruct (ChatLog.add_message who _ "chat" [] st2.1 st2.2 _)
      as [cl msg].
    simpl in *. exists msg.
    split; [apply Hlast; lia|]. split; [done|]. split; [done|]. lia.
  - destruct (add_message_fields who text "chat" [] st2.1 st2.2 (chat_log m))
      as (Hs & Hc & Hty & Hid & _ & _ & _ & Hlast).
    destruct (ChatLog.add_message who text "chat" [] st2.1 st2.2 (chat_log m))
      as [cl msg].
    simpl in *. exists msg.
    split; [by apply Hlast|]. by repeat split.
Qed.

Lemma broadcast_last text st m :
  1 <= ChatLog.maxlen (chat_log m) ->
  exists posted,
    last (ChatLog.messages (chat_log (broadcast_message text st m)))
      = Some posted /\
    ChatLog.sender posted = "moderator" /\ ChatLog.content posted = text.
Proof.
  intros Hmax. rewrite broadcast_chat_log.
  destruct (add_message_fields "moderator" text "moderator" [] st.1 st.2
              (chat_log m)) as (Hs & Hc & _ & _ & _ & _ & _ & Hlast).
  eexists. split; [by apply Hlast|]. done.
Qed.

End ModeratorTurnsInTime.

(** X23. A structured turn that is answered in time, that is, whose timer
    loop finds the response task done: the task is never cancelled, no
    exception escapes, the warnings counted against the participants stay
    as they were, nobody is the current speaker afterwards, and the
    participants are the same.  Besides the announcement of the turn the
    moderator has sent at most one reminder of the time remaining.  A
    non-empty response is the last message on the chat log, under the
    participant's name and with the type "chat"; when it fits
    [max_message_length] it is stored as it is, as the second or third
    message of the turn.  An empty response is not posted.  When the task
    ended with an exception, the last message is the moderator's report
    of it. *)
Theorem turn_answered_in_time
  (who : string) (time_limit : Z) (turn_type : string)
  (e : Moderator.TurnEnv) (m : Moderator.t) (p : Moderator.Participant) :
  Voting.dict_get who (Moderator.participants m) = Some p ->
  Moderator.turn_exit
    (Moderator.give_structured_turn who time_limit turn_type e m).1
    = Moderator.TaskDone ->
  let r := Moderator.give_structured_turn who time_limit turn_type e m in
  let before := ChatLog.message_counter (Moderator.chat_log m) in
  Moderator.cancel_calls r.1 = 0 /\
  Moderator.turn_raised r.1 = None /\
  Moderator.warnings_issued (Moderator.state r.2)
    = Moderator.warnings_issued (Moderator.state m) /\
  Moderator.current_speaker (Moderator.state r.2) = None /\
  map fst (Moderator.participants r.2) = map fst (Moderator.participants m) /\
  match Moderator.result e with
  | Moderator.Value text =>
      if bool_decide (text = "") then
        before + 1 <= ChatLog.message_counter (Moderator.chat_log r.2)
          <= before + 2
      else
        1 <= ChatLog.maxlen (Moderator.chat_log m) ->
        exists posted,
          last (ChatLog.messages (Moderator.chat_log r.2)) = Some posted /\
          ChatLog.sender posted = who /\
          ChatLog.message_type posted = "chat" /\
          (String.length text <= Moderator.max_message_length m ->
           ChatLog.content posted = text /\
           before + 2 <= ChatLog.message_id posted <= before + 3)
  | Moderator.Error msg =>
      1 <= ChatLog.maxlen (Moderator.chat_log m) ->
      exists posted,
        last (ChatLog.messages (Moderator.chat_log r.2)) = Some posted /\
        ChatLog.sender posted = "moderator" /\
        ChatLog.content posted
          = "⚠️ Error getting response from " +:+ who +:+ ": " +:+ msg
  end.
Proof.
  intros Hp Hexit r before. subst r before. revert Hexit.
  unfold Moderator.give_structured_turn.
  set (m0 := Moderator.with_speaker (Some who) time_limit m).
  change (Moderator.participants m0) with (Moderator.participants m).
  rewrite Hp.
  set (text0 := "🎤 " +:+ who +:+ "'s turn for " +:+ turn_type +:+ " ("
                  +:+ pretty time_limit +:+ "s)").
  set (m1 := Moderator.broadcast_message text0 (Moderator.st_announce e) m0).
  destruct (Moderator.timer_loop who time_limit e (Moderator.polls e) false m1)
    as [[exit cancels] m2] eqn:Eloop.
  destruct exit as [|rc|]; [|by destruct rc as [|t|msg]; try destruct (bool_decide _)|done].
  intros _.
  apply timer_loop_done in Eloop as (Hc & (Hst & Hnames & _ & Hlim) & Hmax & Hn).
  destruct (broadcast_log text0 (Moderator.st_announce e) m0)
    as (Hmax1 & Hn1 & _).
  destruct (broadcast_same text0 (Moderator.st_announce e) m0)
    as (Hst1 & Hnames1 & _ & Hlim1).
  fold m1 in Hmax1, Hn1, Hst1, Hnames1, Hlim1.
  change (Moderator.chat_log m0) with (Moderator.chat_log m) in *.
  change (Moderator.max_message_length m0)
    with (Moderator.max_message_length m) in *.
  change (Moderator.participants m0) with (Moderator.participants m) in *.
  destruct (Moderator.result e) as [text|msg].
  - case_bool_decide as Htext.
    + simpl. rewrite Hst, Hst1, Hnames, Hnames1. simpl.
      repeat split; try done; lia.
    + pose proof (process_response_same who text (Moderator.st_note e)
                    (Moderator.st_post e) m2) as (Hst3 & Hnames3 & _).
      simpl. rewrite Hst3, Hst, Hst1, Hnames3, Hnames, Hnames1. simpl.
      repeat split; try done.
      intros Hcap.
      destruct (process_response_last who text (Moderator.st_note e)
                  (Moderator.st_post e) m2) as (posted & Hl & Hs & Ht & Hfit);
        [lia|].
      exists posted. repeat split; try done;
        destruct Hfit as [Hc' Hid]; try lia; done.
  - pose proof (broadcast_same
                  ("⚠️ Error getting response from " +:+ who +:+ ": " +:+ msg)
                  (Moderator.st_error e) m2) as (Hst3 & Hnames3 & _).
    simpl. rewrite Hst3, Hst, Hst1, Hnames3, Hnames, Hnames1. simpl.
    repeat split; try done.
    intros Hcap.
    destruct (broadcast_last
                ("⚠️ Error getting response from " +:+ who +:+ ": " +:+ msg)
                (Moderator.st_error e) m2) as (posted & Hl & Hs & Hc');
      [lia|].
    by exists posted.
Qed.

(** X23 at work: Socrates is given 30 seconds and answers after two polls
    of the timer.  The warning time of 90 seconds is above the limit, so
    the first poll sends the reminder; the answer is the third message of
    the turn. *)
Lemma turn_answered_in_time_witness :
  let e := Moderator.mkTurnEnv (1, 1)%Q 1
             [Moderator.mkPoll false 1.5 (2, 2)%Q;
              Moderator.mkPoll true 2 (2, 2)%Q]
             (Moderator.Value "Know thyself.") Moderator.EndsCancelled
             (3, 3)%Q (4, 4)%Q (5, 5)%Q (6, 6)%Q in
  let r := Moderator.give_structured_turn "Socrates" 30 "opening statement"
             e (demo_session Human.Web) in
  map ChatLog.content (ChatLog.messages (Moderator.chat_log r.2))
    = ["🎤 Socrates's turn for opening statement (30s)";
       "⏰ Socrates: 29 seconds remaining";
       "Know thyself."] /\
  Moderator.cancel_calls r.1 = 0 /\
  Moderator.current_speaker (Moderator.state r.2) = None.
Proof.
  intros e r. split; [reflexivity|].
  destruct (turn_answered_in_time "Socrates" 30 "opening statement" e
              (demo_session Human.Web)
              (Moderator.PBot (demo_bot "Socrates" "philosophical" "neutral")))
    as (Hc & _ & _ & Hs & _); [reflexivity|reflexivity|].
  split; [exact Hc|exact Hs].
Defined.

(** ** Bots: stopping *)

(** X24. [stop_monitoring] clears the monitoring flag, and it unsubscribes
    the bot's queue only if the chat log is true, that is, stores a
    message.  On a chat log built from [__init__], for a bot whose queue
    is subscribed: after [stop_monitoring] the queue is still subscribed
    exactly when no message has been added so far or the capacity is 0;
    the chat log is then left as it was.  Otherwise the queue is removed,
    the other subscribers staying, and this is what [Bot.stop_monitoring]
    does. *)
Theorem stop_unsubscribes_unless_log_is_empty
  (N : nat) (ops : list ChatLog.Op) (b : Bot.t) (q : nat) :
  let cl := (ChatLog.run (ChatLog.init N) ops).1 in
  Bot.message_queue b = Some q ->
  Bot.has_chat_log b = true ->
  q ∈ ChatLog.subscribers cl ->
  let stopped := BotLifecycle.stop_monitoring b cl in
  Bot.is_monitoring stopped.1 = false /\
  (q ∈ ChatLog.subscribers stopped.2 <->
     N = 0 \/ ChatLog.message_counter cl = 0) /\
  (N = 0 \/ ChatLog.message_counter cl = 0 -> stopped.2 = cl) /\
  (0 < N -> 0 < ChatLog.message_counter cl ->
   stopped = Bot.stop_monitoring b cl /\
   forall a, a <> q ->
     (a ∈ ChatLog.subscribers stopped.2 <-> a ∈ ChatLog.subscribers cl)).
Proof.
  intros cl Hq Hlog Hsub stopped. subst stopped.
  pose proof (run_wf ops (ChatLog.init N) (wf_init N)) as Hwf.
  fold cl in Hwf.
  assert (Hlen : length (ChatLog.messages cl)
                 = min N (ChatLog.message_counter cl)).
  { subst cl. destruct (ChatLog.run (ChatLog.init N) ops) as [cl ms] eqn:E.
    destruct (run_window _ _ _ _ E) as (_ & Hc & _ & Hw); [simpl; lia|].
    simpl in *. rewrite Hw, length_last_n, Hc. lia. }
  unfold BotLifecycle.stop_monitoring, Bot.stop_monitoring,
    BotLifecycle.chat_log_truth.
  rewrite Hq, Hlog. simpl.
  destruct (Nat.ltb_spec 0 (length (ChatLog.messages cl))) as [Hpos|Hzero];
    simpl.
  - unfold ChatLog.unsubscribe. rewrite bool_decide_true by done. simpl.
    split; [done|]. split; [|split].
    + split; [|lia]. intros Hin.
      by apply (remove_first_gone q _ (wf_nodup _ Hwf)) in Hin.
    + lia.
    + intros _ _. split; [done|]. intros a Ha. split.
      * apply remove_first_subseteq.
      * by apply remove_first_other.
  - split; [done|]. split; [|split].
    + split; [lia|done].
    + done.
    + lia.
Qed.

(** X24 at work: Socrates starts monitoring a new chat log and is stopped
    before anybody has written: the queue stays subscribed.  Stopped after
    the first message, it is unsubscribed. *)
Lemma stop_unsubscribes_unless_log_is_empty_witness :
  let b := demo_bot "Socrates" "philosophical" "neutral" in
  let started := Bot.start_autonomous_monitoring "AI" b (ChatLog.init 1000) in
  let later :=
    (ChatLog.add_message "Ann" "hello" "chat" [] 1 1 started.2).1 in
  ChatLog.subscribers (BotLifecycle.stop_monitoring started.1 started.2).2
    = [0] /\
  ChatLog.subscribers (BotLifecycle.stop_monitoring started.1 later).2 = [] /\
  (0 ∈ ChatLog.subscribers
         (BotLifecycle.stop_monitoring started.1 started.2).2 <->
   1000 = 0 \/ 0 = 0).
Proof.
  intros b started later. split; [reflexivity|]. split; [reflexivity|].
  destruct (stop_unsubscribes_unless_log_is_empty 1000 [ChatLog.OpSubscribe]
              started.1 0) as (_ & Hiff & _).
  - reflexivity.
  - reflexivity.
  - simpl. by left.
  - exact Hiff.
Defined.

(** ** Moderator: the sequential discussion *)
Section SequentialPhases.
Import Moderator Sequential.

(** What every step of a turn keeps: the names of the participants, the
    turn order and the phase. *)
Definition same_cast (m m' : t) : Prop :=
  map fst (participants m') = map fst (participants m) /\
  turn_order (state m') = turn_order (state m) /\
  phase (state m') = phase (state m).

Lemma same_cast_refl m : same_cast m m.
Proof. by repeat split. Qed.

Lemma same_cast_trans m1 m2 m3 :
  same_cast m1 m2 -> same_cast m2 m3 -> same_cast m1 m3.
Proof. intros (?&?&?) (?&?&?). repeat split; congruence. Qed.

Lemma same_session_cast m m' : same_session m m' -> same_cast m m'.
Proof. intros (Hs & Hk & _). repeat split; [done|by rewrite Hs..]. Qed.

Lemma broadcast_cast text st m : same_cast m (broadcast_message text st m).
Proof. apply same_session_cast, broadcast_same. Qed.

Lemma with_speaker_cast who limit m : same_cast m (with_speaker who limit m).
Proof. by repeat split. Qed.

Lemma handle_timeout_cast who st m : same_cast m (handle_timeout who st m).
Proof.
  destruct (handle_timeout_spec who st m) as (_ & Hp & Ht & _ & Hk & _).
  by repeat split.
Qed.

Lemma timer_loop_cast who time_limit e : forall ps warning_sent m,
  same_cast m (timer_loop who time_limit e ps warning_sent m).2.
Proof.
  induction ps as [|p ps IH]; intros warning_sent m; simpl;
    [apply same_cast_refl|].
  destruct (poll_done p); [apply same_cast_refl|].
  destruct (Qleb _ 0).
  { destruct (reaction e); simpl;
      [apply handle_timeout_cast..|apply same_cast_refl]. }
  destruct (negb warning_sent && _); [|apply IH].
  eapply same_cast_trans; [|apply IH]. apply broadcast_cast.
Qed.

Lemma turn_cast who time_limit turn_type e m :
  same_cast m (give_structured_turn who time_limit turn_type e m).2.
Proof.
  unfold give_structured_turn.
  pose proof (with_speaker_cast (Some who) time_limit m) as H0.
  set (m0 := with_speaker (Some who) time_limit m) in *.
  destruct (Voting.dict_get who (participants m0)); [|done].
  set (text0 := "🎤 " +:+ who +:+ "'s turn for " +:+ turn_type +:+ " ("
                  +:+ pretty time_limit +:+ "s)").
  pose proof (broadcast_cast text0 (st_announce e) m0) as H1.
  set (m1 := broadcast_message text0 (st_announce e) m0) in *.
  pose proof (timer_loop_cast who time_limit e (polls e) false m1) as H2.
  destruct (timer_loop who time_limit e (polls e) false m1)
    as [[exit cancels] m2].
  simpl in H2.
  pose proof (same_cast_trans _ _ _ H0 (same_cast_trans _ _ _ H1 H2)) as H.
  assert (Hpost : forall text,
            same_cast m (if bool_decide (text = "") then m2
                         else process_response who text (st_note e)
                                (st_post e) m2)).
  { intros text. case_bool_decide; [done|].
    eapply same_cast_trans; [exact H|].
    apply same_session_cast, process_response_same. }
  assert (Herr : forall text,
            same_cast m (broadcast_message text (st_error e) m2)).
  { intros text. eapply same_cast_trans; [exact H|apply broadcast_cast]. }
  destruct exit as [|[|text|msg]|]; simpl;
    try destruct (result e) as [text|msg];
    try (eapply same_cast_trans; [|apply with_speaker_cast]);
    first [done|apply Hpost|apply Herr].
Qed.

Lemma turn_known who time_limit turn_type e m :
  who ∈ map fst (participants m) ->
  turn_raised (give_structured_turn who time_limit turn_type e m).1 = None.
Proof.
  intros Hin. unfold give_structured_turn.
  change (participants (with_speaker (Some who) time_limit m))
    with (participants m).
  destruct (Voting.dict_get who (participants m)) eqn:E.
  - destruct (timer_loop _ _ _ _ _ _) as [[exit cancels] m2].
    by destruct exit.
  - by apply dict_get_None in E.
Qed.

(** A turn with no time at all: the first evaluation of the loop
    condition, which finds the new task not done, cancels it. *)
Lemma turn_without_time who time_limit turn_type e m p rest :
  who ∈ map fst (participants m) ->
  (time_limit <= 0)%Z ->
  polls e = p :: rest ->
  poll_done p = false ->
  (turn_start e <= poll_now p)%Q ->
  (forall msg, reaction e <> RaisesInstead msg) ->
  let r := (give_structured_turn who time_limit turn_type e m).1 in
  turn_exit r = TimedOut (reaction e) /\ cancel_calls r = 1.
Proof.
  intros Hin Hlim Hpolls Hnd Hclock Hr r. subst r.
  unfold give_structured_turn.
  change (participants (with_speaker (Some who) time_limit m))
    with (participants m).
  destruct (Voting.dict_get who (participants m)) eqn:E;
    [|by apply dict_get_None in E].
  rewrite Hpolls.
  assert (Hq : (inject_Z time_limit - (poll_now p - turn_start e) <= 0)%Q).
  { rewrite Zle_Qle in Hlim. change (inject_Z 0) with 0%Q in Hlim. lra. }
  match goal with
  | |- context [timer_loop who time_limit e _ false ?m1] =>
      destruct (timer_loop_timeout who time_limit e p rest [] false m1)
        as (m2 & _ & Heq); [constructor|done|done|done|]
  end.
  simpl app in Heq. rewrite Heq.
  destruct (reaction e) as [|text|msg]; simpl; [done|done|].
  by destruct (Hr msg).
Qed.

(** What is shown of a turn of the sequential discussion. *)
Definition turn_ok (start_time total_time : Q) (keys : list string)
  (g : TurnGiven) : Prop :=
  speaker g ∈ keys /\
  turn_raised (report g) = None /\
  let e := turn_env (slot g) in
  let remaining := (total_time - (t_rem (slot g) - start_time))%Q in
  ((0 <= remaining)%Q -> (inject_Z (limit g) <= remaining)%Q) /\
  ((remaining < 1)%Q ->
   (limit g <= 0)%Z /\
   forall p rest,
     polls e = p :: rest -> poll_done p = false ->
     (turn_start e <= poll_now p)%Q ->
     (forall msg, reaction e <> RaisesInstead msg) ->
     turn_exit (report g) = TimedOut (reaction e) /\
     cancel_calls (report g) = 1).

Lemma Qtrunc_le x : (0 <= x)%Q -> (inject_Z (Qtrunc x) <= x)%Q.
Proof.
  intros H. unfold Qtrunc.
  destruct (Qle_bool 0 x) eqn:E; [apply Qfloor_le|].
  apply Qle_bool_iff in H. congruence.
Qed.

Lemma Qtrunc_below x n : (x < inject_Z n)%Q -> (Qtrunc x <= n)%Z.
Proof.
  intros H. unfold Qtrunc. destruct (Qle_bool 0 x) eqn:E.
  - rewrite Zle_Qle. pose proof (Qfloor_le x). lra.
  - pose proof (Qceiling_lt x) as Hc.
    assert (Hlt : (inject_Z (Qceiling x - 1) < inject_Z n)%Q) by lra.
    rewrite <- Zlt_Qlt in Hlt. lia.
Qed.

Lemma Qtrunc_small x : (x < 1)%Q -> (Qtrunc x <= 0)%Z.
Proof.
  intros H. unfold Qtrunc. destruct (Qle_bool 0 x) eqn:E.
  - pose proof (Qfloor_le x) as Hf.
    assert (Hlt : (inject_Z (Qfloor x) < inject_Z 1)%Q)
      by (change (inject_Z 1) with 1%Q; lra).
    rewrite <- Zlt_Qlt in Hlt. lia.
  - assert (Hneg : (x < 0)%Q).
    { apply Qnot_le_lt. intros Hle. apply Qle_bool_iff in Hle. congruence. }
    pose proof (Qceiling_lt x) as Hc.
    assert (Hlt : (inject_Z (Qceiling x - 1) < inject_Z 0)%Q)
      by (change (inject_Z 0) with 0%Q; lra).
    rewrite <- Zlt_Qlt in Hlt. lia.
Qed.

(** The assignment [if remaining < response_time: response_time =
    int(remaining)]. *)
Lemma new_limit_spec (remaining : Q) (rt : Z) :
  let rt' := if Qltb remaining (inject_Z rt) then Qtrunc remaining else rt in
  (rt' <= rt)%Z /\
  ((0 <= remaining)%Q -> (inject_Z rt' <= remaining)%Q) /\
  ((remaining < 1)%Q -> (rt' <= 0)%Z).
Proof.
  intros rt'. subst rt'. destruct (Qltb remaining (inject_Z rt)) eqn:E.
  - apply Qltb_lt in E. split; [by apply Qtrunc_below|].
    split; [apply Qtrunc_le|apply Qtrunc_small].
  - apply Qltb_ge in E. split; [lia|]. split; [done|].
    intros H1.
    assert (Hlt : (inject_Z rt < inject_Z 1)%Q)
      by (change (inject_Z 1) with 1%Q; lra).
    rewrite <- Zlt_Qlt in Hlt. lia.
Qed.

Lemma discussion_round_spec start_time total_time keys :
  forall order ss rt m en gs rt' m',
  discussion_round start_time total_time order ss rt m = (en, gs, rt', m') ->
  (forall who, who ∈ order -> who ∈ keys) ->
  map fst (participants m) = keys ->
  same_cast m m' /\ (forall msg, en <> PhaseRaised msg) /\
  (rt' <= rt)%Z /\
  Forall (fun g => (rt' <= limit g <= rt)%Z) gs /\
  StronglySorted (fun a b => (b <= a)%Z) (map limit gs) /\
  Forall (turn_ok start_time total_time keys) gs.
Proof.
  induction order as [|who order IH]; intros ss rt m en gs rt' m' Hrun Hord Hk;
    simpl in Hrun.
  { injection Hrun as <- <- <- <-.
    repeat split; try done; try lia; constructor. }
  destruct ss as [|s ss].
  { injection Hrun as <- <- <- <-.
    repeat split; try done; try lia; constructor. }
  destruct (Qleb total_time (t_check s - start_time)).
  { injection Hrun as <- <- <- <-.
    repeat split; try done; try lia; constructor. }
  set (remaining := (total_time - (t_rem s - start_time))%Q) in *.
  destruct (new_limit_spec remaining rt) as (Hle & Hrem & Hsmall).
  set (rt1 := if Qltb remaining (inject_Z rt) then Qtrunc remaining else rt)
    in *.
  assert (Hwho : who ∈ map fst (participants m)).
  { rewrite Hk. apply Hord. by left. }
  pose proof (turn_known who rt1 "response" (turn_env s) m Hwho) as Hnone.
  pose proof (turn_cast who rt1 "response" (turn_env s) m) as Hcast.
  assert (Hzero : (rt1 <= 0)%Z ->
            forall p rest,
              polls (turn_env s) = p :: rest -> poll_done p = false ->
              (turn_start (turn_env s) <= poll_now p)%Q ->
              (forall msg, reaction (turn_env s) <> RaisesInstead msg) ->
              turn_exit (give_structured_turn who rt1 "response"
                           (turn_env s) m).1
                = TimedOut (reaction (turn_env s)) /\
              cancel_calls (give_structured_turn who rt1 "response"
                              (turn_env s) m).1 = 1).
  { intros H0 p rest Hp Hd Hc Hr.
    by apply (turn_without_time who rt1 "response" (turn_env s) m p rest). }
  destruct (give_structured_turn who rt1 "response" (turn_env s) m)
    as [r m1].
  simpl in Hnone, Hcast, Hzero. rewrite Hnone in Hrun.
  assert (Hg : turn_ok start_time total_time keys (mkTurnGiven who s rt1 r)).
  { split; [apply Hord; by left|]. split; [done|]. simpl.
    fold remaining. split; [done|]. intros H1. split; [by apply Hsmall|].
    apply Hzero. by apply Hsmall. }
  assert (Hlast : same_cast m m1 /\
            (forall msg, PhaseWaiting <> PhaseRaised msg) /\
            (rt1 <= rt)%Z /\
            Forall (fun g => (rt1 <= limit g <= rt)%Z)
                   [mkTurnGiven who s rt1 r] /\
            StronglySorted (fun a b => (b <= a)%Z)
              (map limit [mkTurnGiven who s rt1 r]) /\
            Forall (turn_ok start_time total_time keys)
                   [mkTurnGiven who s rt1 r]).
  { split; [done|]. split; [done|]. split; [done|].
    split; [constructor; [simpl; lia|constructor]|].
    split; [|by constructor].
    simpl. constructor; constructor. }
  assert (Hnext : forall en gs0 rt0 m2,
            discussion_round start_time total_time order ss rt1 m1
              = (en, gs0, rt0, m2) ->
            same_cast m m2 /\ (forall msg, en <> PhaseRaised msg) /\
            (rt0 <= rt)%Z /\
            Forall (fun g => (rt0 <= limit g <= rt)%Z)
                   (mkTurnGiven who s rt1 r :: gs0) /\
            StronglySorted (fun a b => (b <= a)%Z)
              (map limit (mkTurnGiven who s rt1 r :: gs0)) /\
            Forall (turn_ok start_time total_time keys)
                   (mkTurnGiven who s rt1 r :: gs0)).
  { intros en0 gs0 rt0 m2 Hrec.
    destruct (IH ss rt1 m1 en0 gs0 rt0 m2 Hrec) as
      (Hc2 & Hen & Hrt & Hlim & Hsorted & Hok).
    { intros w Hw. apply Hord. by right. }
    { destruct Hcast as (Hk1 & _). by rewrite Hk1. }
    split; [by eapply same_cast_trans|]. split; [done|]. split; [lia|].
    split.
    { constructor; [simpl; lia|].
      eapply Forall_impl; [exact Hlim|]. simpl. intros g Hgl. lia. }
    split; [|by constructor].
    simpl. constructor; [done|].
    apply Forall_map. eapply Forall_impl; [exact Hlim|].
    simpl. intros g Hgl. lia. }
  destruct (turn_exit r) as [|rc|].
  - destruct (discussion_round start_time total_time order ss rt1 m1)
      as [[[en0 gs0] rt0] m2] eqn:Hrec.
    injection Hrun as <- <- <- <-. by apply Hnext.
  - destruct (discussion_round start_time total_time order ss rt1 m1)
      as [[[en0 gs0] rt0] m2] eqn:Hrec.
    injection Hrun as <- <- <- <-. by apply Hnext.
  - injection Hrun as <- <- <- <-. exact Hlast.
Qed.

Lemma discussion_rounds_spec start_time total_time keys order :
  (forall who, who ∈ order -> who ∈ keys) ->
  forall rounds rt m en gs m',
  discussion_rounds start_time total_time order rounds rt m = (en, gs, m') ->
  map fst (participants m) = keys ->
  same_cast m m' /\ (forall msg, en <> PhaseRaised msg) /\
  Forall (fun g => (limit g <= rt)%Z) gs /\
  StronglySorted (fun a b => (b <= a)%Z) (map limit gs) /\
  Forall (turn_ok start_time total_time keys) gs.
Proof.
  intros Hord.
  induction rounds as [|r rounds IH]; intros rt m en gs m' Hrun Hk;
    simpl in Hrun.
  { injection Hrun as <- <- <-.
    repeat split; try done; constructor. }
  destruct (Qltb (t_while r - start_time) total_time).
  2:{ injection Hrun as <- <- <-.
      repeat split; try done; constructor. }
  destruct (discussion_round start_time total_time order (slots r) rt m)
    as [[[en1 gs1] rt1] m1] eqn:Hround.
  destruct (discussion_round_spec start_time total_time keys order (slots r)
              rt m en1 gs1 rt1 m1 Hround Hord Hk)
    as (Hc1 & Hen1 & Hrt1 & Hlim1 & Hsorted1 & Hok1).
  assert (Hstop : forall en, (forall msg, en <> PhaseRaised msg) ->
            same_cast m m1 /\ (forall msg, en <> PhaseRaised msg) /\
            Forall (fun g => (limit g <= rt)%Z) gs1 /\
            StronglySorted (fun a b => (b <= a)%Z) (map limit gs1) /\
            Forall (turn_ok start_time total_time keys) gs1).
  { intros en0 Hen0. split; [done|]. split; [done|].
    split; [|done].
    eapply Forall_impl; [exact Hlim1|]. simpl. intros g Hg. lia. }
  destruct en1 as [| |msg].
  - destruct (discussion_rounds start_time total_time order rounds rt1 m1)
      as [[en2 gs2] m2] eqn:Hrest.
    injection Hrun as <- <- <-.
    destruct (IH rt1 m1 en2 gs2 m2 Hrest) as (Hc2 & Hen2 & Hlim2 & Hs2 & Hok2).
    { destruct Hc1 as (Hk1 & _). by rewrite Hk1. }
    split; [by eapply same_cast_trans|]. split; [done|].
    split.
    { apply Forall_app. split.
      - eapply Forall_impl; [exact Hlim1|]. simpl. intros g Hg. lia.
      - eapply Forall_impl; [exact Hlim2|]. simpl. intros g Hg. lia. }
    split; [|by apply Forall_app].
    rewrite map_app. apply StronglySorted_app_2; [|done|done].
    intros x1 x2 [g1 [-> Hg1]]%list_elem_of_fmap
                 [g2 [-> Hg2]]%list_elem_of_fmap.
    rewrite Forall_forall in Hlim1, Hlim2.
    specialize (Hlim1 g1 Hg1). specialize (Hlim2 g2 Hg2). simpl in *. lia.
  - injection Hrun as <- <- <-. by apply Hstop.
  - by destruct (Hen1 msg).
Qed.

End SequentialPhases.

(** X25. The time limits of the sequential discussion.  With every name
    of the turn order a participant, the phase raises nothing and leaves
    the phase at DISCUSSION.  The limits it gives never grow from one turn
    to the next and never exceed the [response_time] setting.  A turn
    given while time remains gets no more than the time that remains.  A
    turn given in the last second gets the limit [int(remaining)], which
    is 0 (or below): the first evaluation of the timer loop, which finds
    the new task not done, then cancels the task, so that the speaker is
    treated as having exceeded the time limit without having had any. *)
Theorem sequential_discussion_turn_limits
  (total_time response_time : Z) (st_begin : Moderator.Stamp)
  (start_time : Q) (rounds : list Sequential.Round)
  (st_end : Moderator.Stamp) (m : Moderator.t) :
  (forall who, who ∈ Moderator.turn_order (Moderator.state m) ->
               who ∈ map fst (Moderator.participants m)) ->
  let r := Sequential.traditional_discussion_phase total_time response_time
             st_begin start_time rounds st_end m in
  (forall msg, r.1.1 <> Sequential.PhaseRaised msg) /\
  Moderator.phase (Moderator.state r.2) = Moderator.DISCUSSION /\
  StronglySorted (fun a b => (b <= a)%Z) (map Sequential.limit r.1.2) /\
  Forall (fun g =>
    let e := Sequential.turn_env (Sequential.slot g) in
    let remaining :=
      (inject_Z total_time
         - (Sequential.t_rem (Sequential.slot g) - start_time))%Q in
    (Sequential.limit g <= response_time)%Z /\
    Sequential.speaker g ∈ map fst (Moderator.participants m) /\
    Moderator.turn_raised (Sequential.report g) = None /\
    ((0 <= remaining)%Q -> (inject_Z (Sequential.limit g) <= remaining)%Q) /\
    ((remaining < 1)%Q ->
     (Sequential.limit g <= 0)%Z /\
     forall p rest,
       Moderator.polls e = p :: rest ->
       Moderator.poll_done p = false ->
       (Moderator.turn_start e <= Moderator.poll_now p)%Q ->
       (forall msg, Moderator.reaction e <> Moderator.RaisesInstead msg) ->
       Moderator.turn_exit (Sequential.report g)
         = Moderator.TimedOut (Moderator.reaction e) /\
       Moderator.cancel_calls (Sequential.report g) = 1)) r.1.2.
Proof.
  intros Hkeys r. subst r. unfold Sequential.traditional_discussion_phase.
  set (m1 := Moderator.with_phase Moderator.DISCUSSION m).
  pose proof (broadcast_same (Sequential.discussion_begin_text total_time)
                st_begin m1) as (Hst2 & Hk2 & _).
  set (m2 := Moderator.broadcast_message _ st_begin m1) in *.
  change (map fst (Moderator.participants m1))
    with (map fst (Moderator.participants m)) in Hk2.
  destruct (Sequential.discussion_rounds start_time (inject_Z total_time)
              (Moderator.turn_order (Moderator.state m2)) rounds
              response_time m2) as [[en gs] m3] eqn:Hrun.
  destruct (discussion_rounds_spec start_time (inject_Z total_time)
              (map fst (Moderator.participants m))
              (Moderator.turn_order (Moderator.state m2))) with
    (rounds := rounds) (rt := response_time) (m := m2) (en := en) (gs := gs)
    (m' := m3) as ((_ & _ & Hph) & Hen & Hlim & Hsorted & Hok);
    [by rewrite Hst2|done|done|].
  rewrite Hst2 in Hph. simpl in Hph.
  assert (Hall : Forall (fun g =>
    let e := Sequential.turn_env (Sequential.slot g) in
    let remaining :=
      (inject_Z total_time
         - (Sequential.t_rem (Sequential.slot g) - start_time))%Q in
    (Sequential.limit g <= response_time)%Z /\
    Sequential.speaker g ∈ map fst (Moderator.participants m) /\
    Moderator.turn_raised (Sequential.report g) = None /\
    ((0 <= remaining)%Q -> (inject_Z (Sequential.limit g) <= remaining)%Q) /\
    ((remaining < 1)%Q ->
     (Sequential.limit g <= 0)%Z /\
     forall p rest,
       Moderator.polls e = p :: rest ->
       Moderator.poll_done p = false ->
       (Moderator.turn_start e <= Moderator.poll_now p)%Q ->
       (forall msg, Moderator.reaction e <> Moderator.RaisesInstead msg) ->
       Moderator.turn_exit (Sequential.report g)
         = Moderator.TimedOut (Moderator.reaction e) /\
       Moderator.cancel_calls (Sequential.report g) = 1)) gs).
  { rewrite Forall_forall in Hlim, Hok. apply Forall_forall. intros g Hg.
    destruct (Hok g Hg) as (Hs & Hr & Hrem & Hsmall).
    cbv zeta in *. split; [by apply Hlim|].
    split; [exact Hs|]. split; [exact Hr|]. split; [exact Hrem|exact Hsmall]. }
  destruct en as [| |msg]; simpl.
  - split; [done|]. split; [|done].
    pose proof (broadcast_same Sequential.discussion_complete_text st_end m3)
      as (Hst4 & _).
    by rewrite Hst4.
  - by repeat split.
  - by destruct (Hen msg).
Qed.

(** X25 at work: a discussion of two seconds that starts at 10 s.
    Socrates is given the two seconds that remain and answers at once;
    Human_1's turn comes at 11.5 s, with half a second left: the limit is
    0, the first look at the timer counts a timeout, and Human_1 has a
    warning. *)
Lemma sequential_discussion_turn_limits_witness :
  let answered := Moderator.mkTurnEnv (10, 10)%Q 10
                    [Moderator.mkPoll false 10 (10, 10)%Q;
                     Moderator.mkPoll true 10.5 (10.5, 10.5)%Q]
                    (Moderator.Value "Know thyself.") Moderator.EndsCancelled
                    (11, 11)%Q (11, 11)%Q (11, 11)%Q (11, 11)%Q in
  let late := Moderator.mkTurnEnv (11.5, 11.5)%Q 11.5
                [Moderator.mkPoll false 11.5 (11.5, 11.5)%Q]
                (Moderator.Value "") Moderator.EndsCancelled
                (11.6, 11.6)%Q (11.6, 11.6)%Q (11.6, 11.6)%Q (11.6, 11.6)%Q in
  let rounds := [Sequential.mkRound 10
                   [Sequential.mkSlot 10 10 answered;
                    Sequential.mkSlot 11.2 11.5 late];
                 Sequential.mkRound 12.1 []] in
  let r := Sequential.traditional_discussion_phase 2 60 (9, 9)%Q 10 rounds
             (13, 13)%Q (demo_session Human.Web) in
  r.1.1 = Sequential.PhaseDone /\
  map Sequential.limit r.1.2 = [2; 0]%Z /\
  Moderator.warnings_issued (Moderator.state r.2) !! "Human_1" = Some 1 /\
  StronglySorted (fun a b => (b <= a)%Z) (map Sequential.limit r.1.2).
Proof.
  intros answered late rounds r.
  split; [reflexivity|]. split; [reflexivity|]. split; [reflexivity|].
  destruct (sequential_discussion_turn_limits 2 60 (9, 9)%Q 10 rounds
              (13, 13)%Q (demo_session Human.Web)) as (_ & _ & Hs & _).
  - intros who Hw. exact Hw.
  - exact Hs.
Defined.
